(** * Terraformer: HCL rendering and schema pruning

    A shallow embedding of the rendering core of the [terraformutils]
    package: the name sanitiser ([TfSanitize]), the schema pruner
    ([CleanUpOptionalEmptyAttributes]), the AST sanitiser that runs between
    the HCL JSON parser and the HCL printer ([astSanitizer.visit]), the two
    line-level rewriting passes ([terraform12Adjustments],
    [terraform13Adjustments]) and the resource assembler
    ([HclPrintResource]).

    Go strings are byte sequences: they are Rocq [string]s, one [ascii] per
    byte.  Go maps are stdpp [gmap]s.  A Go run-time panic is an explicit
    outcome ([Panicked]); a Go [(value, error)] result is a pair. *)

From Stdlib Require Import ZArith NArith String Ascii List Bool Lia DecimalString.
From Stdlib Require DecimalFacts DecimalNat.
From stdpp Require Import gmap strings list fin_maps sorting.

#[local] Set Warnings "-register-all".
#[local] Open Scope string_scope.

(* ===================================================================== *)
(** * Part I: definitions                                                 *)
(* ===================================================================== *)

(** ** Outcomes of Go code that can panic *)

Inductive panic :=
| IndexOutOfRange        (* runtime error: index out of range *)
| SliceBoundsOutOfRange  (* runtime error: slice bounds out of range *)
| NilMapWrite            (* assignment to entry in nil map *)
| BadPattern.            (* regexp.MustCompile on a pattern that does not parse *)

Inductive outcome (A : Type) :=
| Returned (a : A)
| Panicked (p : panic).
Arguments Returned {A} a.
Arguments Panicked {A} p.

#[global] Instance outcome_ret : MRet outcome := fun A a => Returned a.

#[global] Instance outcome_bind : MBind outcome := fun A B k m =>
  match m with
  | Returned a => k a
  | Panicked p => Panicked p
  end.

(** ** The parts of Go's [strings] and [strconv] packages the code uses *)

Module GoStrings.

Definition byte_in (lo hi : N) (c : ascii) : bool :=
  (lo <=? N_of_ascii c)%N && (N_of_ascii c <=? hi)%N.

(** [len(s)] *)
Abbreviation len := String.length.

(** The line feed, the double quote, the backslash and the tab. *)
Definition LF : string := String (ascii_of_N 10) "".
Definition DQ : string := String (ascii_of_N 34) "".
Definition BS : string := String (ascii_of_N 92) "".
Definition TAB : string := String (ascii_of_N 9) "".

(** [s[n:]], for [n <= len(s)] *)
Fixpoint slice_from (n : nat) (s : string) : string :=
  match n, s with
  | S k, String _ t => slice_from k t
  | _, _ => s
  end.

(** [s[:n]], for [n <= len(s)] *)
Fixpoint slice_to (n : nat) (s : string) : string :=
  match n, s with
  | S k, String c t => String c (slice_to k t)
  | _, _ => ""
  end.

(** [strings.HasPrefix(s, prefix)] *)
Fixpoint HasPrefix (s prefix : string) {struct prefix} : bool :=
  match prefix, s with
  | "", _ => true
  | String a p, String b t => Ascii.eqb a b && HasPrefix t p
  | String _ _, "" => false
  end.

(** [strings.HasSuffix(s, suffix)]:
    [len(s) >= len(suffix) && s[len(s)-len(suffix):] == suffix] *)
Definition HasSuffix (s suffix : string) : bool :=
  (len suffix <=? len s)%nat && String.eqb (slice_from (len s - len suffix) s) suffix.

(** [strings.TrimPrefix(s, prefix)] *)
Definition TrimPrefix (s prefix : string) : string :=
  if HasPrefix s prefix then slice_from (len prefix) s else s.

(** [strings.TrimSuffix(s, suffix)] *)
Definition TrimSuffix (s suffix : string) : string :=
  if HasSuffix s suffix then slice_to (len s - len suffix) s else s.

(** [strings.Contains(s, substr)] *)
Fixpoint Contains (s substr : string) : bool :=
  HasPrefix s substr ||
  match s with
  | "" => false
  | String _ t => Contains t substr
  end.

(** [strings.ReplaceAll(s, old, new)] for a non-empty [old] (every call
    site passes a non-empty constant): the non-overlapping occurrences of
    [old] are replaced from left to right.  [skip] counts the bytes of an
    occurrence still to be passed over. *)
Fixpoint replace_from (old new : string) (skip : nat) (s : string) : string :=
  match s with
  | "" => ""
  | String c t =>
      match skip with
      | S k => replace_from old new k t
      | O =>
          if HasPrefix s old
          then new +:+ replace_from old new (len old - 1) t
          else String c (replace_from old new 0 t)
      end
  end.

Definition ReplaceAll (s old new : string) : string :=
  replace_from old new 0 s.

(** [strings.Split(s, sep)] for a non-empty [sep]; the result is never
    empty. *)
Fixpoint split_from (sep : string) (skip : nat) (s : string) : list string :=
  match s with
  | "" => [""]
  | String c t =>
      match skip with
      | S k => split_from sep k t
      | O =>
          if HasPrefix s sep
          then "" :: split_from sep (len sep - 1) t
          else match split_from sep 0 t with
               | piece :: rest => String c piece :: rest
               | [] => [String c ""]
               end
      end
  end.

Definition Split (s sep : string) : list string := split_from sep 0 s.

(** [strings.Join(elems, sep)] *)
Definition Join (elems : list string) (sep : string) : string :=
  String.concat sep elems.

Fixpoint trim_left (cut : ascii -> bool) (s : string) : string :=
  match s with
  | String c t => if cut c then trim_left cut t else s
  | "" => ""
  end.

Definition trim_right (cut : ascii -> bool) (s : string) : string :=
  String.rev (trim_left cut (String.rev s)).

Definition no_equals (c : ascii) : bool := negb (Ascii.eqb c "=").

(** [strings.Trim(s, " ")] *)
Definition Trim_blank (s : string) : string :=
  trim_right (Ascii.eqb " ") (trim_left (Ascii.eqb " ") s).

(** The white space of [regexp]'s [\s], which is also the ASCII part of
    [unicode.IsSpace] without the vertical tab. *)
Definition is_re_space (c : ascii) : bool :=
  let n := N_of_ascii c in
  (n =? 9)%N || (n =? 10)%N || (n =? 12)%N || (n =? 13)%N || (n =? 32)%N.

Definition is_ascii_space (c : ascii) : bool :=
  is_re_space c || (N_of_ascii c =? 11)%N.

(** [unicode.IsSpace] on the runes that UTF-8 writes with two bytes
    (U+0085 and U+00A0) and with three bytes (U+1680, U+2000 to U+200A,
    U+2028, U+2029, U+202F, U+205F and U+3000), given by their bytes. *)
Definition space2 (a b : ascii) : bool :=
  (N_of_ascii a =? 194)%N &&
  ((N_of_ascii b =? 133)%N || (N_of_ascii b =? 160)%N).

Definition space3 (a b c : ascii) : bool :=
  let a := N_of_ascii a in
  let b := N_of_ascii b in
  let c := N_of_ascii c in
  ((a =? 225) && (b =? 154) && (c =? 128))%N ||
  ((a =? 226) && (b =? 128) &&
   ((128 <=? c) && (c <=? 138) || (c =? 168) || (c =? 169) || (c =? 175)))%N ||
  ((a =? 226) && (b =? 129) && (c =? 159))%N ||
  ((a =? 227) && (b =? 128) && (c =? 128))%N.

(** [strings.TrimLeftFunc(s, unicode.IsSpace)]: the runes are decoded from
    the left; a byte that starts no valid encoding is the rune
    [utf8.RuneError], which is no white space. *)
Fixpoint trim_left_space (s : string) : string :=
  match s with
  | "" => ""
  | String a t =>
      if is_ascii_space a then trim_left_space t
      else
        match t with
        | String b t2 =>
            if space2 a b then trim_left_space t2
            else
              match t2 with
              | String c t3 => if space3 a b c then trim_left_space t3 else s
              | "" => s
              end
        | "" => s
        end
  end.

(** [strings.TrimRightFunc(s, unicode.IsSpace)] on the reversed string:
    [utf8.DecodeLastRuneInString] reads a white space exactly when the
    string ends with its encoding. *)
Fixpoint trim_left_space_rev (s : string) : string :=
  match s with
  | "" => ""
  | String c t =>
      if is_ascii_space c then trim_left_space_rev t
      else
        match t with
        | String b t2 =>
            if space2 b c then trim_left_space_rev t2
            else
              match t2 with
              | String a t3 =>
                  if space3 a b c then trim_left_space_rev t3 else s
              | "" => s
              end
        | "" => s
        end
  end.

(** [strings.TrimSpace(s)]: the leading and the trailing white space of
    Unicode goes, ASCII or not. *)
Definition TrimSpace (s : string) : string :=
  String.rev (trim_left_space_rev (String.rev (trim_left_space s))).

Definition is_digit (c : ascii) : bool := byte_in 48 57 c.

(** [\w] of [regexp]: [[0-9A-Za-z_]] *)
Definition is_word (c : ascii) : bool :=
  is_digit c || byte_in 65 90 c || byte_in 97 122 c || (N_of_ascii c =? 95)%N.

Fixpoint all_bytes (p : ascii -> bool) (s : string) : bool :=
  match s with
  | "" => true
  | String c t => p c && all_bytes p t
  end.

Fixpoint decimal_value (acc : Z) (s : string) : Z :=
  match s with
  | "" => acc
  | String c t => decimal_value (10 * acc + (Z.of_N (N_of_ascii c) - 48)) t
  end.

(** [_, err := strconv.Atoi(s); err == nil]: an optional sign, then one or
    more decimal digits, the value within the range of a 64-bit [int]. *)
Definition Atoi_ok (s : string) : bool :=
  let '(neg, digits) :=
    match s with
    | String "-" t => (true, t)
    | String "+" t => (false, t)
    | _ => (false, s)
    end in
  negb (String.eqb digits "") && all_bytes is_digit digits &&
  (let v := decimal_value 0 digits in
   if neg then (v <=? 9223372036854775808)%Z else (v <=? 9223372036854775807)%Z).

(** [strconv.Itoa(i)] for a slice index [i >= 0] *)
Definition Itoa (i : nat) : string :=
  NilEmpty.string_of_uint (Nat.to_uint i).

End GoStrings.

(** ** Name sanitising: [TfSanitize] *)

Module Sanitize.
Import GoStrings.

Definition safeChars : string :=
  "abcdefghijklmnopqrstuvwxyzABCDEFGHIJKLMNOPQRSTUVWXYZ0123456789-_".

(** [strings.ContainsRune(s, c)] for a rune below [utf8.RuneSelf] *)
Fixpoint ContainsByte (s : string) (c : ascii) : bool :=
  match s with
  | "" => false
  | String a t => Ascii.eqb a c || ContainsByte t c
  end.

(** The character class of [unsafeChars], [[^0-9A-Za-z_\-]], on a rune
    below [utf8.RuneSelf].  Every other rune (and [utf8.RuneError], which
    [regexp] reads for a byte that does not start a valid encoding) is in
    the class. *)
Definition unsafe_ascii (c : ascii) : bool :=
  negb (is_digit c || byte_in 65 90 c || byte_in 97 122 c
        || (N_of_ascii c =? 95)%N || (N_of_ascii c =? 45)%N).

(** The safe set [[0-9A-Za-z_-]], as the complement of [unsafeChars]. *)
Definition is_safe (c : ascii) : bool := negb (unsafe_ascii c).

Definition hex_digit (n : N) : ascii :=
  if (n <? 10)%N then ascii_of_N (48 + n) else ascii_of_N (55 + n).

(** [%X] of a string: two upper-case hexadecimal digits per byte *)
Fixpoint hex_upper (s : string) : string :=
  match s with
  | "" => ""
  | String c t =>
      String (hex_digit (N_of_ascii c / 16))
             (String (hex_digit (N_of_ascii c mod 16)) (hex_upper t))
  end.

Fixpoint zeros (n : nat) : string :=
  match n with
  | O => ""
  | S k => String "0" (zeros k)
  end.

(** [fmt.Sprintf("-%04X-", s)]: the hexadecimal digits, padded on the left
    with zeros to a width of four. *)
Definition escapeRune (s : string) : string :=
  let h := hex_upper s in
  "-" +:+ zeros (4 - len h) +:+ h +:+ "-".

Definition cont (c : ascii) : bool := byte_in 128 191 c.

(** The acceptance ranges of [utf8.DecodeRuneInString] for encodings of
    two, three and four bytes. *)
Definition valid2 (b0 b1 : ascii) : bool := byte_in 194 223 b0 && cont b1.

Definition valid3 (b0 b1 b2 : ascii) : bool :=
  ((byte_in 224 224 b0 && byte_in 160 191 b1)
   || (byte_in 225 236 b0 && cont b1)
   || (byte_in 237 237 b0 && byte_in 128 159 b1)
   || (byte_in 238 239 b0 && cont b1))
  && cont b2.

Definition valid4 (b0 b1 b2 b3 : ascii) : bool :=
  ((byte_in 240 240 b0 && byte_in 144 191 b1)
   || (byte_in 241 243 b0 && cont b1)
   || (byte_in 244 244 b0 && byte_in 128 143 b1))
  && cont b2 && cont b3.

(** [unsafeChars.ReplaceAllStringFunc(name, escapeRune)]: the input is read
    rune by rune; [escapeRune] receives the bytes of each rune of the
    class, a byte that starts no valid encoding being a rune of its
    own. *)
Fixpoint replace_unsafe (s : string) : string :=
  match s with
  | "" => ""
  | String b0 t0 =>
      if (N_of_ascii b0 <? 128)%N then
        (if unsafe_ascii b0 then escapeRune (String b0 "") else String b0 "")
        +:+ replace_unsafe t0
      else
        let invalid := escapeRune (String b0 "") +:+ replace_unsafe t0 in
        match t0 with
        | String b1 t1 =>
            if valid2 b0 b1 then
              escapeRune (String b0 (String b1 "")) +:+ replace_unsafe t1
            else
              match t1 with
              | String b2 t2 =>
                  if valid3 b0 b1 b2 then
                    escapeRune (String b0 (String b1 (String b2 "")))
                    +:+ replace_unsafe t2
                  else
                    match t2 with
                    | String b3 t3 =>
                        if valid4 b0 b1 b2 b3 then
                          escapeRune
                            (String b0 (String b1 (String b2 (String b3 ""))))
                          +:+ replace_unsafe t3
                        else invalid
                    | "" => invalid
                    end
              | "" => invalid
              end
        | "" => invalid
        end
  end.

Definition TfSanitize (name : string) : string :=
  "tfer--" +:+ replace_unsafe name.

(** *** Vocabulary of the sanitising properties *)

Definition is_ascii (c : ascii) : bool := (N_of_ascii c <? 128)%N.

(** The escapes written out for a name of ASCII bytes. *)
Fixpoint escape_ascii_bytes (name : string) : string :=
  match name with
  | "" => ""
  | String c rest =>
      (if unsafe_ascii c
       then "-00" +:+ hex_upper (String c "") +:+ "-"
       else String c "")
      +:+ escape_ascii_bytes rest
  end.

End Sanitize.

(** ** Dynamic values, schemas and resources *)

(** The dynamic values held in a [map[string]interface{}] resource item:
    the nil interface, strings, booleans, integers, and slices and maps of
    values.  A nil slice differs from an empty one, and a nil map from an
    empty one, as [reflect.DeepEqual] tells them apart.  Floating-point
    numbers are not modelled. *)
Inductive Value :=
| VNil
| VString (s : string)
| VBool (b : bool)
| VInt (n : Z)
| VNilSlice
| VSlice (l : list Value)
| VNilMap
| VMap (m : gmap string Value).

(** The fields of [configschema.Attribute] and [configschema.Block] that the
    pruner reads.  A [NestedBlock] is represented by its embedded [Block]. *)
Module configschema.

Record Attribute := {
  Required : bool;
  Optional : bool;
  Computed : bool
}.

Inductive Block := mkBlock {
  Attributes : gmap string Attribute;
  BlockTypes : gmap string Block
}.

End configschema.

Module terraform.

Record InstanceInfo := {
  Id : string;
  ResourceType : string  (* the field [Type] *)
}.

Record InstanceState := {
  ID : string;
  Attributes : gmap string string
}.

End terraform.

(** [Item] is [None] for a nil map. *)
Record Resource := {
  InstanceInfo : terraform.InstanceInfo;
  InstanceState : terraform.InstanceState;
  ResourceName : string;
  Provider : string;
  Item : option (gmap string Value);
  PreserveOrder : list string;
  IgnoreKeys : list string;
  AllowEmptyValues : list string;
  AdditionalFields : gmap string Value
}.

Definition set_Item (r : Resource) (item : option (gmap string Value)) : Resource :=
  {| InstanceInfo := InstanceInfo r;
     InstanceState := InstanceState r;
     ResourceName := ResourceName r;
     Provider := Provider r;
     Item := item;
     PreserveOrder := PreserveOrder r;
     IgnoreKeys := IgnoreKeys r;
     AllowEmptyValues := AllowEmptyValues r;
     AdditionalFields := AdditionalFields r |}.

(** ** Schema pruning: [CleanUpOptionalEmptyAttributes] *)

Module Pruner.
Import configschema.

(** [value == nil ||
     reflect.DeepEqual(value, reflect.Zero(reflect.TypeOf(value)).Interface())]:
    the zero value of a slice or map type is the nil one. *)
Definition is_zero (value : Value) : bool :=
  match value with
  | VNil => true
  | VString s => String.eqb s ""
  | VBool b => negb b
  | VInt n => (n =? 0)%Z
  | VNilSlice => true
  | VSlice _ => false
  | VNilMap => true
  | VMap _ => false
  end.

(** The body of the loop of [cleanOptionalEmptyAttributes] for one entry of
    [data]: [None] when the entry is deleted, the entry after the recursion
    into its blocks otherwise.  [rec] cleans one element of a block list. *)
Definition clean_entry (rec : Value -> Block -> Value) (blockSchema : Block)
    (key : string) (value : Value) : option Value :=
  if match Attributes blockSchema !! key with
     | Some attrSchema => Optional attrSchema && is_zero value
     | None => false
     end
  then None
  else Some match BlockTypes blockSchema !! key, value with
            | Some blockTypeSchema, VSlice list =>
                VSlice (map (fun item => rec item blockTypeSchema) list)
            | _, _ => value
            end.

(** One element of a block list: cleaned when it is a
    [map[string]interface{}], left alone otherwise. *)
Fixpoint clean_item (item : Value) (blockSchema : Block) {struct item} : Value :=
  match item with
  | VMap itemMap => VMap (map_imap (clean_entry clean_item blockSchema) itemMap)
  | _ => item
  end.

Definition cleanOptionalEmptyAttributes (data : gmap string Value)
    (blockSchema : Block) : gmap string Value :=
  map_imap (clean_entry clean_item blockSchema) data.

(** [resourceSchema] is [None] for a nil pointer. *)
Definition CleanUpOptionalEmptyAttributes (r : Resource)
    (resourceSchema : option Block) : Resource :=
  match Item r, resourceSchema with
  | Some item, Some schema =>
      let item :=
        match Attributes schema !! "project" with
        | Some projectSchema =>
            if Computed projectSchema then delete "project" item else item
        | None => item
        end in
      set_Item r (Some (cleanOptionalEmptyAttributes item schema))
  | _, _ => r
  end.

(** The flatmap parser is defined in another file of the package and is
    taken as a parameter.  A [Flatmapper] has one method, [Parse], which
    receives the type implied by the schema and returns the attribute map
    ([None] for a nil map) and the error ([None] for a nil error). *)
Definition Flatmapper : Type :=
  Block -> outcome (option (gmap string Value) * option string).

(** [ParseTFstate]: the additional fields are written over the parsed
    attributes; writing into a nil map panics. *)
Definition ParseTFstate (r : Resource) (parser : Flatmapper)
    (impliedType : Block) : outcome (Resource * option string) :=
  parsed ← parser impliedType;
  match parsed with
  | (_, Some err) => Returned (r, Some err)
  | (Some attributes, None) =>
      Returned (set_Item r (Some (AdditionalFields r ∪ attributes)), None)
  | (None, None) =>
      if decide (AdditionalFields r = ∅)
      then Returned (set_Item r (Some ∅), None)
      else Panicked NilMapWrite
  end.

Section ConvertTFstate.

(** [regexp_compiles pattern] tells whether [regexp.MustCompile(pattern)]
    returns; [NewFlatmapParser] receives the flat attributes, the patterns
    of [IgnoreKeys] and the non-empty patterns of [AllowEmptyValues]. *)
Variable regexp_compiles : string -> bool.
Variable NewFlatmapParser :
  gmap string string -> list string -> list string -> Flatmapper.

(** [ResourceTypes] is the schema table of the provider.  Its entries are
    schema values, not pointers: a resource type that the table lacks
    yields the zero schema, whose [Block] is nil.  [ImpliedType] of a nil
    block is the empty object type, which is the implied type of the block
    without attributes and block types; the parser is consulted with it,
    and [CleanUpOptionalEmptyAttributes] then returns at its test of a nil
    schema. *)
Definition ConvertTFstate (ResourceTypes : gmap string Block) (r : Resource)
    : outcome (Resource * option string) :=
  let ignoreKeys := IgnoreKeys r in
  let allowEmptyValues :=
    filter (fun pattern => pattern <> "") (AllowEmptyValues r) in
  if negb (forallb regexp_compiles (ignoreKeys ++ allowEmptyValues)%list)
  then Panicked BadPattern
  else
    let parser :=
      NewFlatmapParser (terraform.Attributes (InstanceState r))
                       ignoreKeys allowEmptyValues in
    let resourceSchema :=
      ResourceTypes !! terraform.ResourceType (InstanceInfo r) in
    let impliedType := default (mkBlock ∅ ∅) resourceSchema in
    '(r, err) ← ParseTFstate r parser impliedType;
    match err with
    | Some e => Returned (r, Some e)
    | None =>
        Returned (CleanUpOptionalEmptyAttributes r resourceSchema, None)
    end.

End ConvertTFstate.

(** *** Vocabulary of the pruning properties *)

(** The nesting levels that the pruner reaches: from a map and its schema,
    through a key that names a block type and holds a slice, to an element
    of the slice that is a map, with the schema of the block. *)
Fixpoint descend (path : list (string * nat)) (data : gmap string Value)
    (blockSchema : Block) : option (gmap string Value * Block) :=
  match path with
  | [] => Some (data, blockSchema)
  | (key, i) :: rest =>
      match BlockTypes blockSchema !! key, data !! key with
      | Some blockTypeSchema, Some (VSlice list) =>
          match list !! i with
          | Some (VMap itemMap) => descend rest itemMap blockTypeSchema
          | _ => None
          end
      | _, _ => None
      end
  end.

Definition optional_attribute : Attribute :=
  {| Required := false; Optional := true; Computed := false |}.

Definition computed_attribute : Attribute :=
  {| Required := false; Optional := true; Computed := true |}.

Definition required_attribute : Attribute :=
  {| Required := true; Optional := false; Computed := false |}.

(** A bucket with a nested [rule] block, for the examples. *)
Definition bucket_schema : Block :=
  mkBlock {[ "name" := required_attribute;
             "description" := optional_attribute;
             "project" := computed_attribute ]}
          {[ "rule" := mkBlock {[ "description" := optional_attribute;
                                  "project" := computed_attribute ]} ∅ ]}.

Definition bucket_rule : gmap string Value :=
  {[ "description" := VString ""; "id" := VString "r1";
     "project" := VString "p" ]}.

Definition bucket_item : gmap string Value :=
  {[ "name" := VString "b"; "description" := VString "";
     "project" := VString "p"; "rule" := VSlice [VMap bucket_rule] ]}.

(** The resource of the bucket example, as the [NewResource] constructor
    leaves it once its item is set. *)
Definition bucket_resource : Resource :=
  {| InstanceInfo :=
       {| terraform.Id := "google_storage_bucket.tfer--b";
          terraform.ResourceType := "google_storage_bucket" |};
     InstanceState := {| terraform.ID := "b"; terraform.Attributes := ∅ |};
     ResourceName := "tfer--b";
     Provider := "google";
     Item := Some bucket_item;
     PreserveOrder := [];
     IgnoreKeys := [];
     AllowEmptyValues := [];
     AdditionalFields := ∅ |}.

(** A storage bucket with a lifecycle rule whose condition has an empty
    [created_before]; the resource carries the patterns of
    [GcsAllowEmptyValues]. *)
Definition gcs_schema : Block :=
  mkBlock {[ "name" := required_attribute ]}
    {[ "lifecycle_rule" :=
         mkBlock ∅
           {[ "condition" :=
                mkBlock {[ "age" := optional_attribute;
                           "created_before" := optional_attribute ]} ∅ ]} ]}.

Definition gcs_resource : Resource :=
  {| InstanceInfo :=
       {| terraform.Id := "google_storage_bucket.tfer--b";
          terraform.ResourceType := "google_storage_bucket" |};
     InstanceState :=
       {| terraform.ID := "b";
          terraform.Attributes :=
            {[ "name" := "b";
               "lifecycle_rule.#" := "1";
               "lifecycle_rule.0.condition.#" := "1";
               "lifecycle_rule.0.condition.0.age" := "3";
               "lifecycle_rule.0.condition.0.created_before" := "" ]} |};
     ResourceName := "tfer--b";
     Provider := "google";
     Item := None;
     PreserveOrder := [];
     IgnoreKeys := [];
     AllowEmptyValues := ["labels."; "created_before"];
     AdditionalFields := ∅ |}.

(** Modelled from the spec: the flatmap parser ([NewFlatmapParser] and its
    [Parse] method) is missing.  This stand-in decodes the attributes of
    [gcs_resource] only, into the tree that the specification describes for
    a decoder that keeps the attributes matched by [AllowEmptyValues]: the
    empty [created_before] is in the tree. *)
Definition gcs_parser (attributes : gmap string string)
    (ignoreKeys allowEmptyValues : list string) : Flatmapper :=
  fun _ =>
    Returned
      (Some {[ "name" := VString "b";
               "lifecycle_rule" :=
                 VSlice [VMap {[ "condition" :=
                   VSlice [VMap {[ "age" := VString "3";
                                   "created_before" := VString "" ]}] ]}] ]},
       None).

(** The zero values in the words of the specification: the empty string,
    the empty sequence, the empty mapping, false, 0, and the absent value.
    An empty sequence or mapping is empty whether it is nil or not. *)
Definition spec_zero (value : Value) : bool :=
  match value with
  | VNil | VNilSlice | VNilMap => true
  | VString s => String.eqb s ""
  | VBool b => negb b
  | VInt n => (n =? 0)%Z
  | VSlice l => match l with [] => true | _ => false end
  | VMap m => bool_decide (m = ∅)
  end.

End Pruner.

(** ** The HCL syntax tree

    The types of [hcl/token] and [hcl/ast] that the JSON parser builds and
    the sanitiser walks.  Comment groups are left out: a tree parsed from
    JSON has none. *)

Module token.

Record Pos := {
  Filename : string;
  Offset : Z;
  Line : Z;
  Column : Z
}.

Record Token := {
  TokenType : Z;  (* the field [Type] *)
  TokenPos : Pos; (* the field [Pos] *)
  Text : string;
  JSON : bool
}.

End token.

Module ast.

Record ObjectKey := { Token : token.Token }.

Inductive Node :=
| File (node : Node)
| ObjectList (items : list ObjectItem)
| ObjectKeyNode (key : ObjectKey)
| ObjectItemNode (item : ObjectItem)
| ObjectType (lbrace rbrace : token.Pos) (list : list ObjectItem)
| LiteralType (tok : token.Token)
| ListType (lbrack rbrack : token.Pos) (list : list Node)
| OtherNode
with ObjectItem :=
| mkObjectItem (keys : list ObjectKey) (assign : token.Pos) (val : Node).

Definition Keys (o : ObjectItem) : list ObjectKey :=
  let 'mkObjectItem keys _ _ := o in keys.

Definition Assign (o : ObjectItem) : token.Pos :=
  let 'mkObjectItem _ assign _ := o in assign.

Definition Val (o : ObjectItem) : Node :=
  let 'mkObjectItem _ _ val := o in val.

End ast.

(** ** Library functions taken as parameters

    The functions of the Go standard library and of the HCL library whose
    code is outside the repository, and [jsonPrint], which is defined in
    another file of the package.  A [(value, error)] result is an
    option or a sum; [hclPrinter_Fprint] yields what it wrote to the buffer
    together with its error, as the sorting reads the buffer whatever the
    error.  [sort_Slice] is a function: the algorithm of [sort.Slice] draws
    on no source of randomness, although it need not be stable. *)
Record Externals := {
  json_value : Type;
  strconv_Unquote : string -> option string;
  json_Unmarshal : string -> option json_value;
  json_MarshalIndent : json_value -> option string;
  sort_Slice : forall A : Type, (A -> A -> bool) -> list A -> list A;
  hclPrinter_Fprint : ast.Node -> string * option string;
  hclPrinter_Format : string -> string + string;
  hclParser_Parse : string -> ast.Node + string;
  jsonPrint : gmap string Value -> string * option string
}.

(** ** The AST sanitiser *)

Module Canonicalizer.
Import GoStrings Sanitize token ast.

Record astSanitizer := {
  sort : bool;
  hintsByResource : gmap string (gmap string (list string));
  currentPath : list string
}.

Definition set_currentPath (v : astSanitizer) (path : list string)
    : astSanitizer :=
  {| sort := sort v; hintsByResource := hintsByResource v;
     currentPath := path |}.

Definition set_Text (t : token.Token) (text : string) : token.Token :=
  {| TokenType := TokenType t; TokenPos := TokenPos t; Text := text;
     JSON := JSON t |}.

Definition set_TokenType (t : token.Token) (ty : Z) : token.Token :=
  {| TokenType := ty; TokenPos := TokenPos t; Text := Text t;
     JSON := JSON t |}.

Definition set_Line (p : Pos) (line : Z) : Pos :=
  {| Filename := Filename p; Offset := Offset p; Line := line;
     Column := Column p |}.

(** [buildLogicalPath] *)
Definition buildLogicalPath (v : astSanitizer) : string :=
  let logicalPathParts :=
    if (2 <? length (currentPath v))%nat
    then filter (fun part => Atoi_ok part = false) (drop 3 (currentPath v))
    else [] in
  Join logicalPathParts ".".

(** The hints registered for the resource that the current path is in:
    [v.hintsByResource[resourceType][resourceName]] under the test
    [len(v.currentPath) > 2 && v.currentPath[0] == "resource"]. *)
Definition resourceHints (v : astSanitizer) : option (list string) :=
  match currentPath v with
  | p0 :: resourceType :: resourceName :: _ =>
      if String.eqb p0 "resource"
      then hintsByResource v !! resourceType ≫= (.!! resourceName)
      else None
  | _ => None
  end.

(** [isPathOrdered] *)
Definition isPathOrdered (v : astSanitizer) (path : string) : bool :=
  match resourceHints v with
  | Some hints => existsb (String.eqb path) hints
  | None => false
  end.

(** The loop over the hints in the [ObjectList] case of [visit], which
    stops at the first hint that extends the logical path by one key. *)
Fixpoint find_unorderedKey (hints : list string) (logicalPath : string)
    : string :=
  match hints with
  | [] => ""
  | hint :: rest =>
      if HasPrefix hint logicalPath && (0 <? len logicalPath)%nat then
        let remainder := TrimPrefix hint logicalPath in
        if HasPrefix remainder "." &&
           negb (Contains (slice_from 1 remainder) ".")
        then TrimPrefix remainder "."
        else find_unorderedKey rest logicalPath
      else find_unorderedKey rest logicalPath
  end.

(** The text of a heredoc literal as [handleHeredoc] unwraps it: without
    its first and last bytes, every backslash-n a line feed, every
    backslash-t gone. *)
Definition heredoc_text (raw : string) : string :=
  let text := slice_from 1 raw in
  let text := slice_to (len text - 1) text in
  let text := ReplaceAll text (BS +:+ "n") LF in
  ReplaceAll text (BS +:+ "t") "".

Section WithExternals.

Variable E : Externals.

(** The text that the comparison of [sortHclTree] reads for a node. *)
Definition rendered (n : Node) : string := fst (hclPrinter_Fprint E n).

(** [sortHclTree] on a [[]*ast.ObjectItem] and on a [[]ast.Node] *)
Definition sortHclTree_items (t : list ObjectItem) : list ObjectItem :=
  sort_Slice E ObjectItem
    (fun i j => String.ltb (rendered (ObjectItemNode i))
                           (rendered (ObjectItemNode j))) t.

Definition sortHclTree_nodes (t : list Node) : list Node :=
  sort_Slice E Node (fun i j => String.ltb (rendered i) (rendered j)) t.

(** [key, err := strconv.Unquote(text); if err != nil { key = text }] *)
Definition unquote_or_raw (text : string) : string :=
  match strconv_Unquote E text with
  | Some key => key
  | None => text
  end.

(** The key that the partition reads: [item.Keys[0].Token.Text]. *)
Definition item_key (item : ObjectItem) : outcome string :=
  match Keys item with
  | [] => Panicked IndexOutOfRange
  | k :: _ => Returned (unquote_or_raw (Text (Token k)))
  end.

(** The same key as a total function, for the statements. *)
Definition first_key (item : ObjectItem) : string :=
  match Keys item with
  | [] => ""
  | k :: _ => unquote_or_raw (Text (Token k))
  end.

(** The partition loop: the items whose key is [unorderedKey], and the
    others, both in their order in the list. *)
Fixpoint partition_items (unorderedKey : string) (items : list ObjectItem)
    : outcome (list ObjectItem * list ObjectItem) :=
  match items with
  | [] => Returned ([], [])
  | item :: rest =>
      key ← item_key item;
      '(orderedItems, sortedItems) ← partition_items unorderedKey rest;
      if String.eqb key unorderedKey
      then Returned (item :: orderedItems, sortedItems)
      else Returned (orderedItems, item :: sortedItems)
  end.

(** The ordering decision of the [ObjectList] case, after the items have
    been visited. *)
Definition order_items (v : astSanitizer) (items : list ObjectItem)
    : outcome (list ObjectItem) :=
  if negb (sort v) then Returned items
  else
    let logicalPath := buildLogicalPath v in
    let unorderedKey :=
      match resourceHints v with
      | Some hints => find_unorderedKey hints logicalPath
      | None => ""
      end in
    if negb (String.eqb unorderedKey "") then
      '(orderedItems, sortedItems) ← partition_items unorderedKey items;
      Returned (orderedItems ++ sortHclTree_items sortedItems)%list
    else Returned (sortHclTree_items items).

Definition last_byte (s : string) : option ascii :=
  String.get (len s - 1) s.

(** [handleHeredoc] *)
Definition handleHeredoc (t : token.Token) : outcome token.Token :=
  if HasPrefix (Text t) (DQ +:+ "<<") then
    let text := slice_from 1 (Text t) in
    let text := slice_to (len text - 1) text in
    let text := ReplaceAll text (BS +:+ "n") LF in
    let text := ReplaceAll text (BS +:+ "t") "" in
    let t := set_TokenType (set_Text t text) 10 in
    let lines := Split text LF in
    if (length lines <? 2)%nat then Panicked SliceBoundsOutOfRange
    else
      let jsonTest := Join (take (length lines - 2) (drop 1 lines)) LF in
      let jsonTest := ReplaceAll jsonTest (BS +:+ DQ) DQ in
      let tmp :=
        match json_Unmarshal E jsonTest with
        | Some tmp => Some tmp
        | None => json_Unmarshal E jsonTest
        end in
      match tmp with
      | Some tmp =>
          match json_MarshalIndent E tmp with
          | Some dataJSONBytes =>
              let jsonData := Split dataJSONBytes LF in
              let jsonData := hd "" lines :: jsonData in
              let jsonData := (jsonData ++ [List.last lines ""])%list in
              Returned (set_Text t (Join jsonData LF))
          | None => Returned t
          end
      | None => Returned t
      end
  else Returned t.

(** The rewriting of the first key of an item in [visitObjectItem]. *)
Definition normalize_key (text : string) : outcome string :=
  if negb (String.eqb text "") && HasPrefix text DQ &&
     bool_decide (last_byte text = Some (ascii_of_N 34))
  then
    if (len text <? 2)%nat then Panicked SliceBoundsOutOfRange
    else
      let v_str := slice_to (len text - 2) (slice_from 1 text) in
      let safe := all_bytes (ContainsByte safeChars) v_str in
      let v_str :=
        if HasPrefix v_str "--" then DQ +:+ v_str +:+ DQ else v_str in
      Returned (if safe then v_str else text)
  else Returned text.

Definition normalize_keys (keys : list ObjectKey) : outcome (list ObjectKey) :=
  match keys with
  | [] => Returned []
  | k :: rest =>
      text ← normalize_key (Text (Token k));
      Returned ({| Token := set_Text (Token k) text |} :: rest)
  end.

(** [v.currentPath = v.currentPath[:len(v.currentPath)-n]] *)
Definition pop (v : astSanitizer) (n : nat) : outcome astSanitizer :=
  if (length (currentPath v) <? n)%nat then Panicked SliceBoundsOutOfRange
  else Returned
         (set_currentPath v (take (length (currentPath v) - n) (currentPath v))).

(** [visit] and [visitObjectItem].  The nodes are updated in place in the
    source; here the updated node is returned with the sanitiser. *)
Fixpoint visit (v : astSanitizer) (n : Node) {struct n}
    : outcome (astSanitizer * Node) :=
  match n with
  | File node =>
      '(v, node) ← visit v node;
      Returned (v, File node)
  | ObjectList items =>
      '(v, items) ←
        (fix visit_each v (items : list ObjectItem) {struct items} :=
           match items with
           | [] => Returned (v, [])
           | item :: rest =>
               '(v, item) ← visitObjectItem v item;
               '(v, rest) ← visit_each v rest;
               Returned (v, item :: rest)
           end) v items;
      items ← order_items v items;
      Returned (v, ObjectList items)
  | ListType lbrack rbrack elems =>
      '(v, elems) ←
        (fix visit_each v (i : nat) (elems : list Node) {struct elems} :=
           match elems with
           | [] => Returned (v, [])
           | item :: rest =>
               let v := set_currentPath v (currentPath v ++ [Itoa i])%list in
               '(v, item) ← visit v item;
               v ← pop v 1;
               '(v, rest) ← visit_each v (S i) rest;
               Returned (v, item :: rest)
           end) v 0%nat elems;
      let currentPathStr := buildLogicalPath v in
      if sort v && negb (isPathOrdered v currentPathStr)
      then Returned (v, ListType lbrack rbrack (sortHclTree_nodes elems))
      else Returned (v, ListType lbrack rbrack elems)
  | ObjectType lbrace rbrace items =>
      '(v, items) ←
        (fix visit_each v (items : list ObjectItem) {struct items} :=
           match items with
           | [] => Returned (v, [])
           | item :: rest =>
               '(v, item) ← visitObjectItem v item;
               '(v, rest) ← visit_each v rest;
               Returned (v, item :: rest)
           end) v items;
      items ← order_items v items;
      Returned (v, ObjectType lbrace rbrace items)
  | ObjectKeyNode key => Returned (v, n)
  | ObjectItemNode item =>
      '(v, item) ← visitObjectItem v item;
      Returned (v, ObjectItemNode item)
  | LiteralType tok =>
      tok ← handleHeredoc tok;
      Returned (v, LiteralType tok)
  | OtherNode => Returned (v, n)
  end
with visitObjectItem (v : astSanitizer) (o : ObjectItem) {struct o}
    : outcome (astSanitizer * ObjectItem) :=
  match o with
  | mkObjectItem keys assign val =>
      keys ← normalize_keys keys;
      let path := map (fun k => unquote_or_raw (Text (Token k))) keys in
      let v := set_currentPath v (currentPath v ++ path)%list in
      let assign := set_Line assign 1 in
      '(v, val) ← visit v val;
      v ← pop v (length path);
      Returned (v, mkObjectItem keys assign val)
  end.

(** The loop over the items of an [ObjectList]. *)
Fixpoint visit_items (v : astSanitizer) (items : list ObjectItem)
    : outcome (astSanitizer * list ObjectItem) :=
  match items with
  | [] => Returned (v, [])
  | item :: rest =>
      '(v, item) ← visitObjectItem v item;
      '(v, rest) ← visit_items v rest;
      Returned (v, item :: rest)
  end.

(** The loop over the elements of a [ListType], from index [i]. *)
Fixpoint visit_list (v : astSanitizer) (i : nat) (elems : list Node)
    : outcome (astSanitizer * list Node) :=
  match elems with
  | [] => Returned (v, [])
  | item :: rest =>
      let v := set_currentPath v (currentPath v ++ [Itoa i])%list in
      '(v, item) ← visit v item;
      v ← pop v 1;
      '(v, rest) ← visit_list v (S i) rest;
      Returned (v, item :: rest)
  end.

(** The sanitiser is the same after a visit that returns. *)
Definition visit_keeps (n : Node) : Prop :=
  forall v v' n', visit v n = Returned (v', n') -> v' = v.

Definition visitObjectItem_keeps (o : ObjectItem) : Prop :=
  forall v v' o', visitObjectItem v o = Returned (v', o') -> v' = v.

End WithExternals.

End Canonicalizer.

(** ** The line-level rewriting passes *)

Module Rewriter.
Import GoStrings.

(** [singletonListFix], the expression [^\s*\w+ = {]: white space, one or
    more word characters, then [ = {]. *)
Definition singletonListFix (line : string) : bool :=
  let rest := trim_left is_re_space line in
  let after := trim_left is_word rest in
  negb (String.eqb after rest) && HasPrefix after " = {".

(** [singletonListFixEnd] and [endBraceRe], the expression [^\s*}] *)
Definition endBraceRe (line : string) : bool :=
  HasPrefix (trim_left is_re_space line) "}".

(** What follows the first occurrence of [sub] in [s] *)
Fixpoint after_first (sub s : string) : option string :=
  if HasPrefix s sub then Some (slice_from (len sub) s)
  else match s with
       | "" => None
       | String _ t => after_first sub t
       end.

(** [requiredProvidersRe], the expression [required_providers ".*" {],
    which may match anywhere in a line; a line holds no line feed, so that
    [.*] stands for any sequence of bytes. *)
Definition requiredProvidersRe (line : string) : bool :=
  match after_first ("required_providers " +:+ DQ) line with
  | Some rest => Contains rest (DQ +:+ " {")
  | None => false
  end.

(** [key := strings.Trim(strings.Split(line, old)[0], " ")] *)
Definition line_key (line : string) : string :=
  Trim_blank (hd "" (Split line " = {")).

(** The loop of [terraform12Adjustments]: [prefix] is the stack of the keys
    of the enclosing lines; the lines are returned in their order. *)
Fixpoint adjust12 (mapsObjects : gset string) (prefix : list string)
    (lines : list string) : list string :=
  match lines with
  | [] => []
  | line :: rest =>
      if endBraceRe line && (0 <? length prefix)%nat then
        line :: adjust12 mapsObjects (removelast prefix) rest
      else if negb (singletonListFix line) then
        line :: adjust12 mapsObjects prefix rest
      else
        let prefix := (prefix ++ [line_key line])%list in
        if decide (Join prefix "." ∈ mapsObjects) then
          line :: adjust12 mapsObjects prefix rest
        else
          ReplaceAll line " = {" " {" :: adjust12 mapsObjects prefix rest
  end.

Definition terraform12Adjustments (formatted : string)
    (mapsObjects : gset string) : string :=
  Join (adjust12 mapsObjects [] (Split formatted LF)) LF.

(** The inner loop of [terraform13Adjustments]: the lines from [inner] up to
    the first closing brace, each behind a tab, and what starts at that
    brace.  Reading past the last line panics. *)
Fixpoint innerBlock (lines : list string)
    : outcome (list string * list string) :=
  match lines with
  | [] => Panicked IndexOutOfRange
  | line :: rest =>
      if endBraceRe line then Returned ([], lines)
      else
        '(block, tail) ← innerBlock rest;
        Returned ((TAB +:+ line) :: block, tail)
  end.

(** The loop of [terraform13Adjustments], which rewrites at the first line
    that matches and stops.  When the closing brace is the line right after
    the match, [lines[i+1]] has been overwritten before
    [append(lines[:i+2], lines[inner:]...)] copies it. *)
Fixpoint adjust13 (lines : list string) : outcome (list string) :=
  match lines with
  | [] => Returned []
  | line :: rest =>
      if requiredProvidersRe line then
        match (Split (TrimSpace line) " ") !! 1%nat with
        | None => Panicked IndexOutOfRange
        | Some part =>
            let provider := ReplaceAll part DQ "" in
            '(block, tail) ← innerBlock rest;
            let merged :=
              TAB +:+ TAB +:+ provider +:+ " = {" +:+ LF
              +:+ Join block LF +:+ LF +:+ TAB +:+ TAB +:+ "}" in
            let tail :=
              match block, tail with
              | [], _ :: after => merged :: after
              | _, _ => tail
              end in
            Returned ((TAB +:+ "required_providers {") :: merged :: tail)
        end
      else
        rest ← adjust13 rest;
        Returned (line :: rest)
  end.

Definition terraform13Adjustments (formatted : string) : outcome string :=
  lines ← adjust13 (Split formatted LF);
  Returned (Join lines LF).

(** *** Vocabulary of the rewriting properties *)

(** The stack of keys after one more line, as [adjust12] updates it. *)
Definition stack_step (prefix : list string) (line : string) : list string :=
  if endBraceRe line && (0 <? length prefix)%nat then removelast prefix
  else if singletonListFix line then (prefix ++ [line_key line])%list
  else prefix.

(** The stack that the code holds when it reaches line [i], and the dotted
    path that it looks up for line [i]: that stack with the key of the
    line.  This is the bookkeeping of the code, pushed by the lines that
    match [<key> = {] and popped by the lines with a closing brace; it is
    not the nesting of the text (see [nesting_path]). *)
Definition stack_before (lines : list string) (i : nat) : list string :=
  fold_left stack_step (take i lines) [].

Definition path_of_line (lines : list string) (i : nat) (line : string)
    : string :=
  Join (stack_before lines i ++ [line_key line])%list ".".

(** In the words of the specification: the nesting stack of enclosing
    keys.  A line that ends with an opening brace opens a block or a map,
    a line that starts with a closing brace closes the innermost open one,
    and a line that holds both braces, like [labels = {}], opens nothing.
    The opening line carries its key, in map form [<key> = {] or in block
    form [<key> {]; the labelled blocks at the top ([resource "t" "n" {])
    count for the nesting and add no key to the path. *)
Definition opener_key (line : string) : option string :=
  let rest := trim_left is_re_space line in
  let after := trim_left is_word rest in
  if String.eqb after " = {" || String.eqb after " {"
  then Some (slice_to (len rest - len after) rest)
  else None.

Definition nesting_step (stack : list (option string)) (line : string)
    : list (option string) :=
  if endBraceRe line then removelast stack
  else if HasSuffix line "{" then (stack ++ [opener_key line])%list
  else stack.

Definition enclosing_keys (lines : list string) (i : nat) : list string :=
  omap id (fold_left nesting_step (take i lines) []).

Definition nesting_path (lines : list string) (i : nat) (line : string)
    : string :=
  Join (enclosing_keys lines i ++ [line_key line])%list ".".

End Rewriter.

(** ** Printing and assembling *)

Module Printer.
Import GoStrings Canonicalizer Rewriter.

Section WithExternals.

Variable E : Externals.

(** [hclPrint]: the bytes and the error, or a panic of the sanitiser or of
    [terraform13Adjustments].  Nil and empty bytes are both [""].  The test
    of [err] after the two adjustments reads the nil error of
    [hclPrinter.Format] and never fires. *)
Definition hclPrint (data : gmap string Value) (mapsObjects : gset string)
    (sort : bool) (hintsByResource : gmap string (gmap string (list string)))
    : outcome (string * option string) :=
  match jsonPrint E data with
  | (dataBytesJSON, Some err) => Returned (dataBytesJSON, Some err)
  | (dataJSON, None) =>
      match hclParser_Parse E dataJSON with
      | inr err =>
          Returned ("", Some ("error parsing terraform json: " +:+ err))
      | inl nodes =>
          let sanitizer :=
            {| Canonicalizer.sort := sort;
               Canonicalizer.hintsByResource := hintsByResource;
               currentPath := [] |} in
          '(_, nodes) ← visit E sanitizer nodes;
          match hclPrinter_Fprint E nodes with
          | (_, Some err) =>
              Returned ("", Some ("error writing HCL: " +:+ err))
          | (s, None) =>
              let s := ReplaceAll s (LF +:+ LF) LF in
              let s :=
                ReplaceAll s ("}" +:+ LF +:+ "resource")
                             ("}" +:+ LF +:+ LF +:+ "resource") in
              match hclPrinter_Format E s with
              | inr err => Returned ("", Some err)
              | inl formatted =>
                  let formatted := terraform12Adjustments formatted mapsObjects in
                  formatted ← terraform13Adjustments formatted;
                  Returned (formatted, None)
              end
          end
      end
  end.

(** [Print] *)
Definition Print (data : gmap string Value) (mapsObjects : gset string)
    (format : string) (sort : bool)
    (hintsByResource : gmap string (gmap string (list string)))
    : outcome (string * option string) :=
  if String.eqb format "hcl" then hclPrint data mapsObjects sort hintsByResource
  else if String.eqb format "json" then Returned (jsonPrint E data)
  else Returned ("", Some "error: unknown output format").

End WithExternals.

End Printer.

Module Assembler.
Import GoStrings Printer.

(** [indexRe.ReplaceAllString(key, "")] for the expression [\.[0-9]+]: every
    dot followed by digits goes, with all the digits that follow it.
    [skipping] tells that the digits of a match are being passed over. *)
Fixpoint strip_from (skipping : bool) (s : string) : string :=
  match s with
  | "" => ""
  | String c t =>
      if skipping && is_digit c then strip_from true t
      else if Ascii.eqb c "." &&
              match t with String d _ => is_digit d | "" => false end
      then strip_from true t
      else String c (strip_from false t)
  end.

Definition strip_indices (key : string) : string := strip_from false key.

(** The value stored for an item: a map, nil or not, held in an interface
    that is not nil. *)
Definition item_value (item : option (gmap string Value)) : Value :=
  match item with
  | Some m => VMap m
  | None => VNilMap
  end.

(** What the loop of [HclPrintResource] builds, with the lines it logs. *)
Record assembly := {
  resourcesByType : gmap string (gmap string Value);
  mapsObjects : gset string;
  hintsByResource : gmap string (gmap string (list string));
  logged : list string
}.

Definition empty_assembly : assembly :=
  {| resourcesByType := ∅; mapsObjects := ∅; hintsByResource := ∅;
     logged := [] |}.

(** The loop over [res.InstanceState.Attributes], for the keys in the order
    in which the [range] yields them. *)
Definition register_maps (keys : list string) (mapsObjects : gset string)
    : gset string :=
  fold_left
    (fun acc k =>
       if HasSuffix k ".%"
       then {[ strip_indices (TrimSuffix k ".%") ]} ∪ acc
       else acc)
    keys mapsObjects.

(** One turn of the loop of [HclPrintResource]; [keys] are the keys of the
    attributes of [res] in the order of this iteration over the map. *)
Definition assemble_one (keys : list string) (a : assembly) (res : Resource)
    : assembly :=
  let type := terraform.ResourceType (InstanceInfo res) in
  let r := default ∅ (resourcesByType a !! type) in
  let byType := <[type := r]> (resourcesByType a) in
  match r !! ResourceName res with
  | Some _ =>
      {| resourcesByType := byType;
         mapsObjects := mapsObjects a;
         hintsByResource := hintsByResource a;
         logged :=
           (logged a ++
            ["[ERR]: duplicate resource found: " +:+ type +:+ "."
             +:+ ResourceName res])%list |}
  | None =>
      {| resourcesByType :=
           <[type := <[ResourceName res := item_value (Item res)]> r]> byType;
         mapsObjects := register_maps keys (mapsObjects a);
         hintsByResource :=
           if (0 <? length (PreserveOrder res))%nat
           then <[type := <[ResourceName res := PreserveOrder res]>
                            (default ∅ (hintsByResource a !! type))]>
                  (hintsByResource a)
           else hintsByResource a;
         logged := logged a |}
  end.

(** The loop, from the resource of index [i].  The order in which a [range]
    yields the keys of a map is not specified: [order i m] is the order of
    the iteration over the attributes [m] of the resource of index [i]. *)
Fixpoint assemble_from (order : nat -> gmap string string -> list string)
    (i : nat) (a : assembly) (resources : list Resource) : assembly :=
  match resources with
  | [] => a
  | res :: rest =>
      assemble_from order (S i)
        (assemble_one
           (order i (terraform.Attributes (InstanceState res))) a res)
        rest
  end.

Definition assemble (order : nat -> gmap string string -> list string)
    (resources : list Resource) : assembly :=
  assemble_from order 0 empty_assembly resources.

(** The document handed to [Print]. *)
Definition document (a : assembly) (providerData : gmap string Value)
    : gmap string Value :=
  let data : gmap string Value := ∅ in
  let data :=
    if decide (resourcesByType a = ∅) then data
    else <["resource" := VMap (VMap <$> resourcesByType a)]> data in
  if decide (providerData = ∅) then data
  else <["provider" := VMap providerData]> data.

(** [HclPrintResource] *)
Definition HclPrintResource (E : Externals)
    (order : nat -> gmap string string -> list string)
    (resources : list Resource) (providerData : gmap string Value)
    (output : string) (sort : bool) : outcome (string * option string) :=
  let a := assemble order resources in
  '(hclBytes, err) ←
    Print E (document a providerData) (mapsObjects a) output sort
          (hintsByResource a);
  match err with
  | Some e => Returned ("", Some e)
  | None => Returned (hclBytes, None)
  end.

(** *** Vocabulary of the assembling properties *)

(** The paths that a resource registers: its attribute keys with the
    map-count suffix, without the suffix and without indices. *)
Definition maps_of (attributes : gmap string string) : gset string :=
  set_map (fun k => strip_indices (TrimSuffix k ".%"))
          (filter (fun k => HasSuffix k ".%" = true) (dom attributes)).

(** Whether two resources have the same type and name. *)
Definition same_address (a b : Resource) : Prop :=
  terraform.ResourceType (InstanceInfo a) = terraform.ResourceType (InstanceInfo b)
  /\ ResourceName a = ResourceName b.

(** The resources that are the first of their type and name. *)
Fixpoint first_occurrences (seen : list Resource) (resources : list Resource)
    : list Resource :=
  match resources with
  | [] => []
  | res :: rest =>
      if decide (Exists (same_address res) seen)
      then first_occurrences seen rest
      else res :: first_occurrences (res :: seen) rest
  end.

Abbreviation type_of res := (terraform.ResourceType (InstanceInfo res)).

(** The entry of a type and a name in the assembly. *)
Definition lookup_resource (a : assembly) (type name : string) : option Value :=
  resourcesByType a !! type ≫= (.!! name).

(** The resources seen so far are those that have an entry. *)
Definition seen_registered (a : assembly) (seen : list Resource) : Prop :=
  forall res,
    Exists (same_address res) seen <->
    is_Some (lookup_resource a (type_of res) (ResourceName res)).

(** The resources that come after one of their type and name. *)
Fixpoint later_occurrences (seen : list Resource) (resources : list Resource)
    : list Resource :=
  match resources with
  | [] => []
  | res :: rest =>
      if decide (Exists (same_address res) seen)
      then res :: later_occurrences seen rest
      else later_occurrences (res :: seen) rest
  end.

Definition duplicate_message (res : Resource) : string :=
  "[ERR]: duplicate resource found: "
  +:+ terraform.ResourceType (InstanceInfo res) +:+ "." +:+ ResourceName res.

(** The paths that a list of resources registers. *)
Definition all_maps (resources : list Resource) : gset string :=
  ⋃ ((fun res => maps_of (terraform.Attributes (InstanceState res)))
       <$> resources).

(** Two assemblies that hand the same document, map paths and hints to
    [Print]. *)
Definition same_document (a b : assembly) : Prop :=
  resourcesByType a = resourcesByType b /\
  mapsObjects a = mapsObjects b /\
  hintsByResource a = hintsByResource b.

(** An iteration order over the keys of a map: each key once. *)
Definition valid_order (order : nat -> gmap string string -> list string)
    : Prop :=
  forall i m, order i m ≡ₚ elements (dom m).

Definition sorted_order : nat -> gmap string string -> list string :=
  fun _ m => elements (dom m).

Definition reverse_order : nat -> gmap string string -> list string :=
  fun _ m => reverse (elements (dom m)).

End Assembler.

(** ** Stand-ins for the library functions, for the examples

    Small executable functions with the interface of [Externals].  The
    theorems hold for every [Externals]; the stand-ins only serve to run the
    code on concrete trees and texts. *)

Module Examples.
Import GoStrings token ast Canonicalizer.

(** [strconv.Unquote] on a double-quoted text without escape sequences;
    every other text is an error. *)
Definition toy_Unquote (text : string) : option string :=
  let inner := slice_to (len text - 2) (slice_from 1 text) in
  if (2 <=? len text)%nat && HasPrefix text DQ
     && bool_decide (last_byte text = Some (ascii_of_N 34))
     && negb (Contains inner DQ) && negb (Contains inner BS)
  then Some inner else None.

(** A printer that writes the keys of an item, an equals sign and the
    value, one item per line. *)
Fixpoint toy_print (n : Node) : string :=
  match n with
  | File node => toy_print node
  | ObjectList items =>
      Join (map (fun o => match o with
                          | mkObjectItem keys _ val =>
                              Join (map (fun k => Text (Token k)) keys) " "
                              +:+ " = " +:+ toy_print val
                          end) items) LF
  | ObjectKeyNode key => Text (Token key)
  | ObjectItemNode (mkObjectItem keys _ val) =>
      Join (map (fun k => Text (Token k)) keys) " "
      +:+ " = " +:+ toy_print val
  | ObjectType _ _ items =>
      "{" +:+ Join (map (fun o => match o with
                          | mkObjectItem keys _ val =>
                              Join (map (fun k => Text (Token k)) keys) " "
                              +:+ " = " +:+ toy_print val
                          end) items) LF +:+ "}"
  | LiteralType tok => Text tok
  | ListType _ _ elems => "[" +:+ Join (map toy_print elems) ", " +:+ "]"
  | OtherNode => ""
  end.

(** A JSON codec that knows one document. *)
Definition toy_Unmarshal (text : string) : option string :=
  if HasPrefix text "{" || HasPrefix text "[" then Some text else None.

Definition toy_MarshalIndent (value : string) : option string :=
  if String.eqb value ("{" +:+ DQ +:+ "a" +:+ DQ +:+ ":1}")
  then Some ("{" +:+ LF +:+ "  " +:+ DQ +:+ "a" +:+ DQ +:+ ": 1" +:+ LF +:+ "}")
  else Some value.

(** A merge sort for [sort.Slice]. *)
Definition toy_sort (A : Type) (less : A -> A -> bool) (l : list A) : list A :=
  @merge_sort A (fun a b => less b a = false)
    (fun a b => decide (less b a = false)) l.

Definition toy : Externals :=
  {| json_value := string;
     strconv_Unquote := toy_Unquote;
     json_Unmarshal := toy_Unmarshal;
     json_MarshalIndent := toy_MarshalIndent;
     sort_Slice := toy_sort;
     hclPrinter_Fprint := fun n => (toy_print n, None);
     hclPrinter_Format := fun text => inl text;
     hclParser_Parse := fun _ => inr "no parser";
     jsonPrint := fun _ => ("", None) |}.

Definition no_pos : Pos :=
  {| Filename := ""; Offset := 0; Line := 0; Column := 0 |}.

Definition string_token (text : string) : token.Token :=
  {| TokenType := 9; TokenPos := no_pos; Text := text; JSON := true |}.

Definition attribute (key value : string) : ObjectItem :=
  mkObjectItem [ {| Token := string_token (DQ +:+ key +:+ DQ) |} ] no_pos
    (LiteralType (string_token (DQ +:+ value +:+ DQ))).

(** The body of a [build] block of a Cloud Build trigger: two steps around
    a timeout. *)
Definition build_items : list ObjectItem :=
  [ attribute "step" "second"; attribute "timeout" "60s";
    attribute "args" "x"; attribute "step" "first" ].

Definition build_sanitizer : astSanitizer :=
  {| sort := true;
     hintsByResource :=
       {[ "google_cloudbuild_trigger" :=
            {[ "tfer--t" := ["build.step"; "build.step.args"] ]} ]};
     currentPath := ["resource"; "google_cloudbuild_trigger"; "tfer--t";
                     "build"] |}.

Definition visited_build_items : list ObjectItem :=
  Eval vm_compute in
    match visit_items toy build_sanitizer build_items with
    | Returned (_, items) => items
    | Panicked _ => []
    end.

(** The key and the value of an attribute, without their quotes. *)
Definition key_and_value (item : ObjectItem) : string * string :=
  (first_key toy item,
   match Val item with
   | LiteralType tok => unquote_or_raw toy (Text tok)
   | _ => ""
   end).

(** The raw text of a string literal that holds a heredoc with a JSON
    body, and of one that holds a heredoc marker alone. *)
Definition heredoc_json : string :=
  DQ +:+ "<<EOF" +:+ BS +:+ "n{" +:+ BS +:+ DQ +:+ "a" +:+ BS +:+ DQ
  +:+ ":1}" +:+ BS +:+ "nEOF" +:+ DQ.

Definition heredoc_marker_only : string := DQ +:+ "<<EOF" +:+ DQ.

(** A block of [required_providers] that is never closed, as the text that
    reaches the adjustments. *)
Definition unclosed_providers : string :=
  "terraform {" +:+ LF +:+
  "  required_providers " +:+ DQ +:+ "google" +:+ DQ +:+ " {" +:+ LF +:+
  "    version = " +:+ DQ +:+ "4.0" +:+ DQ.

(** A resource with a map of tags and a nested block, as the printer
    writes it. *)
Definition tags_lines : list string :=
  [ "resource " +:+ DQ +:+ "google_x" +:+ DQ +:+ " " +:+ DQ +:+ "tfer--a"
      +:+ DQ +:+ " {";
    "  tags = {";
    "    env = " +:+ DQ +:+ "prod" +:+ DQ;
    "  }";
    "  rule = {";
    "    tags = {";
    "    }";
    "  }";
    "}" ].

(** The same resource with the empty map of labels of its rule on one
    line, and the rule before the tags. *)
Definition rule_tags_lines : list string :=
  [ "resource " +:+ DQ +:+ "google_x" +:+ DQ +:+ " " +:+ DQ +:+ "tfer--a"
      +:+ DQ +:+ " {";
    "  rule = {";
    "    labels = {}";
    "  }";
    "  tags = {";
    "    env = " +:+ DQ +:+ "prod" +:+ DQ;
    "  }";
    "}" ].

(** The resource of the specification whose [tags] are a map. *)
Definition tags_resource : Resource :=
  {| InstanceInfo :=
       {| terraform.Id := "google_x.tfer--a";
          terraform.ResourceType := "google_x" |};
     InstanceState :=
       {| terraform.ID := "a";
          terraform.Attributes :=
            {[ "tags.%" := "1"; "tags.env" := "prod";
               "rule.#" := "1"; "rule.0.labels.%" := "0" ]} |};
     ResourceName := "tfer--a";
     Provider := "google";
     Item := Some {[ "tags" := VMap {[ "env" := VString "prod" ]} ]};
     PreserveOrder := [];
     IgnoreKeys := [];
     AllowEmptyValues := [];
     AdditionalFields := ∅ |}.

End Examples.

(** ** Further definitions

    The functions of the files above that the properties of Part III are
    about, with the vocabulary of those properties: the constructors and
    accessors of [Resource], [ResourceFilter], the helpers of the GCP
    services and the hooks of the GCP generators that run between the
    conversion of the state and the printing. *)

Module PrunerMeasure.

(** The number of nodes of a value, on which the pruner recurses. *)
Fixpoint value_size (v : Value) : nat :=
  match v with
  | VSlice l => S (list_sum (map value_size l))
  | VMap m => S (map_fold (fun _ x acc => value_size x + acc)%nat 0%nat m)
  | _ => 1
  end.

End PrunerMeasure.

(** *** Constructors and accessors of [Resource] *)

Module ResourceOps.
Import GoStrings Sanitize.

(** [NewResource]: the fields that the literal does not name
    ([PreserveOrder], [IgnoreKeys]) have their zero value. *)
Definition NewResource (id resourceName resourceType provider : string)
    (attributes : gmap string string) (allowEmptyValues : list string)
    (additionalFields : gmap string Value) : Resource :=
  {| InstanceInfo :=
       {| terraform.Id := resourceType +:+ "." +:+ TfSanitize resourceName;
          terraform.ResourceType := resourceType |};
     InstanceState :=
       {| terraform.ID := id; terraform.Attributes := attributes |};
     ResourceName := TfSanitize resourceName;
     Provider := provider;
     Item := None;
     PreserveOrder := [];
     IgnoreKeys := [];
     AllowEmptyValues := allowEmptyValues;
     AdditionalFields := additionalFields |}.

Definition NewSimpleResource (id resourceName resourceType provider : string)
    (allowEmptyValues : list string) : Resource :=
  NewResource id resourceName resourceType provider ∅ allowEmptyValues ∅.

Definition GetIDKey (r : Resource) : string :=
  match terraform.Attributes (InstanceState r) !! "self_link" with
  | Some _ => "self_link"
  | None => "id"
  end.

Definition ServiceName (r : Resource) : string :=
  TrimPrefix (terraform.ResourceType (InstanceInfo r)) (Provider r +:+ "_").

End ResourceOps.

(** *** [ResourceFilter] *)

Module ResourceFilter.
Import GoStrings.

(** [AcceptableValues] is [None] for a nil slice. *)
Record t := {
  ServiceName : string;
  FieldPath : string;
  AcceptableValues : option (list string)
}.

Definition IsApplicable (rf : t) (serviceName : string) : bool :=
  String.eqb (ServiceName rf) "" || String.eqb (ServiceName rf) serviceName.

Definition isInitial (rf : t) : bool := String.eqb (FieldPath rf) "id".

(** What [Filter] hands to the walking functions: the flat attributes of
    the state or the item of the resource. *)
Inductive walked :=
| WalkedAttributes (attributes : gmap string string)
| WalkedItem (item : option (gmap string Value)).

(** [val == acceptableValue] between an interface value and a string *)
Definition value_is (val : Value) (acceptableValue : string) : bool :=
  match val with
  | VString s => String.eqb s acceptableValue
  | _ => false
  end.

Section Filter.

(** [WalkAndCheckField] and [WalkAndGet] are defined in another file of the
    package and are taken as parameters. *)
Variable WalkAndCheckField : string -> walked -> bool.
Variable WalkAndGet : string -> walked -> list Value.

Definition accepted (rf : t) (vals : list Value) : bool :=
  existsb (fun val =>
             existsb (value_is val) (default [] (AcceptableValues rf)))
          vals.

Definition Filter (rf : t) (resource : Resource) : bool :=
  if negb (IsApplicable rf
             (TrimPrefix (terraform.ResourceType (InstanceInfo resource))
                         (Provider resource +:+ "_")))
  then true
  else if String.eqb (FieldPath rf) "id"
  then accepted rf [VString (terraform.ID (InstanceState resource))]
  else
    match AcceptableValues rf with
    | None =>
        if WalkAndCheckField (FieldPath rf)
             (WalkedAttributes (terraform.Attributes (InstanceState resource)))
        then true
        else WalkAndCheckField (FieldPath rf) (WalkedItem (Item resource))
    | Some _ =>
        let vals :=
          WalkAndGet (FieldPath rf)
            (WalkedAttributes (terraform.Attributes (InstanceState resource))) in
        let vals :=
          if (length vals =? 0)%nat
          then WalkAndGet (FieldPath rf) (WalkedItem (Item resource))
          else vals in
        accepted rf vals
    end.

End Filter.

End ResourceFilter.

(** *** The helpers of the GCP services *)

Module GCPService.
Import GoStrings Sanitize ResourceOps.

(** [applyCustomProviderType]: the write into the item of a resource whose
    item is nil panics.  The loop variable is a copy of the resource, whose
    item is the map of the caller's resource: the write is seen there too;
    the function here gives the returned slice. *)
Fixpoint applyCustomProviderType (resources : list Resource)
    (providerName : string) : outcome (list Resource) :=
  match resources with
  | [] => Returned []
  | r :: rest =>
      match Item r with
      | None => Panicked NilMapWrite
      | Some item =>
          editedResources ← applyCustomProviderType rest providerName;
          Returned
            (set_Item r (Some (<["provider" := VString providerName]> item))
             :: editedResources)
      end
  end.

Section CreateIamMemberResources.

(** The field [ProviderName] of the service *)
Variable ProviderName : string.

Definition memberAttributes (attributes : gmap string string)
    (role member conditionTitle conditionDescription conditionExpression : string)
    : gmap string string :=
  let memberAttributes :=
    attributes ∪ {[ "role" := role; "member" := member ]} in
  if negb (String.eqb conditionTitle "")
  then
    <["condition.0.expression" := conditionExpression]>
      (<["condition.0.description" := conditionDescription]>
         (<["condition.0.title" := conditionTitle]>
            (<["condition.#" := "1"]> memberAttributes)))
  else memberAttributes.

Definition memberResourceID
    (resourceID role member conditionTitle : string) : string :=
  if negb (String.eqb conditionTitle "")
  then resourceID +:+ " " +:+ role +:+ " " +:+ member +:+ " " +:+ conditionTitle
  else resourceID +:+ " " +:+ role +:+ " " +:+ member.

Definition memberResourceName
    (resourceName role member conditionTitle : string) : string :=
  let memberResourceName :=
    resourceName +:+ "-" +:+ TfSanitize role +:+ "-" +:+ TfSanitize member in
  if negb (String.eqb conditionTitle "")
  then memberResourceName +:+ "-" +:+ TfSanitize conditionTitle
  else memberResourceName.

Definition CreateIamMemberResources
    (resourceID resourceName resourceType : string)
    (attributes : gmap string string) (role : string) (members : list string)
    (conditionTitle conditionDescription conditionExpression : string)
    : list Resource :=
  map (fun member =>
         NewResource
           (memberResourceID resourceID role member conditionTitle)
           (memberResourceName resourceName role member conditionTitle)
           resourceType ProviderName
           (memberAttributes attributes role member conditionTitle
              conditionDescription conditionExpression)
           [] ∅)
      members.

End CreateIamMemberResources.

End GCPService.

(** *** Texts for the examples of Part III *)

Module MoreExamples.
Import GoStrings.

(** A closed block of [required_providers], as the printer writes it. *)
Definition providers_lines : list string :=
  [ "terraform {";
    "  required_providers " +:+ DQ +:+ "google" +:+ DQ +:+ " {";
    "    version = " +:+ DQ +:+ "4.0" +:+ DQ;
    "  }";
    "}" ].

(** The lines inside a map [a = {]: a block in block form, then a map. *)
Definition block_in_map : list string :=
  [ "    b {";
    "      c = 1";
    "    }";
    "    tags = {";
    "    }";
    "  }" ].

(** A sanitiser at the root of a resource for which the one-part hint of
    the App Engine dispatch rules is registered, and the items there. *)
Definition root_sanitizer : Canonicalizer.astSanitizer :=
  {| Canonicalizer.sort := true;
     Canonicalizer.hintsByResource :=
       {[ "google_app_engine_application_url_dispatch_rules" :=
            {[ "tfer--d" := ["dispatch_rules"] ]} ]};
     Canonicalizer.currentPath :=
       ["resource"; "google_app_engine_application_url_dispatch_rules";
        "tfer--d"] |}.

Definition dispatch_items : list ast.ObjectItem :=
  [ Examples.attribute "dispatch_rules" "b"; Examples.attribute "project" "p";
    Examples.attribute "dispatch_rules" "a" ].

Definition visited_dispatch_items : list ast.ObjectItem :=
  Eval vm_compute in
    match Canonicalizer.visit_items Examples.toy root_sanitizer dispatch_items with
    | Returned (_, items) => items
    | Panicked _ => []
    end.

(** A sanitiser that does not sort, and the elements of a list. *)
Definition unsorted_sanitizer : Canonicalizer.astSanitizer :=
  {| Canonicalizer.sort := false;
     Canonicalizer.hintsByResource := ∅;
     Canonicalizer.currentPath := [] |}.

Definition args_sanitizer : Canonicalizer.astSanitizer :=
  {| Canonicalizer.sort := true;
     Canonicalizer.hintsByResource :=
       {[ "google_cloudbuild_trigger" :=
            {[ "tfer--t" := ["build.step"; "build.step.args"] ]} ]};
     Canonicalizer.currentPath :=
       ["resource"; "google_cloudbuild_trigger"; "tfer--t"; "build"; "step";
        "args"] |}.

Definition args_elems : list ast.Node :=
  [ ast.LiteralType (Examples.string_token (DQ +:+ "push" +:+ DQ));
    ast.LiteralType (Examples.string_token (DQ +:+ "image" +:+ DQ)) ].

(** A bucket whose name is given again as an additional field, a filter on
    identifiers, and a resource with ordering hints. *)
Definition labelled_resource : Resource :=
  {| InstanceInfo := InstanceInfo Pruner.gcs_resource;
     InstanceState := InstanceState Pruner.gcs_resource;
     ResourceName := ResourceName Pruner.gcs_resource;
     Provider := Provider Pruner.gcs_resource;
     Item := None;
     PreserveOrder := [];
     IgnoreKeys := [];
     AllowEmptyValues := [];
     AdditionalFields := {[ "name" := VString "renamed" ]} |}.

Definition id_filter : ResourceFilter.t :=
  {| ResourceFilter.ServiceName := "storage_bucket";
     ResourceFilter.FieldPath := "id";
     ResourceFilter.AcceptableValues := Some ["a"; "b"] |}.

Definition ordered_resource (hints : list string) : Resource :=
  {| InstanceInfo := InstanceInfo Examples.tags_resource;
     InstanceState := InstanceState Examples.tags_resource;
     ResourceName := ResourceName Examples.tags_resource;
     Provider := Provider Examples.tags_resource;
     Item := Item Examples.tags_resource;
     PreserveOrder := hints;
     IgnoreKeys := [];
     AllowEmptyValues := [];
     AdditionalFields := ∅ |}.

End MoreExamples.

(** *** Vocabulary of the properties of Part III *)

Module Checks.
Import GoStrings token ast Canonicalizer.

(** The trees on which the sanitiser meets none of its three slicing and
    indexing hazards: no literal is a heredoc of one line, every item has a
    key, and no first key is a lone double quote. *)
Fixpoint sanitizable (n : Node) : bool :=
  match n with
  | File node => sanitizable node
  | ObjectList items => forallb sanitizable_item items
  | ObjectType _ _ items => forallb sanitizable_item items
  | ListType _ _ elems => forallb sanitizable elems
  | ObjectItemNode item => sanitizable_item item
  | LiteralType tok =>
      negb (HasPrefix (Text tok) (DQ +:+ "<<")) ||
      Contains (heredoc_text (Text tok)) LF
  | ObjectKeyNode _ => true
  | OtherNode => true
  end
with sanitizable_item (o : ObjectItem) : bool :=
  match o with
  | mkObjectItem keys _ val =>
      match keys with
      | [] => false
      | k :: _ => negb (String.eqb (Text (Token k)) DQ)
      end && sanitizable val
  end.

(** The hints registered for a type and a name in the assembly. *)
Definition lookup_hints (a : Assembler.assembly) (type name : string)
    : option (list string) :=
  Assembler.hintsByResource a !! type ≫= (.!! name).

(** An assembly registers hints for the resources it holds only. *)
Definition hints_within (a : Assembler.assembly) : Prop :=
  forall type name,
    Assembler.lookup_resource a type name = None ->
    lookup_hints a type name = None.

(** Whether the first key of an item stands in double quotes, as
    [visitObjectItem] tests it. *)
Definition quoted (text : string) : bool :=
  negb (String.eqb text "") && HasPrefix text DQ &&
  bool_decide (last_byte text = Some (ascii_of_N 34)).

(** The sanitiser returns on a node, or on an item, that has none of the
    hazards, and leaves the path and the keys of the item in place. *)
Definition visit_returns_at (E : Externals) (n : Node) : Prop :=
  sanitizable n = true ->
  forall v, exists n', visit E v n = Returned (v, n').

Definition visitObjectItem_returns_at (E : Externals) (o : ObjectItem) : Prop :=
  sanitizable_item o = true ->
  forall v, exists o',
    visitObjectItem E v o = Returned (v, o') /\ Keys o' <> [].

End Checks.

(** *** The generators of the GCP provider

    The hooks that run after the conversion of the state, and the helpers
    of the Secret Manager generator.  A generator holds its resources in
    [g.Resources]; the hooks are functions of that list. *)

Module Generators.
Import GoStrings Sanitize ResourceOps.

Definition set_PreserveOrder (r : Resource) (hints : list string) : Resource :=
  {| InstanceInfo := InstanceInfo r;
     InstanceState := InstanceState r;
     ResourceName := ResourceName r;
     Provider := Provider r;
     Item := Item r;
     PreserveOrder := hints;
     IgnoreKeys := IgnoreKeys r;
     AllowEmptyValues := AllowEmptyValues r;
     AdditionalFields := AdditionalFields r |}.

(** [CloudBuildGenerator.PostConvertHook] *)
Definition CloudBuild_PostConvertHook (resources : list Resource)
    : list Resource :=
  map (fun resource =>
         if String.eqb (terraform.ResourceType (InstanceInfo resource))
                       "google_cloudbuild_trigger"
         then set_PreserveOrder resource ["build.step"; "build.step.args"]
         else resource)
      resources.

(** [AppEngineGenerator.PostConvertHook] *)
Definition AppEngine_PostConvertHook (resources : list Resource)
    : list Resource :=
  map (fun resource =>
         if String.eqb (terraform.ResourceType (InstanceInfo resource))
                       "google_app_engine_application_url_dispatch_rules"
         then set_PreserveOrder resource ["dispatch_rules"]
         else resource)
      resources.

(** [CloudRunGenerator.PostConvertHook] *)
Definition CloudRun_PostConvertHook (resources : list Resource)
    : list Resource :=
  map (fun resource =>
         let type := terraform.ResourceType (InstanceInfo resource) in
         if String.eqb type "google_cloud_run_v2_service" ||
            String.eqb type "google_cloud_run_v2_worker_pool"
         then set_PreserveOrder resource ["template.containers.args"]
         else if String.eqb type "google_cloud_run_v2_job"
         then set_PreserveOrder resource ["template.template.containers.args"]
         else resource)
      resources.

(** [FirestoreGenerator.PostConvertHook] *)
Definition Firestore_PostConvertHook (resources : list Resource)
    : list Resource :=
  map (fun resource =>
         if String.eqb (terraform.ResourceType (InstanceInfo resource))
                       "google_firestore_field"
         then set_PreserveOrder resource ["fields"]
         else resource)
      resources.

(** The result of code whose only hazard is the type assertion
    [value.(string)]. *)
Inductive asserted (A : Type) :=
| Asserted (a : A)
| NotAString (value : Value).
Arguments Asserted {A} a.
Arguments NotAString {A} value.

(** The heredoc that [GcsGenerator.PostConvertHook] formats: the marker,
    the policy and the marker again, each on a line. *)
Definition policy_heredoc (policy : string) : string :=
  "<<POLICY" +:+ LF +:+ policy +:+ LF +:+ "POLICY".

(** The body of the loop of [GcsGenerator.PostConvertHook].  Reading a nil
    item finds no key. *)
Definition Gcs_hook_one (resource : Resource) : asserted Resource :=
  if negb (String.eqb (terraform.ResourceType (InstanceInfo resource))
                      "google_storage_bucket_iam_policy")
  then Asserted resource
  else
    match Item resource with
    | None => Asserted resource
    | Some item =>
        match item !! "policy_data" with
        | None => Asserted resource
        | Some (VString policy) =>
            Asserted
              (set_Item resource
                 (Some (<["policy_data" := VString (policy_heredoc policy)]>
                          item)))
        | Some value => NotAString value
        end
    end.

(** [GcsGenerator.PostConvertHook] *)
Fixpoint Gcs_PostConvertHook (resources : list Resource)
    : asserted (list Resource) :=
  match resources with
  | [] => Asserted []
  | resource :: rest =>
      match Gcs_hook_one resource with
      | NotAString value => NotAString value
      | Asserted resource =>
          match Gcs_PostConvertHook rest with
          | NotAString value => NotAString value
          | Asserted rest => Asserted (resource :: rest)
          end
      end
  end.

(** [SecretManagerGenerator.getSecretID] *)
Definition getSecretID (name : string) : outcome string :=
  let parts := Split name "/" in
  match parts !! (length parts - 1)%nat with
  | Some part => Returned part
  | None => Panicked IndexOutOfRange
  end.

(** A binding of the Secret Manager API: [Condition] is [None] for a nil
    pointer. *)
Record Expr := { Title : string; Description : string; Expression : string }.

Record Binding := {
  Role : string;
  Members : list string;
  Condition : option Expr
}.

Section SecretManager.

(** The field [ProviderName] of the generator, and its argument [project],
    which the code asserts to be a string. *)
Variable ProviderName : string.
Variable project : string.

Definition conditional (binding : Binding) : option Expr :=
  match Condition binding with
  | Some condition =>
      if negb (String.eqb (Title condition) "") then Some condition else None
  | None => None
  end.

Definition secretMemberAttributes (resourceID resourceName : string)
    (isRegional : bool) (binding : Binding) (member : string)
    : gmap string string :=
  let attributes : gmap string string :=
    {[ "project" := project; "secret_id" := resourceName;
       "role" := Role binding; "member" := member ]} in
  let attributes :=
    if isRegional then
      let parts := Split resourceID "/" in
      match parts !! 3%nat with
      | Some part => <["location" := part]> attributes
      | None => attributes
      end
    else attributes in
  match conditional binding with
  | Some condition =>
      <["condition.0.expression" := Expression condition]>
        (<["condition.0.description" := Description condition]>
           (<["condition.0.title" := Title condition]>
              (<["condition.#" := "1"]> attributes)))
  | None => attributes
  end.

Definition secretMemberResourceID (resourceID : string) (binding : Binding)
    (member : string) : string :=
  match conditional binding with
  | Some condition =>
      resourceID +:+ " " +:+ Role binding +:+ " " +:+ member +:+ " "
      +:+ Title condition
  | None => resourceID +:+ " " +:+ Role binding +:+ " " +:+ member
  end.

Definition secretMemberResource (resourceID resourceName : string)
    (isRegional : bool) (binding : Binding) (member : string) : Resource :=
  NewResource
    (secretMemberResourceID resourceID binding member)
    (resourceName +:+ "-" +:+ TfSanitize (Role binding) +:+ "-"
     +:+ TfSanitize member)
    (if isRegional then "google_secret_manager_regional_secret_iam_member"
     else "google_secret_manager_secret_iam_member")
    ProviderName
    (secretMemberAttributes resourceID resourceName isRegional binding member)
    [] ∅.

(** [SecretManagerGenerator.createSecretIamMemberResources] *)
Definition createSecretIamMemberResources (resourceID resourceName : string)
    (isRegional : bool) (bindings : list Binding) : list Resource :=
  flat_map (fun binding =>
              map (secretMemberResource resourceID resourceName isRegional
                     binding)
                  (Members binding))
           bindings.

End SecretManager.

(** The reference that [KmsGenerator.PostConvertHook] writes for a key
    ring. *)
Definition key_ring_reference (keyRing : Resource) : string :=
  "${google_kms_key_ring." +:+ ResourceName keyRing +:+ ".self_link}".

(** The body of the inner loop of [KmsGenerator.PostConvertHook], on the
    item of the key: [key.Item] and [g.Resources[i].Item] are the same
    map. *)
Definition link_key_ring (item : gmap string Value) (keyRing : Resource)
    : gmap string Value :=
  if negb (String.eqb (terraform.ResourceType (InstanceInfo keyRing))
                      "google_kms_key_ring")
  then item
  else
    match item !! "key_ring" with
    | Some (VString id) =>
        if String.eqb id (terraform.ID (InstanceState keyRing))
        then <["key_ring" := VString (key_ring_reference keyRing)]> item
        else item
    | _ => item
    end.

(** [KmsGenerator.PostConvertHook].  A nil item is read, never written. *)
Definition Kms_PostConvertHook (resources : list Resource) : list Resource :=
  map (fun key =>
         if negb (String.eqb (terraform.ResourceType (InstanceInfo key))
                             "google_kms_crypto_key")
         then key
         else
           match Item key with
           | Some item =>
               set_Item key (Some (fold_left link_key_ring resources item))
           | None => key
           end)
      resources.

End Generators.

(** *** Resources and bindings for the examples of the generators *)

Module GeneratorExamples.
Import GoStrings ResourceOps Generators.

Definition trigger : Resource :=
  NewResource "projects/p/triggers/t" "t" "google_cloudbuild_trigger" "google"
    ∅ [] ∅.

Definition dispatch : Resource :=
  NewResource "apps/p" "p" "google_app_engine_application_url_dispatch_rules"
    "google" {[ "project" := "p" ]} [] ∅.

(** The literal of a bucket policy as it reaches the sanitiser: in double
    quotes, the line feeds written with a backslash. *)
Definition policy_literal : string :=
  DQ +:+ "<<POLICY" +:+ BS +:+ "n{}" +:+ BS +:+ "nPOLICY" +:+ DQ.

Definition plain_binding : Binding :=
  {| Role := "roles/secretmanager.secretAccessor";
     Members := ["user:a@example.com"];
     Condition := None |}.

Definition conditional_binding : Binding :=
  {| Role := "roles/secretmanager.secretAccessor";
     Members := ["user:a@example.com"];
     Condition :=
       Some {| Title := "office hours"; Description := "";
               Expression := "request.time.getHours() < 18" |} |}.

Definition key_ring : Resource :=
  NewResource "projects/p/locations/global/keyRings/r" "p_global_r"
    "google_kms_key_ring" "google" ∅ [] ∅.

Definition crypto_key : Resource :=
  set_Item
    (NewResource "projects/p/locations/global/keyRings/r/cryptoKeys/k"
       "p_global_r_k" "google_kms_crypto_key" "google" ∅ [] ∅)
    (Some {[ "key_ring" := VString "projects/p/locations/global/keyRings/r";
             "name" := VString "k" ]}).

End GeneratorExamples.

(** *** Vocabulary of the properties of the hooks *)

Module HookChecks.
Import Assembler.

(** A hook after which [HclPrintResource] assembles the same content: the
    same number of resources, the same resources by type and name, the
    same map paths and the same log, and the same result for the [json]
    format. *)
Definition content_kept (hook : list Resource -> list Resource) : Prop :=
  forall (E : Externals) order resources providerData sort,
    let a := assemble order resources in
    let a' := assemble order (hook resources) in
    length (hook resources) = length resources /\
    resourcesByType a' = resourcesByType a /\
    mapsObjects a' = mapsObjects a /\
    logged a' = logged a /\
    HclPrintResource E order (hook resources) providerData "json" sort
    = HclPrintResource E order resources providerData "json" sort.

End HookChecks.

(* ===================================================================== *)
(** * Part II: theorems                                                   *)
(* ===================================================================== *)

Module SanitizeFacts.
Import GoStrings Sanitize.

Example TfSanitize_plain : TfSanitize "my_bucket-1" = "tfer--my_bucket-1".
Proof. reflexivity. Qed.

Example TfSanitize_dot : TfSanitize "a.b/c" = "tfer--a-002E-b-002F-c".
Proof. reflexivity. Qed.

End SanitizeFacts.

Module SanitizeProofs.
Import GoStrings Sanitize.

Lemma is_safe_safeChars c : is_safe c = ContainsByte safeChars c.
Proof. destruct c as [[] [] [] [] [] [] [] []]; reflexivity. Qed.

Lemma unsafe_ascii_high c : (N_of_ascii c <? 128)%N = false -> is_safe c = false.
Proof. destruct c as [[] [] [] [] [] [] [] []]; simpl; intros H; try discriminate H; reflexivity. Qed.

Lemma all_bytes_app p s1 s2 :
  all_bytes p (s1 +:+ s2) = all_bytes p s1 && all_bytes p s2.
Proof.
  induction s1 as [|c s1 IH]; simpl; [reflexivity|].
  rewrite IH. apply andb_assoc.
Qed.

Lemma hex_digit_safe c :
  is_safe (hex_digit (N_of_ascii c / 16)) = true /\
  is_safe (hex_digit (N_of_ascii c mod 16)) = true.
Proof. destruct c as [[] [] [] [] [] [] [] []]; split; reflexivity. Qed.

Lemma hex_upper_safe s : all_bytes is_safe (hex_upper s) = true.
Proof.
  induction s as [|c s IH]; simpl; [reflexivity|].
  destruct (hex_digit_safe c) as [-> ->]. exact IH.
Qed.

Lemma zeros_safe n : all_bytes is_safe (zeros n) = true.
Proof. induction n as [|n IH]; simpl; [reflexivity|exact IH]. Qed.

Lemma escapeRune_safe s : all_bytes is_safe (escapeRune s) = true.
Proof.
  unfold escapeRune. cbv zeta.
  rewrite !all_bytes_app, zeros_safe, hex_upper_safe. reflexivity.
Qed.

Lemma replace_unsafe_safe_bounded n :
  forall s, (len s <= n)%nat -> all_bytes is_safe (replace_unsafe s) = true.
Proof.
  induction n as [|n IH]; intros s Hlen.
  - destruct s; [reflexivity | simpl in Hlen; lia].
  - destruct s as [|b0 t0]; [reflexivity|].
    simpl in Hlen.
    assert (H0 : all_bytes is_safe (replace_unsafe t0) = true) by (apply IH; lia).
    assert (Hinv : all_bytes is_safe
                     (escapeRune (String b0 "") +:+ replace_unsafe t0) = true)
      by (rewrite all_bytes_app, escapeRune_safe, H0; reflexivity).
    cbn [replace_unsafe].
    destruct (N_of_ascii b0 <? 128)%N.
    { rewrite all_bytes_app, H0, andb_true_r.
      destruct (unsafe_ascii b0) eqn:Hu; [apply escapeRune_safe|].
      simpl. unfold is_safe. rewrite Hu. reflexivity. }
    destruct t0 as [|b1 t1]; [exact Hinv|].
    destruct (valid2 b0 b1).
    { rewrite all_bytes_app, escapeRune_safe. apply IH. simpl in Hlen. lia. }
    destruct t1 as [|b2 t2]; [exact Hinv|].
    destruct (valid3 b0 b1 b2).
    { rewrite all_bytes_app, escapeRune_safe. apply IH. simpl in Hlen. lia. }
    destruct t2 as [|b3 t3]; [exact Hinv|].
    destruct (valid4 b0 b1 b2 b3); [|exact Hinv].
    rewrite all_bytes_app, escapeRune_safe. apply IH. simpl in Hlen. lia.
Qed.

Lemma replace_unsafe_safe s : all_bytes is_safe (replace_unsafe s) = true.
Proof. apply (replace_unsafe_safe_bounded (len s)). lia. Qed.

(** An unsafe rune below [utf8.RuneSelf] becomes a dash, [00], its two
    hexadecimal digits and a dash; a safe byte is copied. *)
Lemma replace_unsafe_ascii c s :
  (N_of_ascii c <? 128)%N = true ->
  replace_unsafe (String c s) =
  (if unsafe_ascii c
   then "-00" +:+ hex_upper (String c "") +:+ "-"
   else String c "") +:+ replace_unsafe s.
Proof. intros H. cbn [replace_unsafe]. rewrite H. reflexivity. Qed.

Lemma replace_unsafe_ascii_name name :
  all_bytes is_ascii name = true ->
  replace_unsafe name = escape_ascii_bytes name.
Proof.
  induction name as [|c name IH]; [reflexivity|].
  cbn [all_bytes]. intros [Hc Hn]%andb_true_iff.
  rewrite (replace_unsafe_ascii c name Hc), (IH Hn). reflexivity.
Qed.


Example TfSanitize_euro :
  TfSanitize (String (ascii_of_N 226) (String (ascii_of_N 130) (String (ascii_of_N 172) "")))
  = "tfer---E282AC-".
Proof. reflexivity. Qed.

End SanitizeProofs.

Module PrunerProofs.
Import configschema Pruner.

Lemma lookup_clean data blockSchema key :
  cleanOptionalEmptyAttributes data blockSchema !! key
  = data !! key ≫= clean_entry clean_item blockSchema key.
Proof. unfold cleanOptionalEmptyAttributes. apply map_lookup_imap. Qed.

Lemma clean_item_map itemMap blockSchema :
  clean_item (VMap itemMap) blockSchema
  = VMap (cleanOptionalEmptyAttributes itemMap blockSchema).
Proof. reflexivity. Qed.

(** An entry is deleted exactly when the schema has an optional attribute of
    its name and its value is zero. *)
Lemma clean_entry_None rec blockSchema key value :
  clean_entry rec blockSchema key value = None <->
  exists attrSchema, Attributes blockSchema !! key = Some attrSchema /\
    Optional attrSchema = true /\ is_zero value = true.
Proof.
  unfold clean_entry.
  destruct (Attributes blockSchema !! key) as [a|].
  - destruct (Optional a && is_zero value) eqn:E.
    + apply andb_true_iff in E. split; [eauto|reflexivity].
    + split; [discriminate|]. intros (a' & [= <-] & Ho & Hz).
      rewrite Ho, Hz in E. discriminate.
  - split; [discriminate|]. intros (a' & [=] & _).
Qed.

Lemma clean_entry_keeps rec blockSchema key value :
  BlockTypes blockSchema !! key = None ->
  clean_entry rec blockSchema key value = None \/
  clean_entry rec blockSchema key value = Some value.
Proof.
  intros Hb. unfold clean_entry. rewrite Hb.
  destruct (match Attributes blockSchema !! key with
            | Some a => Optional a && is_zero value | None => false end);
    [left|right]; reflexivity.
Qed.

Lemma clean_entry_slice rec blockSchema key list blockTypeSchema :
  BlockTypes blockSchema !! key = Some blockTypeSchema ->
  clean_entry rec blockSchema key (VSlice list)
  = Some (VSlice (map (fun item => rec item blockTypeSchema) list)).
Proof.
  intros Hb. unfold clean_entry. rewrite Hb. cbn [is_zero].
  destruct (Attributes blockSchema !! key) as [a|]; [|reflexivity].
  rewrite andb_false_r. reflexivity.
Qed.

(** Pruning keeps every nesting level in place and prunes it with the
    schema of its block. *)
Lemma descend_clean path : forall data blockSchema m b,
  descend path data blockSchema = Some (m, b) ->
  descend path (cleanOptionalEmptyAttributes data blockSchema) blockSchema
  = Some (cleanOptionalEmptyAttributes m b, b).
Proof.
  induction path as [|[key i] rest IH]; intros data bs m b H; cbn [descend] in *.
  - injection H as <- <-. reflexivity.
  - destruct (BlockTypes bs !! key) as [nested|] eqn:Hb; [|discriminate].
    destruct (data !! key) as [[| | | | |l| |]|] eqn:Hd; try discriminate.
    destruct (l !! i) as [[| | | | | | |itemMap]|] eqn:Hl; try discriminate.
    rewrite lookup_clean, Hd. cbn [mbind option_bind].
    rewrite (clean_entry_slice _ _ _ _ _ Hb).
    change (map ?f l) with (f <$> l).
    rewrite list_lookup_fmap, Hl. cbn [fmap option_fmap option_map].
    rewrite clean_item_map. apply IH. exact H.
Qed.

Lemma descend_clean_inv path : forall data blockSchema m' b,
  descend path (cleanOptionalEmptyAttributes data blockSchema) blockSchema
  = Some (m', b) ->
  exists m, descend path data blockSchema = Some (m, b) /\
            m' = cleanOptionalEmptyAttributes m b.
Proof.
  induction path as [|[key i] rest IH]; intros data bs m' b H; cbn [descend] in *.
  - injection H as <- <-. eauto.
  - destruct (BlockTypes bs !! key) as [nested|] eqn:Hb; [|discriminate].
    rewrite lookup_clean in H.
    destruct (data !! key) as [value|] eqn:Hd; [|discriminate].
    cbn [mbind option_bind] in H.
    destruct value as [| | | | |l| |];
      try (unfold clean_entry in H; rewrite Hb in H;
           destruct (match Attributes bs !! key with
                     | Some a => Optional a && is_zero _ | None => false end);
           discriminate).
    rewrite (clean_entry_slice _ _ _ _ _ Hb) in H.
    change (map ?f l) with (f <$> l) in H.
    rewrite list_lookup_fmap in H.
    destruct (l !! i) as [item|]; [|discriminate].
    cbn [fmap option_fmap option_map] in H.
    destruct item; try discriminate.
    rewrite clean_item_map in H. apply IH. exact H.
Qed.

Lemma clean_entry_Some_nonzero rec blockSchema key value value' attrSchema :
  Attributes blockSchema !! key = Some attrSchema ->
  Optional attrSchema = true ->
  clean_entry rec blockSchema key value = Some value' ->
  is_zero value' = false.
Proof.
  unfold clean_entry. intros -> ->. cbn [andb].
  destruct (is_zero value) eqn:Hz; [discriminate|].
  intros [= <-].
  destruct (BlockTypes blockSchema !! key); [|exact Hz].
  destruct value; try exact Hz; reflexivity.
Qed.

(** After pruning, no level that the pruner reaches holds an optional
    attribute with a zero value. *)
Lemma pruned_has_no_optional_zero path data blockSchema m' b key attrSchema value :
  descend path (cleanOptionalEmptyAttributes data blockSchema) blockSchema
  = Some (m', b) ->
  Attributes b !! key = Some attrSchema ->
  Optional attrSchema = true ->
  m' !! key = Some value ->
  is_zero value = false.
Proof.
  intros Hd Ha Ho Hk.
  destruct (descend_clean_inv _ _ _ _ _ Hd) as (m & _ & ->).
  rewrite lookup_clean in Hk.
  destruct (m !! key) as [v0|]; [|discriminate].
  exact (clean_entry_Some_nonzero _ _ _ _ _ _ Ha Ho Hk).
Qed.

Example prune_description_empty :
  cleanOptionalEmptyAttributes {[ "description" := VString "" ]}
    (mkBlock {[ "description" := optional_attribute ]} ∅) = ∅.
Proof. vm_compute. reflexivity. Qed.

Example prune_description_x :
  cleanOptionalEmptyAttributes {[ "description" := VString "x" ]}
    (mkBlock {[ "description" := optional_attribute ]} ∅)
  = {[ "description" := VString "x" ]}.
Proof. vm_compute. reflexivity. Qed.

(** C3 as stated fails on an empty sequence that is not nil: it is empty in
    the words of the claim, the attribute is optional, and the pruner keeps
    it.  The same holds for an empty mapping that is not nil. *)
Lemma prune_keeps_empty_non_nil_slice :
  let blockSchema :=
    mkBlock {[ "xs" := optional_attribute; "ys" := optional_attribute ]} ∅ in
  let data : gmap string Value := {[ "xs" := VSlice []; "ys" := VMap ∅ ]} in
  spec_zero (VSlice []) = true /\ spec_zero (VMap ∅) = true /\
  cleanOptionalEmptyAttributes data blockSchema !! "xs" = Some (VSlice []) /\
  cleanOptionalEmptyAttributes data blockSchema !! "ys" = Some (VMap ∅).
Proof. vm_compute. repeat split; reflexivity. Qed.

(** C3 (amended): at every nesting level that the pruner reaches through
    block-type children, the level is pruned in place with the schema of its
    block: a key is deleted exactly when the schema declares it as an
    optional attribute and its value is zero in the sense of Go, that is the
    nil interface, the empty string, false, 0, a nil slice or a nil map;
    every other key stays, with its value unchanged unless it names a block
    type, and no key is added. *)
Theorem prune_deletes_exactly_optional_zero
    path data blockSchema m b :
  descend path data blockSchema = Some (m, b) ->
  descend path (cleanOptionalEmptyAttributes data blockSchema) blockSchema
  = Some (cleanOptionalEmptyAttributes m b, b) /\
  (forall key, m !! key = None ->
     cleanOptionalEmptyAttributes m b !! key = None) /\
  (forall key value, m !! key = Some value ->
     (cleanOptionalEmptyAttributes m b !! key = None <->
      exists attrSchema, Attributes b !! key = Some attrSchema /\
        Optional attrSchema = true /\ is_zero value = true) /\
     (BlockTypes b !! key = None ->
      cleanOptionalEmptyAttributes m b !! key = None \/
      cleanOptionalEmptyAttributes m b !! key = Some value)).
Proof.
  intros Hd. split; [exact (descend_clean _ _ _ _ _ Hd)|]. split.
  - intros key Hk. rewrite lookup_clean, Hk. reflexivity.
  - intros key value Hk. rewrite lookup_clean, Hk. cbn [mbind option_bind].
    split; [apply clean_entry_None | apply clean_entry_keeps].
Qed.

(** A block type whose value is a map and not a slice is not entered: the
    attributes inside it stay. *)
Example prune_skips_map_valued_block :
  cleanOptionalEmptyAttributes
    {[ "rule" := VMap {[ "description" := VString "" ]} ]} bucket_schema
  = {[ "rule" := VMap {[ "description" := VString "" ]} ]}.
Proof. vm_compute. reflexivity. Qed.

(** Without an item there is nothing to prune. *)
Lemma CleanUpOptionalEmptyAttributes_nil r resourceSchema :
  Item r = None -> CleanUpOptionalEmptyAttributes r resourceSchema = r.
Proof. intros H. unfold CleanUpOptionalEmptyAttributes. rewrite H. reflexivity. Qed.

Lemma prune_deletes_exactly_optional_zero_witness :
  descend [("rule", 0%nat)] bucket_item bucket_schema
  = Some (bucket_rule, mkBlock {[ "description" := optional_attribute;
                                  "project" := computed_attribute ]} ∅) /\
  descend [("rule", 0%nat)]
    (cleanOptionalEmptyAttributes bucket_item bucket_schema) bucket_schema
  = Some (cleanOptionalEmptyAttributes bucket_rule
            (mkBlock {[ "description" := optional_attribute;
                        "project" := computed_attribute ]} ∅),
          mkBlock {[ "description" := optional_attribute;
                     "project" := computed_attribute ]} ∅).
Proof.
  split; [reflexivity|].
  apply (prune_deletes_exactly_optional_zero [("rule", 0%nat)]
           bucket_item bucket_schema bucket_rule).
  reflexivity.
Defined.

Lemma descend_delete_ne key i rest name data blockSchema :
  key <> name ->
  descend ((key, i) :: rest) (delete name data) blockSchema
  = descend ((key, i) :: rest) data blockSchema.
Proof.
  intros Hne. cbn [descend]. rewrite lookup_delete_ne by congruence. reflexivity.
Qed.

(** C5: when the schema of the resource declares a computed [project]
    attribute, the item after pruning has no [project] key, whatever its
    value was: the item is the pruning of the item without that key.  Inside
    a nested block a [project] key is deleted only under the general rule
    (optional in the schema of the block, and zero), also when that schema
    declares it computed. *)
Theorem project_deleted_at_root_only r schema item projectSchema :
  Item r = Some item ->
  Attributes schema !! "project" = Some projectSchema ->
  Computed projectSchema = true ->
  exists item',
    Item (CleanUpOptionalEmptyAttributes r (Some schema)) = Some item' /\
    item' = cleanOptionalEmptyAttributes (delete "project" item) schema /\
    item' !! "project" = None /\
    forall key i rest m b value,
      key <> "project" ->
      descend ((key, i) :: rest) item schema = Some (m, b) ->
      m !! "project" = Some value ->
      descend ((key, i) :: rest) item' schema
      = Some (cleanOptionalEmptyAttributes m b, b) /\
      (cleanOptionalEmptyAttributes m b !! "project" = None <->
       exists attrSchema, Attributes b !! "project" = Some attrSchema /\
         Optional attrSchema = true /\ is_zero value = true).
Proof.
  intros Hi Hp Hc. eexists. split; [|split; [reflexivity|split]].
  - unfold CleanUpOptionalEmptyAttributes. rewrite Hi, Hp, Hc. reflexivity.
  - rewrite lookup_clean, lookup_delete_eq. reflexivity.
  - intros key i rest m b value Hne Hd Hv.
    rewrite <- (descend_delete_ne key i rest "project" item schema Hne) in Hd.
    split; [exact (descend_clean _ _ _ _ _ Hd)|].
    rewrite lookup_clean, Hv. apply clean_entry_None.
Qed.

Lemma project_deleted_at_root_only_witness :
  Item bucket_resource = Some bucket_item /\
  exists item',
    Item (CleanUpOptionalEmptyAttributes bucket_resource (Some bucket_schema))
    = Some item' /\
    item' !! "project" = None /\
    exists m b,
      descend [("rule", 0%nat)] item' bucket_schema = Some (m, b) /\
      m !! "project" = Some (VString "p").
Proof.
  split; [reflexivity|].
  destruct (project_deleted_at_root_only bucket_resource bucket_schema
              bucket_item computed_attribute eq_refl eq_refl eq_refl)
    as (item' & H1 & H2 & H3 & H4).
  exists item'. split; [exact H1|]. split; [exact H3|].
  destruct (H4 "rule" 0%nat [] bucket_rule
              (mkBlock {[ "description" := optional_attribute;
                          "project" := computed_attribute ]} ∅)
              (VString "p") ltac:(discriminate) eq_refl eq_refl) as [Hd _].
  eexists _, _. split; [exact Hd|]. vm_compute. reflexivity.
Defined.

(** Whatever [AllowEmptyValues] holds, a resource item that
    [ConvertTFstate] has set holds no optional attribute with a zero value
    at any level that the pruner reaches. *)
Lemma ConvertTFstate_no_optional_zero
    regexp_compiles NewFlatmapParser ResourceTypes r r' schema item'
    path m' b key attrSchema value :
  ConvertTFstate regexp_compiles NewFlatmapParser ResourceTypes r
  = Returned (r', None) ->
  ResourceTypes !! terraform.ResourceType (InstanceInfo r) = Some schema ->
  Item r' = Some item' ->
  descend path item' schema = Some (m', b) ->
  Attributes b !! key = Some attrSchema ->
  Optional attrSchema = true ->
  m' !! key = Some value ->
  is_zero value = false.
Proof.
  unfold ConvertTFstate. intros H Hs Hi Hd Ha Ho Hk.
  destruct (negb _); [discriminate|]. cbv zeta in H. rewrite Hs in H.
  change (default (mkBlock ∅ ∅) (Some schema)) with schema in H.
  destruct (ParseTFstate r _ schema) as [[r1 [e|]]|] eqn:Hp;
    cbn in H; try discriminate.
  injection H as <-.
  assert (exists item1, Item r1 = Some item1) as [item1 Hi1].
  { unfold ParseTFstate in Hp.
    destruct (NewFlatmapParser _ _ _ schema) as [[[a|] [e|]]|];
      cbn in Hp; try discriminate.
    - injection Hp as <-. cbn. eauto.
    - destruct (decide _); [|discriminate]. injection Hp as <-. cbn. eauto. }
  unfold CleanUpOptionalEmptyAttributes in Hi. rewrite Hi1 in Hi.
  cbn in Hi. injection Hi as <-.
  exact (pruned_has_no_optional_zero _ _ _ _ _ _ _ _ Hd Ha Ho Hk).
Qed.

(** C8 fails on the bucket of [gcs_resource], whose [created_before]
    matches a pattern of [AllowEmptyValues]: whatever the flatmap parser
    returns, the condition of the lifecycle rule does not hold an empty
    [created_before] once [ConvertTFstate] has returned. *)
Theorem allow_empty_values_are_pruned :
  forall regexp_compiles NewFlatmapParser,
    match ConvertTFstate regexp_compiles NewFlatmapParser
            {[ "google_storage_bucket" := gcs_schema ]} gcs_resource with
    | Returned (r', None) =>
        forall item' m' b,
          Item r' = Some item' ->
          descend [("lifecycle_rule", 0%nat); ("condition", 0%nat)]
                  item' gcs_schema = Some (m', b) ->
          m' !! "created_before" <> Some (VString "")
    | _ => True
    end.
Proof.
  intros rc np.
  destruct (ConvertTFstate rc np _ gcs_resource) as [[r' [e|]]|] eqn:H;
    try exact I.
  intros item' m' b Hi Hd Hk.
  assert (Hb : b = mkBlock {[ "age" := optional_attribute;
                              "created_before" := optional_attribute ]} ∅).
  { cbn [descend] in Hd.
    change (BlockTypes gcs_schema !! "lifecycle_rule") with
      (Some (mkBlock ∅ {[ "condition" :=
               mkBlock {[ "age" := optional_attribute;
                          "created_before" := optional_attribute ]} ∅ ]})) in Hd.
    destruct (item' !! "lifecycle_rule") as [[| | | | |l| |]|]; try discriminate.
    destruct (l !! 0%nat) as [[| | | | | | |m1]|]; try discriminate.
    change (BlockTypes (mkBlock ∅ _) !! "condition") with
      (Some (mkBlock {[ "age" := optional_attribute;
                        "created_before" := optional_attribute ]} ∅)) in Hd.
    destruct (m1 !! "condition") as [[| | | | |l1| |]|]; try discriminate.
    destruct (l1 !! 0%nat) as [[| | | | | | |m2]|]; try discriminate.
    congruence. }
  subst b.
  enough (is_zero (VString "") = false) by discriminate.
  eapply (ConvertTFstate_no_optional_zero rc np _ gcs_resource r' gcs_schema
            item' _ m' _ "created_before" optional_attribute);
    [exact H|reflexivity|exact Hi|exact Hd|reflexivity|reflexivity|exact Hk].
Qed.

(** With a parser that keeps the exempt attribute, the pruner is what
    deletes it. *)
Example gcs_created_before_dropped :
  ConvertTFstate (fun _ => true) gcs_parser
    {[ "google_storage_bucket" := gcs_schema ]} gcs_resource
  = Returned
      (set_Item gcs_resource
         (Some {[ "name" := VString "b";
                  "lifecycle_rule" :=
                    VSlice [VMap {[ "condition" :=
                      VSlice [VMap {[ "age" := VString "3" ]}] ]}] ]}),
       None).
Proof. vm_compute. reflexivity. Qed.

End PrunerProofs.

Module CanonicalizerProofs.
Import GoStrings Sanitize token ast Canonicalizer.

(** *** Induction over the syntax tree *)

Section NodeInduction.

Variable P : Node -> Prop.
Variable Q : ObjectItem -> Prop.
Hypothesis HFile : forall node, P node -> P (File node).
Hypothesis HObjectList : forall items, Forall Q items -> P (ObjectList items).
Hypothesis HObjectKey : forall key, P (ObjectKeyNode key).
Hypothesis HObjectItemNode : forall item, Q item -> P (ObjectItemNode item).
Hypothesis HObjectType :
  forall lbrace rbrace items, Forall Q items -> P (ObjectType lbrace rbrace items).
Hypothesis HLiteralType : forall tok, P (LiteralType tok).
Hypothesis HListType :
  forall lbrack rbrack elems, Forall P elems -> P (ListType lbrack rbrack elems).
Hypothesis HOther : P OtherNode.
Hypothesis HItem :
  forall keys assign val, P val -> Q (mkObjectItem keys assign val).

Fixpoint Node_induction (n : Node) : P n :=
  match n with
  | File node => HFile node (Node_induction node)
  | ObjectList items =>
      HObjectList items
        ((fix each (l : list ObjectItem) : Forall Q l :=
            match l with
            | [] => List.Forall_nil Q
            | x :: r => @List.Forall_cons _ _ x r (ObjectItem_induction x) (each r)
            end) items)
  | ObjectKeyNode key => HObjectKey key
  | ObjectItemNode item => HObjectItemNode item (ObjectItem_induction item)
  | ObjectType lbrace rbrace items =>
      HObjectType lbrace rbrace items
        ((fix each (l : list ObjectItem) : Forall Q l :=
            match l with
            | [] => List.Forall_nil Q
            | x :: r => @List.Forall_cons _ _ x r (ObjectItem_induction x) (each r)
            end) items)
  | LiteralType tok => HLiteralType tok
  | ListType lbrack rbrack elems =>
      HListType lbrack rbrack elems
        ((fix each (l : list Node) : Forall P l :=
            match l with
            | [] => List.Forall_nil P
            | x :: r => @List.Forall_cons _ _ x r (Node_induction x) (each r)
            end) elems)
  | OtherNode => HOther
  end
with ObjectItem_induction (o : ObjectItem) : Q o :=
  match o with
  | mkObjectItem keys assign val => HItem keys assign val (Node_induction val)
  end.

End NodeInduction.

Section WithExternals.

Variable E : Externals.

(** *** The equations of [visit] *)

Lemma visit_ObjectList v items :
  visit E v (ObjectList items) =
  '(v, items) ← visit_items E v items;
  items ← order_items E v items;
  Returned (v, ObjectList items).
Proof. reflexivity. Qed.

Lemma visit_ObjectType v lbrace rbrace items :
  visit E v (ObjectType lbrace rbrace items) =
  '(v, items) ← visit_items E v items;
  items ← order_items E v items;
  Returned (v, ObjectType lbrace rbrace items).
Proof. reflexivity. Qed.

Lemma visit_ListType v lbrack rbrack elems :
  visit E v (ListType lbrack rbrack elems) =
  '(v, elems) ← visit_list E v 0 elems;
  if sort v && negb (isPathOrdered v (buildLogicalPath v))
  then Returned (v, ListType lbrack rbrack (sortHclTree_nodes E elems))
  else Returned (v, ListType lbrack rbrack elems).
Proof. reflexivity. Qed.

Lemma visitObjectItem_eq v keys assign val :
  visitObjectItem E v (mkObjectItem keys assign val) =
  keys ← normalize_keys keys;
  let path := map (fun k => unquote_or_raw E (Text (Token k))) keys in
  '(v, val) ← visit E (set_currentPath v (currentPath v ++ path)%list) val;
  v ← pop v (length path);
  Returned (v, mkObjectItem keys (set_Line assign 1) val).
Proof. reflexivity. Qed.

(** *** The sanitiser leaves its path as it found it *)

Lemma set_currentPath_id v : set_currentPath v (currentPath v) = v.
Proof. destruct v; reflexivity. Qed.

Lemma pop_push v path :
  pop (set_currentPath v (currentPath v ++ path)%list) (length path)
  = Returned v.
Proof.
  unfold pop. cbn [currentPath set_currentPath sort hintsByResource].
  rewrite length_app.
  destruct (Nat.ltb_spec (length (currentPath v) + length path) (length path));
    [lia|].
  replace (length (currentPath v) + length path - length path)%nat
    with (length (currentPath v)) by lia.
  rewrite take_app_length. unfold set_currentPath at 1. cbn.
  destruct v; reflexivity.
Qed.

Lemma visit_items_keeps items :
  Forall (visitObjectItem_keeps E) items ->
  forall v v' items', visit_items E v items = Returned (v', items') -> v' = v.
Proof.
  induction 1 as [|item rest Hitem _ IH]; intros v v' items' H; cbn in H.
  - congruence.
  - destruct (visitObjectItem E v item) as [[v1 item1]|] eqn:H1;
      cbn in H; [|discriminate].
    apply Hitem in H1. subst v1.
    destruct (visit_items E v rest) as [[v2 rest2]|] eqn:H2;
      cbn in H; [|discriminate].
    apply IH in H2. congruence.
Qed.

Lemma visit_list_keeps elems :
  Forall (visit_keeps E) elems ->
  forall v i v' elems', visit_list E v i elems = Returned (v', elems') -> v' = v.
Proof.
  induction 1 as [|item rest Hitem _ IH]; intros v i v' elems' H; cbn in H.
  - congruence.
  - destruct (visit E _ item) as [[v1 item1]|] eqn:H1; cbn in H; [|discriminate].
    apply Hitem in H1. subst v1.
    change 1%nat with (length [Itoa i]) in H. rewrite pop_push in H. cbn in H.
    destruct (visit_list E v (S i) rest) as [[v2 rest2]|] eqn:H2;
      cbn in H; [|discriminate].
    apply IH in H2. congruence.
Qed.

Lemma visit_keeps_all : forall n, visit_keeps E n.
Proof.
  apply (Node_induction (visit_keeps E) (visitObjectItem_keeps E));
    unfold visit_keeps, visitObjectItem_keeps.
  - intros node IH v v' n' H. cbn in H.
    destruct (visit E v node) as [[v1 n1]|] eqn:H1; cbn in H; [|discriminate].
    apply IH in H1. congruence.
  - intros items IH v v' n' H. rewrite visit_ObjectList in H.
    destruct (visit_items E v items) as [[v1 items1]|] eqn:H1;
      cbn in H; [|discriminate].
    apply (visit_items_keeps _ IH) in H1. subst v1.
    destruct (order_items E v items1); cbn in H; congruence.
  - intros key v v' n' H. cbn in H. congruence.
  - intros item IH v v' n' H. cbn in H.
    destruct (visitObjectItem E v item) as [[v1 o1]|] eqn:H1;
      cbn in H; [|discriminate].
    apply IH in H1. congruence.
  - intros lbrace rbrace items IH v v' n' H. rewrite visit_ObjectType in H.
    destruct (visit_items E v items) as [[v1 items1]|] eqn:H1;
      cbn in H; [|discriminate].
    apply (visit_items_keeps _ IH) in H1. subst v1.
    destruct (order_items E v items1); cbn in H; congruence.
  - intros tok v v' n' H. cbn in H.
    destruct (handleHeredoc E tok); cbn in H; congruence.
  - intros lbrack rbrack elems IH v v' n' H. rewrite visit_ListType in H.
    destruct (visit_list E v 0 elems) as [[v1 elems1]|] eqn:H1;
      cbn in H; [|discriminate].
    apply (visit_list_keeps _ IH) in H1. subst v1. cbn in H.
    match type of H with (if ?c then _ else _) = _ => destruct c end;
      congruence.
  - intros v v' n' H. cbn in H. congruence.
  - intros keys assign val IH v v' o' H. rewrite visitObjectItem_eq in H.
    destruct (normalize_keys keys) as [keys1|]; cbn in H; [|discriminate].
    destruct (visit E _ val) as [[v1 val1]|] eqn:H1; cbn in H; [|discriminate].
    apply IH in H1. subst v1.
    rewrite length_map in H.
    rewrite <- (length_map (fun k => unquote_or_raw E (Text (Token k))) keys1) in H.
    rewrite pop_push in H. cbn in H. congruence.
Qed.

Lemma visitObjectItem_keeps_all : forall o, visitObjectItem_keeps E o.
Proof.
  intros [keys assign val] v v' o' H. rewrite visitObjectItem_eq in H.
  destruct (normalize_keys keys) as [keys1|]; cbn in H; [|discriminate].
  destruct (visit E _ val) as [[v1 val1]|] eqn:H1; cbn in H; [|discriminate].
  apply visit_keeps_all in H1. subst v1.
  rewrite length_map in H.
  rewrite <- (length_map (fun k => unquote_or_raw E (Text (Token k))) keys1) in H.
  rewrite pop_push in H. cbn in H. congruence.
Qed.

(** *** The ordering decision under a hint *)

Lemma partition_items_filter unorderedKey items :
  Forall (fun item => Keys item <> []) items ->
  partition_items E unorderedKey items
  = Returned (filter (fun item => first_key E item = unorderedKey) items,
              filter (fun item => first_key E item <> unorderedKey) items).
Proof.
  induction 1 as [|item rest Hk _ IH]; [reflexivity|].
  cbn [partition_items]. unfold item_key, first_key in *.
  destruct (Keys item) as [|k ks] eqn:Hkeys; [congruence|].
  cbn [mbind outcome_bind]. rewrite IH. cbn [mbind outcome_bind].
  rewrite !filter_cons. unfold first_key. rewrite Hkeys.
  destruct (String.eqb_spec (unquote_or_raw E (Text (Token k))) unorderedKey).
  - rewrite decide_True by assumption. rewrite decide_False by tauto.
    reflexivity.
  - rewrite decide_False by assumption. rewrite decide_True by assumption.
    reflexivity.
Qed.

Lemma visit_items_Forall2 v items : forall items',
  visit_items E v items = Returned (v, items') ->
  Forall2 (fun item item' => visitObjectItem E v item = Returned (v, item'))
          items items'.
Proof.
  induction items as [|item rest IH]; intros items' H; cbn in H.
  - injection H as <-. constructor.
  - destruct (visitObjectItem E v item) as [[v1 item1]|] eqn:H1;
      cbn in H; [|discriminate].
    pose proof (visitObjectItem_keeps_all _ _ _ _ H1). subst v1.
    destruct (visit_items E v rest) as [[v2 rest2]|] eqn:H2;
      cbn in H; [|discriminate].
    pose proof (visit_items_keeps rest
                  (proj2 (Forall_forall _ _)
                     (fun o _ => visitObjectItem_keeps_all o)) _ _ _ H2).
    subst v2. injection H as <-. constructor; [exact H1|]. apply IH. reflexivity.
Qed.



Lemma buildLogicalPath_resource v p0 resourceType resourceName rest :
  currentPath v = p0 :: resourceType :: resourceName :: rest ->
  buildLogicalPath v
  = Join (filter (fun part => Atoi_ok part = false) rest) ".".
Proof. intros Hp. unfold buildLogicalPath. rewrite Hp. reflexivity. Qed.



End WithExternals.

(** A hint that extends the logical path by one key names that key, when
    no earlier hint does. *)
Lemma HasPrefix_app s t : HasPrefix (s +:+ t) s = true.
Proof.
  induction s as [|c s IH]; [reflexivity|].
  change (Ascii.eqb c c && HasPrefix (s +:+ t) s = true).
  rewrite Ascii.eqb_refl. exact IH.
Qed.

Lemma slice_from_app s t : slice_from (len s) (s +:+ t) = t.
Proof. induction s as [|c s IH]; [destruct t; reflexivity|exact IH]. Qed.

Lemma TrimPrefix_app s t : TrimPrefix (s +:+ t) s = t.
Proof. unfold TrimPrefix. rewrite HasPrefix_app. apply slice_from_app. Qed.

Lemma find_unorderedKey_extends logicalPath key rest :
  logicalPath <> "" ->
  Contains key "." = false ->
  find_unorderedKey ((logicalPath +:+ "." +:+ key) :: rest) logicalPath = key.
Proof.
  intros Hne Hdot. cbn [find_unorderedKey].
  rewrite HasPrefix_app, TrimPrefix_app.
  assert (Hlen : (0 <? len logicalPath)%nat = true).
  { destruct logicalPath; [congruence|reflexivity]. }
  rewrite Hlen. cbn [andb].
  change (HasPrefix ("." +:+ key) ".") with true.
  change (slice_from 1 ("." +:+ key)) with key.
  rewrite Hdot. cbn [negb andb].
  apply (TrimPrefix_app "." key).
Qed.

(** The body of a resource has an empty logical path, which no hint
    extends: a hint of one segment names no key there. *)
Lemma find_unorderedKey_root hints : find_unorderedKey hints "" = "".
Proof.
  induction hints as [|hint rest IH]; [reflexivity|].
  cbn [find_unorderedKey]. cbn [len Nat.ltb Nat.leb].
  rewrite andb_false_r. exact IH.
Qed.

(** Without sorting, the items of a container stay where they are. *)
Lemma order_items_unsorted (E : Externals) v items :
  sort v = false -> order_items E v items = Returned items.
Proof. intros H. unfold order_items. rewrite H. reflexivity. Qed.

Section OrderingHints.

Variable E : Externals.

(** What the specification of [sort.Slice] gives: a permutation of the
    slice, in which no element is less than its predecessor. *)
Hypothesis sort_Slice_permutation :
  forall (A : Type) (less : A -> A -> bool) (l : list A),
    sort_Slice E A less l ≡ₚ l.
Hypothesis sort_Slice_sorted :
  forall (A : Type) (key : A -> string) (l : list A),
    Sorted (fun a b => String.leb (key a) (key b) = true)
           (sort_Slice E A (fun a b => String.ltb (key a) (key b)) l).


End OrderingHints.

Section Heredoc.

Variable E : Externals.

Lemma Split_no_line_feed s : Contains s LF = false -> Split s LF = [s].
Proof.
  unfold Split. induction s as [|c s IH]; intros H; [reflexivity|].
  cbn [Contains] in H. apply orb_false_iff in H. destruct H as [Hp Hc].
  cbn [split_from]. rewrite Hp, (IH Hc). reflexivity.
Qed.

(** A literal that starts with the heredoc marker and has no line after the
    marker makes [handleHeredoc] slice [lines[1:0]]. *)
Lemma handleHeredoc_single_line (t : token.Token) :
  HasPrefix (Text t) (DQ +:+ "<<") = true ->
  Contains (heredoc_text (Text t)) LF = false ->
  handleHeredoc E t = Panicked SliceBoundsOutOfRange.
Proof.
  intros Hp Hc. unfold handleHeredoc. rewrite Hp. cbv zeta.
  fold (heredoc_text (Text t)).
  rewrite (Split_no_line_feed _ Hc). reflexivity.
Qed.

(** A heredoc literal of two lines or more whose body is JSON: the text
    becomes the marker line, the lines of the indented JSON and the last
    line, and the token becomes a heredoc token. *)
Lemma handleHeredoc_json_body (t : token.Token) lines tmp pretty :
  HasPrefix (Text t) (DQ +:+ "<<") = true ->
  Split (heredoc_text (Text t)) LF = lines ->
  (2 <= length lines)%nat ->
  json_Unmarshal E
    (ReplaceAll (Join (take (length lines - 2) (drop 1 lines)) LF)
                (BS +:+ DQ) DQ) = Some tmp ->
  json_MarshalIndent E tmp = Some pretty ->
  handleHeredoc E t
  = Returned
      {| TokenType := 10; TokenPos := TokenPos t;
         Text := Join (hd "" lines :: Split pretty LF ++ [List.last lines ""])%list LF;
         JSON := JSON t |}.
Proof.
  intros Hp Hl Hn Hu Hm. unfold handleHeredoc. rewrite Hp. cbv zeta.
  fold (heredoc_text (Text t)). rewrite Hl.
  destruct (Nat.ltb_spec (length lines) 2); [lia|].
  rewrite Hu, Hm. reflexivity.
Qed.

(** C7 fails on a literal that holds a heredoc marker and nothing else: the
    sanitiser panics on it, whatever the library functions and the state of
    the sanitiser. *)
Theorem heredoc_marker_only_panics (v : astSanitizer) :
  visit E v (LiteralType (Examples.string_token Examples.heredoc_marker_only))
  = Panicked SliceBoundsOutOfRange.
Proof.
  cbn [visit].
  rewrite handleHeredoc_single_line; [reflexivity|reflexivity|reflexivity].
Qed.

End Heredoc.

End CanonicalizerProofs.


Module CanonicalizerExamples.
Import GoStrings Sanitize token ast Canonicalizer Examples CanonicalizerProofs.

Lemma toy_sort_permutation (A : Type) (less : A -> A -> bool) (l : list A) :
  sort_Slice toy A less l ≡ₚ l.
Proof. apply merge_sort_Permutation. Qed.

Lemma ltb_false_leb x y : String.ltb y x = false -> String.leb x y = true.
Proof.
  unfold String.ltb, String.leb. rewrite (String.compare_antisym y x).
  destruct (String.compare x y); cbn; congruence.
Qed.

Lemma toy_sort_sorted (A : Type) (key : A -> string) (l : list A) :
  Sorted (fun a b => String.leb (key a) (key b) = true)
         (sort_Slice toy A (fun a b => String.ltb (key a) (key b)) l).
Proof.
  cbn [sort_Slice toy]. unfold toy_sort.
  set (R := fun a b : A => String.ltb (key b) (key a) = false).
  assert (HT : Total R).
  { intros a b. unfold R, String.ltb.
    rewrite (String.compare_antisym (key b) (key a)).
    destruct (String.compare (key a) (key b)); cbn; auto. }
  pose proof (@Sorted_merge_sort A R
                (fun a b => decide (String.ltb (key b) (key a) = false)) HT l)
    as HS.
  revert HS. generalize (@merge_sort A R
       (fun a b => decide (String.ltb (key b) (key a) = false)) l).
  intros l'. induction 1 as [|a l0 _ IH Hd]; constructor; [exact IH|].
  destruct Hd; constructor. apply ltb_false_leb. assumption.
Qed.

Example build_logical_path : buildLogicalPath build_sanitizer = "build".
Proof. reflexivity. Qed.

Example build_step_index_stripped :
  buildLogicalPath
    (set_currentPath build_sanitizer
       ["resource"; "google_cloudbuild_trigger"; "tfer--t";
        "build"; "0"; "step"; "1"])
  = "build.step".
Proof. reflexivity. Qed.

Example build_items_order :
  match visit toy build_sanitizer (ObjectList build_items) with
  | Returned (_, ObjectList out) => map key_and_value out
  | _ => []
  end
  = [("step", "second"); ("step", "first"); ("args", "x"); ("timeout", "60s")].
Proof. vm_compute. reflexivity. Qed.


(** The heredoc of the specification: the marker line, the indented JSON
    and the closing line, each on a line of its own. *)
Example heredoc_json_rendered :
  handleHeredoc toy (string_token heredoc_json)
  = Returned
      {| TokenType := 10; TokenPos := no_pos;
         Text := "<<EOF" +:+ LF +:+ "{" +:+ LF +:+ "  " +:+ DQ +:+ "a" +:+ DQ
                 +:+ ": 1" +:+ LF +:+ "}" +:+ LF +:+ "EOF";
         JSON := true |}.
Proof. vm_compute. reflexivity. Qed.

End CanonicalizerExamples.

Module RewriterProofs.
Import GoStrings Rewriter.

(** *** The closing brace that is never found *)

Lemma innerBlock_unclosed lines :
  Forall (fun line => endBraceRe line = false) lines ->
  innerBlock lines = Panicked IndexOutOfRange.
Proof.
  induction 1 as [|line rest Hl _ IH]; [reflexivity|].
  cbn [innerBlock]. rewrite Hl, IH. reflexivity.
Qed.

Lemma adjust13_unclosed lines : forall i line,
  lines !! i = Some line ->
  requiredProvidersRe line = true ->
  Forall (fun l => requiredProvidersRe l = false) (take i lines) ->
  Forall (fun l => endBraceRe l = false) (drop (S i) lines) ->
  adjust13 lines = Panicked IndexOutOfRange.
Proof.
  induction lines as [|l rest IH]; intros i line Hi Hm Hbefore Hafter;
    [discriminate|].
  destruct i as [|i]; cbn in Hi.
  - injection Hi as ->. cbn [adjust13]. rewrite Hm.
    destruct (Split (TrimSpace line) " " !! 1%nat); [|reflexivity].
    rewrite (innerBlock_unclosed rest Hafter). reflexivity.
  - change (Forall (fun l => requiredProvidersRe l = false) (l :: take i rest))
      in Hbefore.
    inversion Hbefore as [|? ? Hl Hrest]; subst.
    cbn [adjust13]. rewrite Hl.
    rewrite (IH i line Hi Hm Hrest Hafter). reflexivity.
Qed.

Lemma length_adjust12 mapsObjects lines : forall prefix,
  length (adjust12 mapsObjects prefix lines) = length lines.
Proof.
  induction lines as [|line rest IH]; intros prefix; [reflexivity|].
  cbn [adjust12].
  destruct (endBraceRe line && (0 <? length prefix)%nat);
    [cbn; f_equal; apply IH|].
  destruct (negb (singletonListFix line)); [cbn; f_equal; apply IH|].
  cbv zeta. destruct (decide _); cbn; f_equal; apply IH.
Qed.

(** C2 as stated fails: on a text with a [required_providers] line and no
    closing brace after it, [terraform12Adjustments] raises nothing and
    returns the text as it is, and [terraform13Adjustments] yields no error
    value: it panics. *)
Lemma terraform12_returns_on_unclosed_block :
  requiredProvidersRe
    ("  required_providers " +:+ DQ +:+ "google" +:+ DQ +:+ " {") = true /\
  Split Examples.unclosed_providers LF
  = [ "terraform {";
      "  required_providers " +:+ DQ +:+ "google" +:+ DQ +:+ " {";
      "    version = " +:+ DQ +:+ "4.0" +:+ DQ ] /\
  Forall (fun line => endBraceRe line = false)
         (Split Examples.unclosed_providers LF) /\
  terraform12Adjustments Examples.unclosed_providers ∅
  = Examples.unclosed_providers /\
  terraform13Adjustments Examples.unclosed_providers
  = Panicked IndexOutOfRange.
Proof.
  split; [reflexivity|]. split; [reflexivity|]. split.
  - vm_compute. repeat constructor.
  - split; vm_compute; reflexivity.
Qed.

(** C2 (amended): when a line matches [required_providers "<name>" {], no
    line before it does and no line after it matches a closing brace,
    [terraform13Adjustments] returns nothing: its scan for the brace ends
    past the last line, in a run-time panic.  [terraform12Adjustments] has
    no failure at all: it returns as many lines as it was given, whatever
    the braces. *)
Theorem unclosed_required_providers_panics formatted i line :
  Split formatted LF !! i = Some line ->
  requiredProvidersRe line = true ->
  Forall (fun l => requiredProvidersRe l = false) (take i (Split formatted LF)) ->
  Forall (fun l => endBraceRe l = false) (drop (S i) (Split formatted LF)) ->
  terraform13Adjustments formatted = Panicked IndexOutOfRange /\
  forall mapsObjects,
    length (adjust12 mapsObjects [] (Split formatted LF))
    = length (Split formatted LF).
Proof.
  intros Hi Hm Hb Ha. split.
  - unfold terraform13Adjustments.
    rewrite (adjust13_unclosed _ _ _ Hi Hm Hb Ha). reflexivity.
  - intros m. apply length_adjust12.
Qed.

Lemma unclosed_required_providers_panics_witness :
  Split Examples.unclosed_providers LF !! 1%nat
  = Some ("  required_providers " +:+ DQ +:+ "google" +:+ DQ +:+ " {") /\
  terraform13Adjustments Examples.unclosed_providers
  = Panicked IndexOutOfRange.
Proof.
  split; [reflexivity|].
  apply (unclosed_required_providers_panics Examples.unclosed_providers 1
           ("  required_providers " +:+ DQ +:+ "google" +:+ DQ +:+ " {")).
  - reflexivity.
  - reflexivity.
  - vm_compute. repeat constructor.
  - vm_compute. repeat constructor.
Defined.

(** *** The lines that open a block *)

Lemma is_word_not_brace c : is_word c = true -> Ascii.eqb "}" c = false.
Proof.
  destruct c as [[] [] [] [] [] [] [] []]; cbn; intros H;
    try reflexivity; discriminate H.
Qed.

(** A line matches at most one of the two expressions. *)
Lemma singletonListFix_not_end line :
  singletonListFix line = true -> endBraceRe line = false.
Proof.
  unfold singletonListFix, endBraceRe.
  destruct (trim_left is_re_space line) as [|c t].
  - cbn. discriminate.
  - cbn [trim_left]. destruct (is_word c) eqn:Hw.
    + intros _. cbn [HasPrefix]. rewrite (is_word_not_brace c Hw). reflexivity.
    + rewrite String.eqb_refl. discriminate.
Qed.

Lemma stack_step_fix prefix line :
  singletonListFix line = true ->
  stack_step prefix line = (prefix ++ [line_key line])%list.
Proof.
  intros H. unfold stack_step.
  rewrite (singletonListFix_not_end line H), H. reflexivity.
Qed.

Lemma adjust12_cons_tail mapsObjects prefix line rest :
  tl (adjust12 mapsObjects prefix (line :: rest))
  = adjust12 mapsObjects (stack_step prefix line) rest.
Proof.
  cbn [adjust12]. unfold stack_step.
  destruct (endBraceRe line && (0 <? length prefix)%nat); [reflexivity|].
  destruct (singletonListFix line); cbn [negb]; [|reflexivity].
  cbv zeta. destruct (decide _); reflexivity.
Qed.

Lemma adjust12_lookup mapsObjects lines : forall prefix i line,
  lines !! i = Some line ->
  adjust12 mapsObjects prefix lines !! i
  = Some (if singletonListFix line
          then if decide (Join (fold_left stack_step (take i lines) prefix
                                ++ [line_key line])%list "." ∈ mapsObjects)
               then line
               else ReplaceAll line " = {" " {"
          else line).
Proof.
  induction lines as [|l rest IH]; intros prefix i line Hi; [discriminate|].
  destruct i as [|i].
  - cbn in Hi. injection Hi as ->. cbn [take fold_left adjust12].
    destruct (singletonListFix line) eqn:Hfix.
    + rewrite (singletonListFix_not_end line Hfix). cbn [andb negb]. cbv zeta.
      destruct (decide _); reflexivity.
    + cbn [negb]. destruct (endBraceRe line && _); reflexivity.
  - cbn in Hi.
    change (take (S i) (l :: rest)) with (l :: take i rest).
    cbn [fold_left]. rewrite <- (IH (stack_step prefix l) i line Hi).
    rewrite <- adjust12_cons_tail.
    destruct (adjust12 mapsObjects prefix (l :: rest)) eqn:Hd; [|reflexivity].
    pose proof (length_adjust12 mapsObjects (l :: rest) prefix) as Hlen.
    rewrite Hd in Hlen. discriminate.
Qed.

Lemma ReplaceAll_opening_line pre :
  all_bytes no_equals pre = true ->
  ReplaceAll (pre +:+ " = {") " = {" " {" = pre +:+ " {".
Proof.
  unfold ReplaceAll. induction pre as [|c pre IH]; intros H; [reflexivity|].
  cbn [all_bytes] in H. apply andb_true_iff in H. destruct H as [Hc Hpre].
  change (String c pre +:+ " = {") with (String c (pre +:+ " = {")).
  cbn [replace_from].
  assert (Hp : HasPrefix (String c (pre +:+ " = {")) " = {" = false).
  { cbn [HasPrefix]. destruct (Ascii.eqb " " c); [|reflexivity]. cbn [andb].
    destruct pre as [|d pre']; [reflexivity|].
    change (String d pre' +:+ " = {") with (String d (pre' +:+ " = {")).
    cbn [HasPrefix]. cbn [all_bytes] in Hpre. unfold no_equals in Hpre.
    apply andb_true_iff in Hpre. destruct Hpre as [Hd _].
    rewrite Ascii.eqb_sym. apply negb_true_iff in Hd. rewrite Hd. reflexivity. }
  rewrite Hp, (IH Hpre). reflexivity.
Qed.

Example tags_lines_adjusted :
  adjust12 {[ "tags" ]} [] Examples.tags_lines
  = [ "resource " +:+ DQ +:+ "google_x" +:+ DQ +:+ " " +:+ DQ +:+ "tfer--a"
        +:+ DQ +:+ " {";
      "  tags = {";
      "    env = " +:+ DQ +:+ "prod" +:+ DQ;
      "  }";
      "  rule {";
      "    tags {";
      "    }";
      "  }";
      "}" ].
Proof. vm_compute. reflexivity. Qed.

End RewriterProofs.

Module AssemblerProofs.
Import GoStrings Printer Assembler.

(** *** The registration of map paths does not depend on the order *)

Lemma elem_of_register_maps keys : forall acc p,
  p ∈ register_maps keys acc <->
  p ∈ acc \/
  exists k, k ∈ keys /\ HasSuffix k ".%" = true /\
            p = strip_indices (TrimSuffix k ".%").
Proof.
  unfold register_maps.
  induction keys as [|k keys IH]; intros acc p; cbn [fold_left].
  - split; [auto|]. intros [H|(k & Hk & _)]; [exact H|]. inversion Hk.
  - rewrite IH. destruct (HasSuffix k ".%") eqn:Hs.
    + rewrite elem_of_union, elem_of_singleton. split.
      * intros [[->|H]|(k' & Hk' & H1 & H2)].
        -- right. exists k. split; [left|]. auto.
        -- auto.
        -- right. exists k'. split; [right; exact Hk'|]. auto.
      * intros [H|(k' & Hk' & H1 & H2)]; [auto|].
        apply elem_of_cons in Hk'. destruct Hk' as [->|Hk'].
        -- left. left. exact H2.
        -- right. exists k'. auto.
    + split.
      * intros [H|(k' & Hk' & H1 & H2)]; [auto|].
        right. exists k'. split; [right; exact Hk'|]. auto.
      * intros [H|(k' & Hk' & H1 & H2)]; [auto|].
        apply elem_of_cons in Hk'. destruct Hk' as [->|Hk']; [congruence|].
        right. exists k'. auto.
Qed.

Lemma elem_of_maps_of attributes p :
  p ∈ maps_of attributes <->
  exists k, k ∈ dom attributes /\ HasSuffix k ".%" = true /\
            p = strip_indices (TrimSuffix k ".%").
Proof.
  unfold maps_of. rewrite elem_of_map. split.
  - intros (k & -> & Hk). apply elem_of_filter in Hk. exists k. tauto.
  - intros (k & Hk & Hs & ->). exists k. split; [reflexivity|].
    apply elem_of_filter. tauto.
Qed.

Lemma register_maps_valid keys attributes acc :
  keys ≡ₚ elements (dom attributes) ->
  register_maps keys acc = maps_of attributes ∪ acc.
Proof.
  intros Hk. apply set_eq. intros p.
  rewrite elem_of_register_maps, elem_of_union, elem_of_maps_of.
  split.
  - intros [H|(k & Hin & H)]; [auto|]. left. exists k. split; [|exact H].
    rewrite Hk in Hin. apply elem_of_elements in Hin. exact Hin.
  - intros [(k & Hin & H)|H]; [|auto]. right. exists k. split; [|exact H].
    rewrite Hk. apply elem_of_elements. exact Hin.
Qed.

Lemma assemble_one_valid keys attributes a res :
  keys ≡ₚ elements (dom attributes) ->
  terraform.Attributes (InstanceState res) = attributes ->
  assemble_one keys a res = assemble_one (elements (dom attributes)) a res.
Proof.
  intros Hk _. unfold assemble_one.
  rewrite (register_maps_valid keys attributes _ Hk).
  rewrite (register_maps_valid (elements (dom attributes)) attributes _
             (reflexivity _)).
  reflexivity.
Qed.

Lemma assemble_from_valid order resources : forall i a,
  valid_order order ->
  assemble_from order i a resources = assemble_from sorted_order 0 a resources.
Proof.
  induction resources as [|res rest IH]; intros i a Hv; [reflexivity|].
  cbn [assemble_from]. unfold sorted_order at 2.
  rewrite (assemble_one_valid _ _ a res (Hv i _) eq_refl).
  rewrite (IH (S i) _ Hv). clear.
  generalize (assemble_one
                (elements (dom (terraform.Attributes (InstanceState res)))) a res).
  intros b. generalize 0%nat 1%nat. revert b.
  induction rest as [|r rest IH]; intros b n m; [reflexivity|].
  cbn [assemble_from]. unfold sorted_order at 1 3. apply IH.
Qed.

(** C1: two runs of [HclPrintResource] on the same inputs differ at most in
    the order in which Go iterates over the attributes of each resource,
    and that order has no effect: both runs build the same document, the
    same set of map paths, the same hints and the same log; [Print] of what
    was assembled gives the same result in both, and [HclPrintResource]
    returns the same bytes and the same error (or stops with the same
    panic). *)
Theorem render_is_deterministic
    (E : Externals) order1 order2 resources providerData output sort :
  valid_order order1 ->
  valid_order order2 ->
  let a1 := assemble order1 resources in
  let a2 := assemble order2 resources in
  a1 = a2 /\
  Print E (document a1 providerData) (mapsObjects a1) output sort
        (hintsByResource a1)
  = Print E (document a2 providerData) (mapsObjects a2) output sort
          (hintsByResource a2) /\
  HclPrintResource E order1 resources providerData output sort
  = HclPrintResource E order2 resources providerData output sort.
Proof.
  intros H1 H2 a1 a2.
  assert (Ha : a1 = a2).
  { unfold a1, a2, assemble.
    rewrite (assemble_from_valid order1 resources 0 _ H1).
    rewrite (assemble_from_valid order2 resources 0 _ H2). reflexivity. }
  split; [exact Ha|]. split; [rewrite Ha; reflexivity|].
  unfold HclPrintResource. fold a1 a2. rewrite Ha. reflexivity.
Qed.

Lemma sorted_order_valid : valid_order sorted_order.
Proof. intros i m. reflexivity. Qed.

Lemma reverse_order_valid : valid_order reverse_order.
Proof. intros i m. unfold reverse_order. apply reverse_Permutation. Qed.

Lemma render_is_deterministic_witness :
  HclPrintResource Examples.toy sorted_order
    [Pruner.gcs_resource; Pruner.bucket_resource] ∅ "hcl" true
  = HclPrintResource Examples.toy reverse_order
      [Pruner.gcs_resource; Pruner.bucket_resource] ∅ "hcl" true.
Proof.
  apply (render_is_deterministic Examples.toy sorted_order reverse_order).
  - exact sorted_order_valid.
  - exact reverse_order_valid.
Defined.

(** *** Duplicates *)

Lemma lookup_resource_default a type name :
  default ∅ (resourcesByType a !! type) !! name = lookup_resource a type name.
Proof.
  unfold lookup_resource. destruct (resourcesByType a !! type); reflexivity.
Qed.

Lemma assemble_one_duplicate keys a res v :
  lookup_resource a (type_of res) (ResourceName res) = Some v ->
  assemble_one keys a res
  = {| resourcesByType := resourcesByType a;
       mapsObjects := mapsObjects a;
       hintsByResource := hintsByResource a;
       logged := (logged a ++ [duplicate_message res])%list |}.
Proof.
  intros H. unfold assemble_one. cbv zeta.
  rewrite lookup_resource_default, H.
  unfold lookup_resource in H.
  destruct (resourcesByType a !! type_of res) as [r|] eqn:Hr; [|discriminate].
  cbn [default]. rewrite (insert_id _ _ _ Hr). reflexivity.
Qed.

Lemma assemble_one_new keys a res :
  lookup_resource a (type_of res) (ResourceName res) = None ->
  assemble_one keys a res
  = {| resourcesByType :=
         <[type_of res :=
             <[ResourceName res := item_value (Item res)]>
               (default ∅ (resourcesByType a !! type_of res))]>
           (resourcesByType a);
       mapsObjects := register_maps keys (mapsObjects a);
       hintsByResource :=
         if (0 <? length (PreserveOrder res))%nat
         then <[type_of res :=
                  <[ResourceName res := PreserveOrder res]>
                    (default ∅ (hintsByResource a !! type_of res))]>
                (hintsByResource a)
         else hintsByResource a;
       logged := logged a |}.
Proof.
  intros H. unfold assemble_one. cbv zeta.
  rewrite lookup_resource_default, H, insert_insert_eq. reflexivity.
Qed.

Lemma lookup_resource_new keys a res type name :
  lookup_resource a (type_of res) (ResourceName res) = None ->
  lookup_resource (assemble_one keys a res) type name
  = if decide (type = type_of res /\ name = ResourceName res)
    then Some (item_value (Item res))
    else lookup_resource a type name.
Proof.
  intros H. rewrite (assemble_one_new keys a res H).
  unfold lookup_resource at 1. cbn [resourcesByType].
  destruct (decide (type = type_of res)) as [->|Hty].
  - rewrite lookup_insert_eq. cbn [mbind option_bind].
    destruct (decide (name = ResourceName res)) as [->|Hn].
    + rewrite lookup_insert_eq, decide_True by auto. reflexivity.
    + rewrite lookup_insert_ne by congruence.
      rewrite decide_False by tauto. apply lookup_resource_default.
  - rewrite lookup_insert_ne by congruence.
    rewrite decide_False by tauto. reflexivity.
Qed.

Lemma seen_registered_empty : seen_registered empty_assembly [].
Proof.
  intros res. split.
  - intros H. inversion H.
  - intros [v H]. unfold lookup_resource in H. cbn in H.
    rewrite lookup_empty in H. discriminate.
Qed.

Lemma seen_registered_new keys a seen res :
  seen_registered a seen ->
  ~ Exists (same_address res) seen ->
  lookup_resource a (type_of res) (ResourceName res) = None /\
  seen_registered (assemble_one keys a res) (res :: seen).
Proof.
  intros Hinv Hnew.
  assert (Hnone : lookup_resource a (type_of res) (ResourceName res) = None).
  { destruct (lookup_resource a (type_of res) (ResourceName res)) eqn:Hl;
      [|reflexivity].
    exfalso. apply Hnew, Hinv. rewrite Hl. eauto. }
  split; [exact Hnone|]. intros res'.
  rewrite (lookup_resource_new keys a res _ _ Hnone), Exists_cons.
  destruct (decide _) as [[Ht Hn]|Hne].
  - split; [eauto|]. intros _. left. split; assumption.
  - rewrite <- (Hinv res'). split; [|tauto].
    intros [[Ht Hn]|H]; [|exact H]. exfalso. apply Hne. split; assumption.
Qed.

Lemma seen_registered_duplicate keys a seen res :
  seen_registered a seen ->
  Exists (same_address res) seen ->
  exists v, lookup_resource a (type_of res) (ResourceName res) = Some v /\
            seen_registered (assemble_one keys a res) seen.
Proof.
  intros Hinv Hdup. destruct (proj1 (Hinv res) Hdup) as [v Hv].
  exists v. split; [exact Hv|].
  rewrite (assemble_one_duplicate keys a res v Hv). exact Hinv.
Qed.

Lemma same_document_assemble_one keys a b res :
  same_document a b ->
  same_document (assemble_one keys a res) (assemble_one keys b res).
Proof.
  intros (H1 & H2 & H3). unfold same_document, assemble_one. cbv zeta.
  rewrite H1, H2, H3.
  destruct (default ∅ (resourcesByType b !! type_of res) !! ResourceName res);
    cbn; auto.
Qed.

Lemma same_document_assemble_from order resources : forall i a b,
  same_document a b ->
  same_document (assemble_from order i a resources)
                (assemble_from order i b resources).
Proof.
  induction resources as [|res rest IH]; intros i a b H; [exact H|].
  cbn [assemble_from]. apply IH, same_document_assemble_one, H.
Qed.

Lemma same_document_trans a b c :
  same_document a b -> same_document b c -> same_document a c.
Proof. unfold same_document. intros (?&?&?) (?&?&?). repeat split; congruence. Qed.

Lemma assemble_duplicates resources : forall a seen,
  seen_registered a seen ->
  let b := assemble_from sorted_order 0 a resources in
  let c := assemble_from sorted_order 0 a (first_occurrences seen resources) in
  same_document b c /\
  logged b
  = (logged a ++ (duplicate_message <$> later_occurrences seen resources))%list /\
  logged c = logged a /\
  mapsObjects b = all_maps (first_occurrences seen resources) ∪ mapsObjects a.
Proof.
  induction resources as [|res rest IH]; intros a seen Hinv.
  - cbn. rewrite app_nil_r. unfold all_maps. cbn.
    repeat split. symmetry. apply (left_id_L ∅ (∪)).
  - cbn [first_occurrences later_occurrences].
    destruct (decide (Exists (same_address res) seen)) as [Hdup|Hnew].
    + destruct (seen_registered_duplicate
                  (sorted_order 0 (terraform.Attributes (InstanceState res)))
                  a seen res Hinv Hdup) as (v & Hv & Hinv').
      cbn [assemble_from].
      rewrite (assemble_from_valid sorted_order rest 1 _ sorted_order_valid).
      destruct (IH _ seen Hinv') as (H1 & H2 & H3 & H4).
      rewrite (assemble_one_duplicate _ a res v Hv) in *.
      cbn [logged mapsObjects] in *.
      set (a' := {| resourcesByType := resourcesByType a;
                    mapsObjects := mapsObjects a;
                    hintsByResource := hintsByResource a;
                    logged := (logged a ++ [duplicate_message res])%list |}) in *.
      assert (Hsame : same_document a' a) by (repeat split).
      split; [|split; [|split]].
      * eapply same_document_trans; [exact H1|].
        apply same_document_assemble_from, Hsame.
      * rewrite H2, fmap_cons, <- app_assoc. reflexivity.
      * destruct (IH a seen Hinv) as (_ & _ & H3' & _). exact H3'.
      * exact H4.
    + destruct (seen_registered_new
                  (sorted_order 0 (terraform.Attributes (InstanceState res)))
                  a seen res Hinv Hnew) as (Hnone & Hinv').
      cbn [assemble_from].
      rewrite !(assemble_from_valid sorted_order _ 1 _ sorted_order_valid).
      destruct (IH _ (res :: seen) Hinv') as (H1 & H2 & H3 & H4).
      split; [exact H1|]. split; [|split].
      * rewrite H2, (assemble_one_new _ a res Hnone). reflexivity.
      * rewrite H3, (assemble_one_new _ a res Hnone). reflexivity.
      * rewrite H4, (assemble_one_new _ a res Hnone). cbn [mapsObjects].
        rewrite (register_maps_valid _ _ _ (sorted_order_valid 0 _)).
        unfold all_maps. rewrite fmap_cons. cbn [union_list foldr].
        rewrite (comm_L (∪) (maps_of _) (⋃ _)), (assoc_L (∪)). reflexivity.
Qed.

(** An entry keeps the value that the first resource of its address
    stored. *)
Lemma lookup_resource_stable keys a res type name v :
  lookup_resource a type name = Some v ->
  lookup_resource (assemble_one keys a res) type name = Some v.
Proof.
  intros H.
  destruct (lookup_resource a (type_of res) (ResourceName res)) as [w|] eqn:Hr.
  - rewrite (assemble_one_duplicate keys a res w Hr). exact H.
  - rewrite (lookup_resource_new keys a res _ _ Hr).
    destruct (decide _) as [[-> ->]|_]; [congruence|exact H].
Qed.

Lemma lookup_resource_stable_from order resources : forall i a type name v,
  lookup_resource a type name = Some v ->
  lookup_resource (assemble_from order i a resources) type name = Some v.
Proof.
  induction resources as [|res rest IH]; intros i a type name v H; [exact H|].
  cbn [assemble_from]. apply IH, lookup_resource_stable, H.
Qed.

Lemma first_occurrence_kept order pre : forall i a seen res post,
  seen_registered a seen ->
  ~ Exists (same_address res) (seen ++ pre) ->
  lookup_resource (assemble_from order i a (pre ++ res :: post))
                  (type_of res) (ResourceName res)
  = Some (item_value (Item res)).
Proof.
  induction pre as [|p pre IH]; intros i a seen res post Hinv Hnew.
  - rewrite app_nil_r in Hnew. cbn [app assemble_from].
    destruct (seen_registered_new
                (order i (terraform.Attributes (InstanceState res)))
                a seen res Hinv Hnew) as (Hnone & _).
    apply lookup_resource_stable_from.
    rewrite (lookup_resource_new _ a res _ _ Hnone), decide_True by auto.
    reflexivity.
  - cbn [app assemble_from].
    destruct (decide (Exists (same_address p) seen)) as [Hdup|Hp].
    + destruct (seen_registered_duplicate
                  (order i (terraform.Attributes (InstanceState p)))
                  a seen p Hinv Hdup) as (v & _ & Hinv').
      apply (IH _ _ seen); [exact Hinv'|].
      intros H. apply Hnew. rewrite Exists_app in *. rewrite Exists_cons. tauto.
    + destruct (seen_registered_new
                  (order i (terraform.Attributes (InstanceState p)))
                  a seen p Hinv Hp) as (_ & Hinv').
      apply (IH _ _ (p :: seen)); [exact Hinv'|].
      intros H. apply Hnew. rewrite Exists_app in *.
      rewrite !Exists_cons in *. tauto.
Qed.

Lemma length_occurrences resources : forall seen,
  (length (first_occurrences seen resources)
   + length (later_occurrences seen resources) = length resources)%nat.
Proof.
  induction resources as [|res rest IH]; intros seen; [reflexivity|].
  cbn [first_occurrences later_occurrences].
  destruct (decide _); cbn [length].
  - specialize (IH seen). lia.
  - specialize (IH (res :: seen)). lia.
Qed.

Lemma HclPrintResource_same_document E order order' resources resources'
    providerData output sort :
  same_document (assemble order resources) (assemble order' resources') ->
  HclPrintResource E order resources providerData output sort
  = HclPrintResource E order' resources' providerData output sort.
Proof.
  intros (H1 & H2 & H3). unfold HclPrintResource, document. cbv zeta.
  rewrite H1, H2, H3. reflexivity.
Qed.

(** C9: of the resources that share a type and a name, the entry of the
    assembly is the item of the first one; each later one adds one line to
    the log and nothing else, so that the assembly hands to [Print] what it
    hands for the first occurrences alone, for which nothing is logged, and
    the render returns what it returns for them. *)
Theorem duplicates_discarded_with_warning
    (E : Externals) order order' resources providerData output sort :
  valid_order order ->
  valid_order order' ->
  let a := assemble order resources in
  let kept := first_occurrences [] resources in
  (forall pre res post,
     resources = (pre ++ res :: post)%list ->
     ~ Exists (same_address res) pre ->
     lookup_resource a (type_of res) (ResourceName res)
     = Some (item_value (Item res))) /\
  logged a = duplicate_message <$> later_occurrences [] resources /\
  length (logged a) = (length resources - length kept)%nat /\
  same_document a (assemble order' kept) /\
  logged (assemble order' kept) = [] /\
  HclPrintResource E order resources providerData output sort
  = HclPrintResource E order' kept providerData output sort.
Proof.
  intros Hv Hv' a kept.
  destruct (assemble_duplicates resources empty_assembly []
              seen_registered_empty) as (H1 & H2 & H3 & _).
  cbn [logged empty_assembly app] in H2, H3.
  assert (Ha : a = assemble_from sorted_order 0 empty_assembly resources)
    by (apply assemble_from_valid, Hv).
  assert (Hk : assemble order' kept
               = assemble_from sorted_order 0 empty_assembly kept)
    by (apply assemble_from_valid, Hv').
  assert (Hsame : same_document a (assemble order' kept))
    by (rewrite Ha, Hk; exact H1).
  split; [|split; [|split; [|split; [|split]]]].
  - intros pre res post -> Hnew.
    apply (first_occurrence_kept order pre 0 empty_assembly []);
      [exact seen_registered_empty|exact Hnew].
  - rewrite Ha. exact H2.
  - rewrite Ha, H2, length_fmap.
    pose proof (length_occurrences resources []). fold kept in H. lia.
  - exact Hsame.
  - rewrite Hk. exact H3.
  - apply HclPrintResource_same_document, Hsame.
Qed.

Lemma duplicates_discarded_with_warning_witness :
  logged (assemble sorted_order [Pruner.bucket_resource; Pruner.gcs_resource])
  = [duplicate_message Pruner.gcs_resource] /\
  HclPrintResource Examples.toy sorted_order
    [Pruner.bucket_resource; Pruner.gcs_resource] ∅ "hcl" true
  = HclPrintResource Examples.toy reverse_order
      (first_occurrences [] [Pruner.bucket_resource; Pruner.gcs_resource])
      ∅ "hcl" true.
Proof.
  destruct (duplicates_discarded_with_warning Examples.toy
              sorted_order reverse_order
              [Pruner.bucket_resource; Pruner.gcs_resource] ∅ "hcl" true
              sorted_order_valid reverse_order_valid)
    as (_ & Hlog & _ & _ & _ & Hprint).
  split; [exact Hlog|exact Hprint].
Defined.

Lemma elem_of_all_maps resources p :
  p ∈ all_maps resources <->
  exists res k,
    res ∈ resources /\
    k ∈ dom (terraform.Attributes (InstanceState res)) /\
    HasSuffix k ".%" = true /\
    p = strip_indices (TrimSuffix k ".%").
Proof.
  unfold all_maps. rewrite elem_of_union_list. split.
  - intros (X & HX & Hp). apply list_elem_of_fmap in HX.
    destruct HX as (res & -> & Hres). apply elem_of_maps_of in Hp.
    destruct Hp as (k & Hp). exists res, k. tauto.
  - intros (res & k & Hres & Hk). eexists. split.
    + apply list_elem_of_fmap. exists res. split; [reflexivity|exact Hres].
    + apply elem_of_maps_of. exists k. exact Hk.
Qed.

Lemma mapsObjects_assemble order resources :
  valid_order order ->
  mapsObjects (assemble order resources)
  = all_maps (first_occurrences [] resources).
Proof.
  intros Hv. unfold assemble.
  rewrite (assemble_from_valid order resources 0 _ Hv).
  destruct (assemble_duplicates resources empty_assembly []
              seen_registered_empty) as (_ & _ & _ & H4).
  rewrite H4. apply (right_id_L ∅ (∪)).
Qed.

End AssemblerProofs.

Module MapShapeProofs.
Import GoStrings Rewriter Assembler RewriterProofs AssemblerProofs.

(** [terraform12Adjustments] line by line, in terms of the stack that the
    code keeps.  A line that matches [<key> = {] is left as it is when the
    dotted path made of the keys on that stack and of its own key is in
    the set of map paths, and has its [ = {] replaced by [ {] otherwise,
    which for a line that ends with it and has no other equals sign gives
    [<key> {]; every other line is left as it is.  The set that
    [HclPrintResource] passes holds, for every resource that is the first
    of its type and name and every attribute key of it that ends in the
    map-count suffix, the key without the suffix and without its indices,
    and nothing else. *)
Lemma terraform12Adjustments_by_its_stack
    order resources formatted maps i line :
  valid_order order ->
  Split formatted LF !! i = Some line ->
  let lines := Split formatted LF in
  terraform12Adjustments formatted maps = Join (adjust12 maps [] lines) LF /\
  adjust12 maps [] lines !! i
  = Some (if singletonListFix line
          then if decide (path_of_line lines i line ∈ maps)
               then line
               else ReplaceAll line " = {" " {"
          else line) /\
  (forall pre,
     line = pre +:+ " = {" -> all_bytes no_equals pre = true ->
     ReplaceAll line " = {" " {" = pre +:+ " {") /\
  (forall p,
     p ∈ mapsObjects (assemble order resources) <->
     exists res k,
       res ∈ first_occurrences [] resources /\
       k ∈ dom (terraform.Attributes (InstanceState res)) /\
       HasSuffix k ".%" = true /\
       p = strip_indices (TrimSuffix k ".%")).
Proof.
  intros Hv Hi lines. split; [reflexivity|]. split; [|split].
  - apply (adjust12_lookup maps lines [] i line Hi).
  - intros pre -> Hpre. apply ReplaceAll_opening_line, Hpre.
  - intros p. rewrite (mapsObjects_assemble order resources Hv).
    apply elem_of_all_maps.
Qed.

Example tags_registered :
  mapsObjects (assemble sorted_order [Examples.tags_resource])
  = {[ "tags"; "rule.labels" ]}.
Proof. vm_compute. reflexivity. Qed.

Lemma terraform12Adjustments_by_its_stack_example :
  Split (Join Examples.tags_lines LF) LF !! 1%nat = Some "  tags = {" /\
  adjust12 (mapsObjects (assemble sorted_order [Examples.tags_resource])) []
    (Split (Join Examples.tags_lines LF) LF) !! 1%nat
  = Some "  tags = {" /\
  adjust12 (mapsObjects (assemble sorted_order [Examples.tags_resource])) []
    (Split (Join Examples.tags_lines LF) LF) !! 4%nat
  = Some "  rule {".
Proof.
  split; [reflexivity|]. split.
  - destruct (terraform12Adjustments_by_its_stack sorted_order
                [Examples.tags_resource] (Join Examples.tags_lines LF)
                (mapsObjects (assemble sorted_order [Examples.tags_resource]))
                1 "  tags = {" sorted_order_valid eq_refl) as (_ & H & _).
    rewrite H. vm_compute. reflexivity.
  - vm_compute. reflexivity.
Qed.

(** C6 fails on a map that comes after a block holding an empty map on one
    line.  The line [labels = {}] matches [<key> = {] and pushes its key,
    the closing brace of the rule pops that key instead of the key of the
    rule, and the stack still holds [rule] when the code reaches
    [tags = {].  No key encloses that line and the path [tags] is in the
    set that [HclPrintResource] registers for the resource, but the code
    looks up [rule.tags] and rewrites the map to [tags {]. *)
Theorem map_after_one_line_map_is_rewritten :
  let maps := mapsObjects (assemble sorted_order [Examples.tags_resource]) in
  let lines := Examples.rule_tags_lines in
  Split (Join lines LF) LF = lines /\
  lines !! 4%nat = Some "  tags = {" /\
  singletonListFix "  tags = {" = true /\
  enclosing_keys lines 4 = [] /\
  nesting_path lines 4 "  tags = {" = "tags" /\
  "tags" ∈ maps /\
  path_of_line lines 4 "  tags = {" = "rule.tags" /\
  ("rule.tags" ∉ maps) /\
  terraform12Adjustments (Join lines LF) maps
  = Join (<[1%nat := "  rule {"]> (<[4%nat := "  tags {"]> lines)) LF.
Proof.
  intros maps lines. subst maps.
  split; [vm_compute; reflexivity|]. split; [reflexivity|].
  split; [vm_compute; reflexivity|]. split; [vm_compute; reflexivity|].
  split; [vm_compute; reflexivity|]. rewrite tags_registered.
  split; [apply elem_of_union; left; apply elem_of_singleton; reflexivity|].
  split; [vm_compute; reflexivity|]. split.
  - intros [H|H]%elem_of_union; apply elem_of_singleton in H; discriminate.
  - vm_compute. reflexivity.
Qed.

End MapShapeProofs.

(* ===================================================================== *)
(** * Part III: further properties of the code                            *)
(* ===================================================================== *)

Module SanitizeMore.
Import GoStrings Sanitize SanitizeProofs.

Lemma is_safe_ascii c : is_safe c = true -> is_ascii c = true.
Proof.
  unfold is_ascii. intros H. destruct (N_of_ascii c <? 128)%N eqn:E; [reflexivity|].
  rewrite (unsafe_ascii_high c E) in H. discriminate.
Qed.

Lemma all_safe_all_ascii s : all_bytes is_safe s = true -> all_bytes is_ascii s = true.
Proof.
  induction s as [|c s IH]; [reflexivity|]. cbn [all_bytes].
  intros [Hc Hs]%andb_true_iff. rewrite (is_safe_ascii c Hc), (IH Hs). reflexivity.
Qed.

Lemma escape_ascii_bytes_safe s :
  all_bytes is_safe s = true -> escape_ascii_bytes s = s.
Proof.
  induction s as [|c s IH]; [reflexivity|]. cbn [all_bytes escape_ascii_bytes].
  intros [Hc Hs]%andb_true_iff. unfold is_safe in Hc.
  apply negb_true_iff in Hc. rewrite Hc, (IH Hs). reflexivity.
Qed.

Lemma replace_unsafe_fixed s :
  all_bytes is_safe s = true -> replace_unsafe s = s.
Proof.
  intros H. rewrite (replace_unsafe_ascii_name s (all_safe_all_ascii s H)).
  apply escape_ascii_bytes_safe, H.
Qed.

Lemma escape_ascii_bytes_app s t :
  escape_ascii_bytes (s +:+ t) = escape_ascii_bytes s +:+ escape_ascii_bytes t.
Proof.
  induction s as [|c s IH]; [reflexivity|].
  change (String c s +:+ t) with (String c (s +:+ t)).
  cbn [escape_ascii_bytes]. rewrite IH.
  destruct (unsafe_ascii c); cbn; reflexivity.
Qed.

Lemma all_bytes_app' p s t :
  all_bytes p s = true -> all_bytes p t = true -> all_bytes p (s +:+ t) = true.
Proof. intros Hs Ht. rewrite all_bytes_app, Hs, Ht. reflexivity. Qed.

Lemma length_append s t : len (s +:+ t) = (len s + len t)%nat.
Proof.
  induction s as [|c s IH]; [reflexivity|].
  change (S (len (s +:+ t)) = S (len s + len t)). f_equal. exact IH.
Qed.

(** X1: the names that [TfSanitize] only prefixes are the names made of
    safe bytes, and a sanitised name is one of them: sanitising it again
    adds the prefix again and changes nothing else. *)
Theorem TfSanitize_fixed_names (name : string) :
  (TfSanitize name = "tfer--" +:+ name <-> all_bytes is_safe name = true) /\
  TfSanitize (TfSanitize name) = "tfer--" +:+ TfSanitize name.
Proof.
  assert (Hfix : forall s, all_bytes is_safe s = true ->
                           TfSanitize s = "tfer--" +:+ s).
  { intros s Hs. unfold TfSanitize. rewrite (replace_unsafe_fixed s Hs).
    reflexivity. }
  split; [split|].
  - unfold TfSanitize. intros H. injection H as H.
    change (replace_unsafe name = name) in H.
    rewrite <- H. apply replace_unsafe_safe.
  - apply Hfix.
  - apply Hfix. unfold TfSanitize.
    rewrite all_bytes_app, replace_unsafe_safe. reflexivity.
Qed.

(** X2: the escape can be written in a name itself: for an unsafe ASCII
    byte [c] between two ASCII texts, the name with [c] and the name with
    the escape of [c] in its place are different names with the same
    sanitised name. *)
Theorem TfSanitize_collides (s t : string) (c : ascii) :
  all_bytes is_ascii s = true ->
  all_bytes is_ascii t = true ->
  is_ascii c = true ->
  unsafe_ascii c = true ->
  s +:+ String c t <> s +:+ escapeRune (String c "") +:+ t /\
  TfSanitize (s +:+ String c t)
  = TfSanitize (s +:+ escapeRune (String c "") +:+ t).
Proof.
  intros Hs Ht Hc Hu.
  assert (He : all_bytes is_safe (escapeRune (String c "")) = true)
    by apply escapeRune_safe.
  split.
  - intros H. apply (f_equal len) in H.
    assert (H6 : len (escapeRune (String c "")) = 6%nat) by reflexivity.
    rewrite !length_append, H6 in H.
    change (len (String c t)) with (S (len t)) in H. lia.
  - unfold TfSanitize. f_equal.
    rewrite !replace_unsafe_ascii_name.
    + rewrite !escape_ascii_bytes_app. cbn [escape_ascii_bytes]. rewrite Hu.
      rewrite (escape_ascii_bytes_safe _ He). reflexivity.
    + apply all_bytes_app'; [exact Hs|].
      apply all_bytes_app'; [apply all_safe_all_ascii, He|exact Ht].
    + apply all_bytes_app'; [exact Hs|]. cbn [all_bytes]. rewrite Hc, Ht.
      reflexivity.
Qed.

Lemma TfSanitize_collides_witness :
  TfSanitize "a.b" = TfSanitize "a-002E-b".
Proof.
  apply (TfSanitize_collides "a" "b" "."); reflexivity.
Defined.

End SanitizeMore.

Module PrunerMore.
Import configschema Pruner PrunerMeasure PrunerProofs.

Lemma value_size_elem e l : e ∈ l -> (value_size e < value_size (VSlice l))%nat.
Proof.
  cbn [value_size].
  induction 1 as [e l|e x l _ IH]; cbn [map list_sum fold_right];
    change (foldr Init.Nat.add 0%nat (map value_size l))
      with (list_sum (map value_size l)); lia.
Qed.

Lemma value_size_lookup (m : gmap string Value) k x :
  m !! k = Some x -> (value_size x < value_size (VMap m))%nat.
Proof.
  intros H. cbn [value_size].
  rewrite (map_fold_delete_L _ _ k x m); [lia| |exact H].
  intros. lia.
Qed.

Lemma clean_item_idempotent_bounded n : forall v blockSchema,
  (value_size v < n)%nat ->
  clean_item (clean_item v blockSchema) blockSchema = clean_item v blockSchema.
Proof.
  induction n as [|n IH]; intros v bs Hn; [lia|].
  destruct v as [| | | | | | |m]; try reflexivity.
  rewrite !clean_item_map. f_equal. apply map_eq. intros k.
  rewrite !lookup_clean.
  destruct (m !! k) as [x|] eqn:Hk; [|reflexivity]. cbn [mbind option_bind].
  destruct (clean_entry clean_item bs k x) as [x'|] eqn:He; [|reflexivity].
  cbn [mbind option_bind].
  pose proof (value_size_lookup m k x Hk) as Hx.
  unfold clean_entry in *.
  destruct (Attributes bs !! k) as [a|].
  - destruct (Optional a && is_zero x) eqn:Hz; [discriminate|].
    injection He as <-.
    destruct (BlockTypes bs !! k) as [b|];
      [destruct x as [| | | | |l| |]|]; rewrite ?Hz; cbn [is_zero];
      rewrite ?andb_false_r; try reflexivity.
    do 2 f_equal. rewrite map_map. apply map_ext_in. intros e He.
    apply IH. apply list_elem_of_In in He.
    pose proof (value_size_elem e l He). lia.
  - injection He as <-. cbn [andb].
    destruct (BlockTypes bs !! k) as [b|];
      [destruct x as [| | | | |l| |]|]; try reflexivity.
    do 2 f_equal. rewrite map_map. apply map_ext_in. intros e He.
    apply IH. apply list_elem_of_In in He.
    pose proof (value_size_elem e l He). lia.
Qed.

Lemma cleanOptionalEmptyAttributes_idempotent data blockSchema :
  cleanOptionalEmptyAttributes
    (cleanOptionalEmptyAttributes data blockSchema) blockSchema
  = cleanOptionalEmptyAttributes data blockSchema.
Proof.
  pose proof (clean_item_idempotent_bounded
                (S (value_size (VMap data))) (VMap data) blockSchema
                ltac:(lia)) as H.
  rewrite !clean_item_map in H. congruence.
Qed.

Lemma CleanUp_idempotent r resourceSchema :
  CleanUpOptionalEmptyAttributes
    (CleanUpOptionalEmptyAttributes r resourceSchema) resourceSchema
  = CleanUpOptionalEmptyAttributes r resourceSchema.
Proof.
  unfold CleanUpOptionalEmptyAttributes.
  destruct (Item r) as [item|] eqn:Hi, resourceSchema as [schema|];
    rewrite ?Hi; try reflexivity.
  cbn [Item set_Item]. unfold set_Item. cbn. f_equal. f_equal.
  destruct (Attributes schema !! "project") as [a|];
    [destruct (Computed a)|];
    rewrite ?cleanOptionalEmptyAttributes_idempotent; try reflexivity.
  rewrite delete_id; [apply cleanOptionalEmptyAttributes_idempotent|].
  rewrite lookup_clean, lookup_delete_eq. reflexivity.
Qed.

Lemma ParseTFstate_unchanged r parser impliedType r' e :
  ParseTFstate r parser impliedType = Returned (r', Some e) -> r' = r.
Proof.
  unfold ParseTFstate.
  destruct (parser impliedType) as [[[attributes|] [e'|]]|];
    cbn [mbind outcome_bind]; try discriminate; try congruence.
  destruct (decide _); discriminate.
Qed.

Lemma ParseTFstate_item r parser impliedType r' :
  ParseTFstate r parser impliedType = Returned (r', None) ->
  exists item, Item r' = Some item.
Proof.
  unfold ParseTFstate.
  destruct (parser impliedType) as [[[attributes|] [e'|]]|];
    cbn [mbind outcome_bind]; try discriminate.
  - intros [= <-]. cbn. eauto.
  - destruct (decide _); [|discriminate]. intros [= <-]. cbn. eauto.
Qed.

(** X3: pruning is idempotent: an item that has been pruned with a schema
    is left as it is by a second pruning with that schema, at every level,
    for [cleanOptionalEmptyAttributes] and, with the deletion of the
    computed [project], for [CleanUpOptionalEmptyAttributes]. *)
Theorem pruning_is_idempotent data blockSchema r resourceSchema :
  cleanOptionalEmptyAttributes
    (cleanOptionalEmptyAttributes data blockSchema) blockSchema
  = cleanOptionalEmptyAttributes data blockSchema /\
  CleanUpOptionalEmptyAttributes
    (CleanUpOptionalEmptyAttributes r resourceSchema) resourceSchema
  = CleanUpOptionalEmptyAttributes r resourceSchema.
Proof.
  split; [apply cleanOptionalEmptyAttributes_idempotent|apply CleanUp_idempotent].
Qed.

(** X4: when [ParseTFstate] returns the parser's error, the resource is as
    it was.  When it returns no error, the item is a map that is not nil:
    it holds every additional field with its value, also over a parsed
    attribute of the same name, and every other parsed attribute; the rest
    of the resource is as it was. *)
Theorem ParseTFstate_merges r parser impliedType r' err :
  ParseTFstate r parser impliedType = Returned (r', err) ->
  match err with
  | Some _ => r' = r
  | None =>
      exists (parsed : option (gmap string Value)) (item : gmap string Value),
        parser impliedType = Returned (parsed, None) /\
        r' = set_Item r (Some item) /\
        (forall key value,
           AdditionalFields r !! key = Some value -> item !! key = Some value) /\
        (forall key,
           AdditionalFields r !! key = None ->
           item !! key =
           match parsed with
           | Some attributes => attributes !! key
           | None => None
           end)
  end.
Proof.
  unfold ParseTFstate.
  destruct (parser impliedType) as [[[attributes|] [e|]]|] eqn:Hp;
    cbn [mbind outcome_bind]; try discriminate.
  - intros [= <- <-]. reflexivity.
  - intros [= <- <-]. exists (Some attributes), (AdditionalFields r ∪ attributes).
    split; [reflexivity|]. split; [reflexivity|]. split.
    + intros key value H. apply lookup_union_Some_l, H.
    + intros key H. cbn. apply lookup_union_r, H.
  - intros [= <- <-]. reflexivity.
  - destruct (decide (AdditionalFields r = ∅)) as [He|]; [|discriminate].
    intros [= <- <-]. exists None, ∅.
    split; [reflexivity|]. split; [reflexivity|]. split.
    + intros key value H. rewrite He, lookup_empty in H. discriminate.
    + intros key _. reflexivity.
Qed.

Lemma ParseTFstate_merges_witness :
  exists (parsed : option (gmap string Value)) (item : gmap string Value),
    gcs_parser ∅ [] [] gcs_schema = Returned (parsed, None) /\
    item !! "name" = Some (VString "renamed").
Proof.
  destruct (ParseTFstate_merges MoreExamples.labelled_resource (gcs_parser ∅ [] [])
              gcs_schema
              (set_Item MoreExamples.labelled_resource
                 (Some (AdditionalFields MoreExamples.labelled_resource ∪
                        {[ "name" := VString "b";
                           "lifecycle_rule" :=
                             VSlice [VMap {[ "condition" :=
                               VSlice [VMap {[ "age" := VString "3";
                                    "created_before" := VString "" ]}] ]}] ]})))
              None eq_refl)
    as (parsed & item & Hp & _ & Ha & _).
  exists parsed, item. split; [exact Hp|]. apply Ha. reflexivity.
Defined.

(** X5: [ConvertTFstate] panics before the parser is consulted when a
    pattern of [IgnoreKeys], or a pattern of [AllowEmptyValues] that is not
    empty, does not compile.  When it returns an error the resource is as
    it was; when it returns none, the item is not nil and is pruned:
    pruning the resource again with the schema of its type changes
    nothing.  When the provider has no schema for the type of the
    resource, nothing is pruned: the outcome is that of [ParseTFstate]
    alone, with the empty object type. *)
Theorem ConvertTFstate_outcomes
    regexp_compiles NewFlatmapParser ResourceTypes r :
  let patterns :=
    (IgnoreKeys r ++ filter (fun pattern => pattern <> "") (AllowEmptyValues r))%list in
  let schema := ResourceTypes !! terraform.ResourceType (InstanceInfo r) in
  let parser :=
    NewFlatmapParser (terraform.Attributes (InstanceState r)) (IgnoreKeys r)
      (filter (fun pattern => pattern <> "") (AllowEmptyValues r)) in
  (forallb regexp_compiles patterns = false ->
   ConvertTFstate regexp_compiles NewFlatmapParser ResourceTypes r
   = Panicked BadPattern) /\
  (forallb regexp_compiles patterns = true -> schema = None ->
   ConvertTFstate regexp_compiles NewFlatmapParser ResourceTypes r
   = ParseTFstate r parser (mkBlock ∅ ∅)) /\
  (forall r' err,
     ConvertTFstate regexp_compiles NewFlatmapParser ResourceTypes r
     = Returned (r', err) ->
     match err with
     | Some _ => r' = r
     | None =>
         is_Some (Item r') /\
         CleanUpOptionalEmptyAttributes r' schema = r'
     end).
Proof.
  intros patterns schema parser. unfold ConvertTFstate. cbv zeta.
  fold patterns. fold schema. fold parser.
  split; [|split].
  - intros ->. reflexivity.
  - intros -> ->. cbn [negb].
    change (default (mkBlock ∅ ∅) None) with (mkBlock ∅ ∅).
    destruct (ParseTFstate r parser (mkBlock ∅ ∅)) as [[r1 [e|]]|] eqn:Hp;
      cbn [mbind outcome_bind]; try reflexivity.
    destruct (ParseTFstate_item _ _ _ _ Hp) as [item Hi].
    unfold CleanUpOptionalEmptyAttributes. rewrite Hi. reflexivity.
  - intros r' err. destruct (forallb regexp_compiles patterns); [|discriminate].
    cbn [negb].
    destruct (ParseTFstate r parser _) as [[r1 [e|]]|] eqn:Hp;
      cbn [mbind outcome_bind]; try discriminate.
    + intros [= <- <-]. apply (ParseTFstate_unchanged _ _ _ _ _ Hp).
    + intros [= <- <-]. split.
      * destruct (ParseTFstate_item _ _ _ _ Hp) as [item Hi].
        unfold CleanUpOptionalEmptyAttributes. rewrite Hi.
        destruct schema; cbn; eauto.
      * apply CleanUp_idempotent.
Qed.

Lemma ConvertTFstate_outcomes_witness :
  ConvertTFstate (fun _ => true) gcs_parser ∅ gcs_resource
  = ParseTFstate gcs_resource
      (gcs_parser (terraform.Attributes (InstanceState gcs_resource)) []
         ["labels."; "created_before"])
      (mkBlock ∅ ∅).
Proof.
  exact (proj1 (proj2 (ConvertTFstate_outcomes (fun _ => true) gcs_parser ∅
                         gcs_resource)) eq_refl eq_refl).
Defined.

End PrunerMore.

Module ResourceMore.
Import GoStrings Sanitize ResourceOps SanitizeProofs.

Lemma TfSanitize_all_safe name : all_bytes is_safe (TfSanitize name) = true.
Proof.
  change (TfSanitize name) with ("tfer--" +:+ replace_unsafe name).
  rewrite all_bytes_app, replace_unsafe_safe. reflexivity.
Qed.

Lemma append_inj_l s a b : s +:+ a = s +:+ b -> a = b.
Proof.
  induction s as [|c s IH]; [exact (fun H => H)|].
  intros H. apply IH. change (String c (s +:+ a) = String c (s +:+ b)) in H.
  congruence.
Qed.

Lemma append_inj_r t : forall a b, a +:+ t = b +:+ t -> a = b.
Proof.
  assert (Hlen : forall c s, t <> String c (s +:+ t)).
  { intros c s H. apply (f_equal String.length) in H.
    change (len t = S (len (s +:+ t))) in H.
    rewrite SanitizeMore.length_append in H. lia. }
  induction a as [|c a IH]; intros [|d b] H.
  - reflexivity.
  - exfalso. exact (Hlen d b H).
  - exfalso. exact (Hlen c a (eq_sym H)).
  - change (String c (a +:+ t) = String d (b +:+ t)) in H.
    injection H as -> H. f_equal. apply IH, H.
Qed.

(** X6: a resource made by [NewResource] carries a name of safe bytes that
    starts with [tfer--], and its address is the type, a dot and that name;
    its item is nil.  [ServiceName] is the type without the provider and an
    underscore in front, and the whole type when the type does not start
    that way; the key of the identifier of a resource made by
    [NewSimpleResource] is [id]. *)
Theorem NewResource_address
    (id resourceName resourceType provider service : string)
    (attributes : gmap string string) (allowEmptyValues : list string)
    (additionalFields : gmap string Value) :
  let r := NewResource id resourceName resourceType provider attributes
             allowEmptyValues additionalFields in
  (all_bytes is_safe (ResourceName r) = true /\
   HasPrefix (ResourceName r) "tfer--" = true /\
   terraform.Id (InstanceInfo r)
   = terraform.ResourceType (InstanceInfo r) +:+ "." +:+ ResourceName r /\
   Item r = None) /\
  ServiceName (NewResource id resourceName (provider +:+ "_" +:+ service)
                 provider attributes allowEmptyValues additionalFields)
  = service /\
  (HasPrefix resourceType (provider +:+ "_") = false ->
   ServiceName r = resourceType) /\
  GetIDKey (NewSimpleResource id resourceName resourceType provider
              allowEmptyValues) = "id".
Proof.
  intros r. split; [|split; [|split]].
  - split; [apply TfSanitize_all_safe|].
    split; [reflexivity|]. split; reflexivity.
  - unfold ServiceName. cbn [NewResource InstanceInfo Provider
                               terraform.ResourceType].
    replace (provider +:+ "_" +:+ service)
      with ((provider +:+ "_") +:+ service).
    + apply CanonicalizerProofs.TrimPrefix_app.
    + clear. induction provider as [|c p IH]; [reflexivity|].
      change (String c ((p +:+ "_") +:+ service)
              = String c (p +:+ "_" +:+ service)). f_equal. exact IH.
  - intros H. unfold ServiceName, TrimPrefix. subst r.
    cbn [NewResource InstanceInfo Provider terraform.ResourceType].
    rewrite H. reflexivity.
  - reflexivity.
Qed.

Lemma NewResource_address_witness :
  ServiceName (NewResource "b" "b" "aws-bucket" "google" ∅ [] ∅) = "aws-bucket".
Proof.
  exact (proj1 (proj2 (proj2
           (NewResource_address "b" "b" "aws-bucket" "google" "x" ∅ [] ∅)))
           eq_refl).
Defined.

Section FilterProperties.
Import ResourceFilter.

Variable WalkAndCheckField : string -> walked -> bool.
Variable WalkAndGet : string -> walked -> list Value.

Lemma existsb_value_is s values :
  existsb (value_is (VString s)) values = true <-> In s values.
Proof.
  rewrite existsb_exists. split.
  - intros (x & Hx & He). cbn in He. apply String.eqb_eq in He. congruence.
  - intros H. exists s. split; [exact H|]. cbn. apply String.eqb_refl.
Qed.

Lemma accepted_iff rf vals :
  accepted rf vals = true <->
  exists s acceptableValues,
    AcceptableValues rf = Some acceptableValues /\
    In s acceptableValues /\ In (VString s) vals.
Proof.
  unfold accepted. rewrite existsb_exists. split.
  - intros (val & Hv & He). apply existsb_exists in He as (s & Hs & He).
    destruct val; try discriminate. cbn in He. apply String.eqb_eq in He.
    subst. destruct (AcceptableValues rf) as [a|]; [|destruct Hs].
    exists s, a. auto.
  - intros (s & a & Ha & Hs & Hv). exists (VString s). split; [exact Hv|].
    rewrite Ha. apply existsb_value_is, Hs.
Qed.

(** X7: [Filter] accepts every resource of a service the filter is not
    applicable to.  For an applicable filter on the path [id], the resource
    is accepted exactly when its identifier is one of the acceptable
    values, so that a filter without acceptable values rejects it.  On
    another path, a filter whose acceptable values are nil accepts the
    resource when the field is found in the attributes or in the item, and
    a filter with acceptable values accepts it exactly when one of them is
    a string among the values of the attributes or, when the attributes
    give no value, among the values of the item. *)
Theorem Filter_decides (rf : ResourceFilter.t) (resource : Resource) :
  let attributes :=
    WalkedAttributes (terraform.Attributes (InstanceState resource)) in
  let item := WalkedItem (Item resource) in
  (IsApplicable rf (ResourceOps.ServiceName resource) = false ->
   Filter WalkAndCheckField WalkAndGet rf resource = true) /\
  (IsApplicable rf (ResourceOps.ServiceName resource) = true ->
   (FieldPath rf = "id" ->
    (Filter WalkAndCheckField WalkAndGet rf resource = true <->
     exists acceptableValues,
       AcceptableValues rf = Some acceptableValues /\
       In (terraform.ID (InstanceState resource)) acceptableValues)) /\
   (FieldPath rf <> "id" -> AcceptableValues rf = None ->
    Filter WalkAndCheckField WalkAndGet rf resource
    = WalkAndCheckField (FieldPath rf) attributes
      || WalkAndCheckField (FieldPath rf) item) /\
   (FieldPath rf <> "id" ->
    forall acceptableValues,
      AcceptableValues rf = Some acceptableValues ->
      (Filter WalkAndCheckField WalkAndGet rf resource = true <->
       exists s,
         In s acceptableValues /\
         In (VString s)
            (match WalkAndGet (FieldPath rf) attributes with
             | [] => WalkAndGet (FieldPath rf) item
             | vals => vals
             end)))).
Proof.
  intros attributes item. unfold Filter, ResourceOps.ServiceName.
  fold attributes. fold item. split.
  - intros ->. reflexivity.
  - intros ->. cbn [negb]. split; [|split].
    + intros ->. cbn [String.eqb Ascii.eqb Bool.eqb andb].
      change (String.eqb "id" "id") with true. cbv iota.
      rewrite accepted_iff. split.
      * intros (s & a & Ha & Hs & [[= ->]|[]]). eauto.
      * intros (a & Ha & Hs). exists (terraform.ID (InstanceState resource)), a.
        split; [exact Ha|]. split; [exact Hs|]. left. reflexivity.
    + intros Hp ->. apply String.eqb_neq in Hp. rewrite Hp.
      destruct (WalkAndCheckField (FieldPath rf) attributes); reflexivity.
    + intros Hp a Ha. apply String.eqb_neq in Hp. rewrite Hp, Ha.
      cbv zeta. rewrite accepted_iff.
      assert (Hv : (if (length (WalkAndGet (FieldPath rf) attributes) =? 0)%nat
                    then WalkAndGet (FieldPath rf) item
                    else WalkAndGet (FieldPath rf) attributes)
                   = match WalkAndGet (FieldPath rf) attributes with
                     | [] => WalkAndGet (FieldPath rf) item
                     | vals => vals
                     end)
        by (destruct (WalkAndGet (FieldPath rf) attributes); reflexivity).
      rewrite Hv. split.
      * intros (s & a' & Ha' & Hs & Hin). exists s. split; [congruence|exact Hin].
      * intros (s & Hs & Hin). exists s, a. auto.
Qed.

End FilterProperties.

Lemma Filter_decides_witness :
  ResourceFilter.Filter (fun _ _ => false) (fun _ _ => [])
    MoreExamples.id_filter
    Pruner.gcs_resource = true.
Proof.
  apply (proj1 (proj2 (Filter_decides (fun _ _ => false) (fun _ _ => [])
                         MoreExamples.id_filter Pruner.gcs_resource)
                  eq_refl) eq_refl).
  exists ["a"; "b"]. split; [reflexivity|]. right. left. reflexivity.
Defined.

Section IamMembers.
Import GCPService.

Variable ProviderName : string.

Lemma memberResourceID_inj resourceID role conditionTitle member1 member2 :
  memberResourceID resourceID role member1 conditionTitle
  = memberResourceID resourceID role member2 conditionTitle ->
  member1 = member2.
Proof.
  unfold memberResourceID.
  destruct (negb (String.eqb conditionTitle "")); intros H;
    do 4 apply append_inj_l in H.
  - apply append_inj_r in H. exact H.
  - exact H.
Qed.

(** X8: [CreateIamMemberResources] returns one resource for each member, in
    the order of the members, with a nil item and a name of safe bytes.
    The attributes of the caller win over the role and the member; with a
    condition title that is not empty the four condition attributes win
    over the attributes of the caller, and with an empty title the
    description and the expression of the condition are not looked at.
    Members that differ give identifiers that differ. *)
Theorem CreateIamMemberResources_members
    (resourceID resourceName resourceType : string)
    (attributes : gmap string string) (role : string) (members : list string)
    (conditionTitle conditionDescription conditionExpression : string) :
  let resources :=
    CreateIamMemberResources ProviderName resourceID resourceName resourceType
      attributes role members conditionTitle conditionDescription
      conditionExpression in
  length resources = length members /\
  (forall i member,
     members !! i = Some member ->
     exists r,
       resources !! i = Some r /\
       all_bytes is_safe (ResourceName r) = true /\
       Item r = None /\
       terraform.ID (InstanceState r)
       = memberResourceID resourceID role member conditionTitle /\
       terraform.Attributes (InstanceState r) !! "role"
       = Some (default role (attributes !! "role")) /\
       terraform.Attributes (InstanceState r) !! "member"
       = Some (default member (attributes !! "member")) /\
       (conditionTitle <> "" ->
        terraform.Attributes (InstanceState r) !! "condition.#" = Some "1" /\
        terraform.Attributes (InstanceState r) !! "condition.0.title"
        = Some conditionTitle /\
        terraform.Attributes (InstanceState r) !! "condition.0.description"
        = Some conditionDescription /\
        terraform.Attributes (InstanceState r) !! "condition.0.expression"
        = Some conditionExpression)) /\
  (conditionTitle = "" ->
   resources
   = CreateIamMemberResources ProviderName resourceID resourceName resourceType
       attributes role members "" "" "") /\
  (NoDup members ->
   NoDup (map (fun r => terraform.ID (InstanceState r)) resources)).
Proof.
  intros resources. subst resources. unfold CreateIamMemberResources.
  split; [apply length_map|]. split; [|split].
  - intros i member Hi. eexists. split.
    { rewrite list_lookup_fmap_Some. exists member. split; [reflexivity|exact Hi]. }
    cbn [NewResource ResourceName Item InstanceState terraform.ID
         terraform.Attributes].
    split; [apply TfSanitize_all_safe|]. split; [reflexivity|].
    split; [reflexivity|].
    assert (Hrole : (attributes ∪ ({[ "role" := role; "member" := member ]}
                       : gmap string string)) !! "role"
                    = Some (default role (attributes !! "role"))).
    { destruct (attributes !! "role") as [v|] eqn:Hr.
      - apply lookup_union_Some_l, Hr.
      - rewrite (lookup_union_r _ _ _ Hr). reflexivity. }
    assert (Hmember : (attributes ∪ ({[ "role" := role; "member" := member ]}
                         : gmap string string)) !! "member"
                      = Some (default member (attributes !! "member"))).
    { destruct (attributes !! "member") as [v|] eqn:Hr.
      - apply lookup_union_Some_l, Hr.
      - rewrite (lookup_union_r _ _ _ Hr). reflexivity. }
    unfold memberAttributes.
    destruct (String.eqb conditionTitle "") eqn:Ht; cbn [negb].
    + apply String.eqb_eq in Ht. split; [exact Hrole|].
      split; [exact Hmember|]. intros Hn. contradiction.
    + split; [|split].
      * rewrite !lookup_insert_ne by discriminate. exact Hrole.
      * rewrite !lookup_insert_ne by discriminate. exact Hmember.
      * intros _. split; [|split; [|split]].
        -- rewrite !lookup_insert_ne by discriminate. apply lookup_insert_eq.
        -- rewrite !lookup_insert_ne by discriminate. apply lookup_insert_eq.
        -- rewrite lookup_insert_ne by discriminate. apply lookup_insert_eq.
        -- apply lookup_insert_eq.
  - intros ->. reflexivity.
  - intros Hnd. rewrite map_map.
    cbn [NewResource InstanceState terraform.ID].
    induction Hnd as [|member rest Hnotin Hnd IH]; [constructor|].
    cbn [map]. constructor; [|exact IH].
    intros Hin. apply Hnotin.
    apply (list_elem_of_fmap_1
             (fun x => memberResourceID resourceID role x conditionTitle))
      in Hin as (m & Hm & Hin).
    apply memberResourceID_inj in Hm. subst m. exact Hin.
Qed.

(** X9: [applyCustomProviderType] panics exactly when the item of one of
    the resources is nil; otherwise it returns the resources in their
    order, each with the provider name under the key [provider] of its item
    and nothing else changed. *)
Theorem applyCustomProviderType_outcomes
    (resources : list Resource) (providerName : string) :
  match applyCustomProviderType resources providerName with
  | Returned editedResources =>
      Forall (fun r => Item r <> None) resources /\
      Forall2 (fun r edited =>
                 exists item,
                   Item r = Some item /\
                   edited = set_Item r
                     (Some (<["provider" := VString providerName]> item)))
              resources editedResources
  | Panicked p =>
      p = NilMapWrite /\ Exists (fun r => Item r = None) resources
  end.
Proof.
  induction resources as [|r rest IH]; cbn [applyCustomProviderType].
  - split; constructor.
  - destruct (Item r) as [item|] eqn:Hi.
    + destruct (applyCustomProviderType rest providerName) as [edited|p];
        cbn [mbind outcome_bind].
      * destruct IH as [Hall H2]. split.
        -- constructor; [congruence|exact Hall].
        -- constructor; [|exact H2]. exists item. split; [exact Hi|reflexivity].
      * destruct IH as [-> Hex]. split; [reflexivity|].
        apply Exists_cons_tl, Hex.
    + split; [reflexivity|]. apply Exists_cons_hd, Hi.
Qed.

End IamMembers.

Lemma CreateIamMemberResources_members_witness :
  NoDup (map (fun r => terraform.ID (InstanceState r))
           (GCPService.CreateIamMemberResources "google" "p" "p"
              "google_project_iam_member" {[ "project" := "p" ]}
              "roles/viewer" ["user:a"; "user:b"] "" "" "")).
Proof.
  apply (CreateIamMemberResources_members "google" "p" "p"
           "google_project_iam_member" {[ "project" := "p" ]}
           "roles/viewer" ["user:a"; "user:b"] "" "" "").
  apply NoDup_cons. split.
  - intros [Heq|[]%elem_of_nil]%elem_of_cons. discriminate.
  - apply NoDup_singleton.
Defined.

End ResourceMore.

Module LinesMore.
Import GoStrings.

Lemma Split_cons c t :
  Split (String c t) LF
  = if Ascii.eqb (ascii_of_N 10) c then "" :: Split t LF
    else match Split t LF with
         | piece :: rest => String c piece :: rest
         | [] => [String c ""]
         end.
Proof.
  unfold Split. cbn [split_from HasPrefix LF].
  destruct (Ascii.eqb (ascii_of_N 10) c); reflexivity.
Qed.

Lemma Split_nonempty s : Split s LF <> [].
Proof.
  destruct s as [|c t]; [discriminate|]. rewrite Split_cons.
  destruct (Ascii.eqb _ c); [discriminate|].
  destruct (Split t LF); discriminate.
Qed.

Lemma Contains_cons c t :
  Contains (String c t) LF = Ascii.eqb (ascii_of_N 10) c || Contains t LF.
Proof.
  cbn [Contains HasPrefix LF]. rewrite andb_true_r. reflexivity.
Qed.

Lemma Join_cons x y l :
  Join (x :: y :: l) LF = x +:+ LF +:+ Join (y :: l) LF.
Proof. reflexivity. Qed.

Lemma Join_Split s : Join (Split s LF) LF = s.
Proof.
  induction s as [|c t IH]; [reflexivity|]. rewrite Split_cons.
  destruct (Ascii.eqb_spec (ascii_of_N 10) c) as [<-|_].
  - destruct (Split t LF) as [|y l] eqn:Hs; [destruct (Split_nonempty _ Hs)|].
    rewrite Join_cons, IH. reflexivity.
  - destruct (Split t LF) as [|y l] eqn:Hs; [destruct (Split_nonempty _ Hs)|].
    destruct l as [|z l].
    + cbn in IH. cbn. congruence.
    + rewrite Join_cons in *.
      change (String c (y +:+ LF +:+ Join (z :: l) LF) = String c t).
      congruence.
Qed.

Lemma Split_pieces s : Forall (fun piece => Contains piece LF = false) (Split s LF).
Proof.
  induction s as [|c t IH]; [repeat constructor|]. rewrite Split_cons.
  destruct (Ascii.eqb (ascii_of_N 10) c) eqn:Hc.
  - constructor; [reflexivity|exact IH].
  - destruct (Split t LF) as [|y l]; [repeat constructor|].
    + rewrite Contains_cons, Hc. reflexivity.
    + inversion IH; subst. constructor; [|assumption].
      rewrite Contains_cons, Hc. assumption.
Qed.

Lemma Split_line_feed s :
  Contains s LF = true -> (2 <= length (Split s LF))%nat.
Proof.
  induction s as [|c t IH]; [discriminate|].
  rewrite Contains_cons, Split_cons.
  destruct (Ascii.eqb (ascii_of_N 10) c); cbn [orb].
  - intros _. pose proof (Split_nonempty t).
    destruct (Split t LF); [contradiction|cbn; lia].
  - intros H. specialize (IH H).
    destruct (Split t LF); cbn in *; lia.
Qed.

Lemma Split_app_line piece s :
  Contains piece LF = false ->
  Split (piece +:+ LF +:+ s) LF = piece :: Split s LF.
Proof.
  induction piece as [|c p IH].
  - intros _. change ("" +:+ LF +:+ s) with (String (ascii_of_N 10) s).
    rewrite Split_cons. reflexivity.
  - rewrite Contains_cons. intros [Hc Hp]%orb_false_iff.
    change (String c p +:+ LF +:+ s) with (String c (p +:+ LF +:+ s)).
    rewrite Split_cons, Hc, (IH Hp). reflexivity.
Qed.

Lemma Split_single piece :
  Contains piece LF = false -> Split piece LF = [piece].
Proof.
  induction piece as [|c p IH]; [reflexivity|].
  rewrite Contains_cons. intros [Hc Hp]%orb_false_iff.
  rewrite Split_cons, Hc, (IH Hp). reflexivity.
Qed.

Lemma Split_Join lines :
  lines <> [] ->
  Forall (fun piece => Contains piece LF = false) lines ->
  Split (Join lines LF) LF = lines.
Proof.
  intros Hne H. induction H as [|x l Hx Hl IH]; [contradiction|].
  destruct l as [|y l]; [apply Split_single, Hx|].
  rewrite Join_cons, (Split_app_line _ _ Hx), IH by discriminate.
  reflexivity.
Qed.

(** [Split] and [Join] on the line feed are inverse to each other, as the
    rewriting passes use them: joining the lines of a text gives the text;
    the lines hold no line feed and there is at least one; and splitting
    the join of one or more such lines gives the lines. *)
Lemma lines_round_trip (s : string) (lines : list string) :
  Join (Split s LF) LF = s /\
  Split s LF <> [] /\
  Forall (fun piece => Contains piece LF = false) (Split s LF) /\
  (lines <> [] ->
   Forall (fun piece => Contains piece LF = false) lines ->
   Split (Join lines LF) LF = lines).
Proof.
  split; [apply Join_Split|]. split; [apply Split_nonempty|].
  split; [apply Split_pieces|]. apply Split_Join.
Qed.

Lemma lines_round_trip_witness :
  Split (Join ["a"; ""; "b"] LF) LF = ["a"; ""; "b"].
Proof.
  apply (lines_round_trip "" ["a"; ""; "b"]); [discriminate|].
  repeat constructor.
Defined.

End LinesMore.

Module RewriterMore.
Import GoStrings Rewriter RewriterProofs LinesMore.

Lemma adjust12_no_match mapsObjects lines : forall prefix,
  Forall (fun line => singletonListFix line = false) lines ->
  adjust12 mapsObjects prefix lines = lines.
Proof.
  induction lines as [|line rest IH]; intros prefix H; [reflexivity|].
  inversion H as [|? ? Hl Hrest]; subst. cbn [adjust12]. rewrite Hl.
  cbn [negb]. destruct (endBraceRe line && _); f_equal; apply IH, Hrest.
Qed.

Lemma adjust13_skip pre lines :
  Forall (fun line => requiredProvidersRe line = false) pre ->
  adjust13 (pre ++ lines)%list
  = (rest ← adjust13 lines; Returned (pre ++ rest)%list).
Proof.
  induction 1 as [|line pre Hl _ IH].
  - cbn [app]. destruct (adjust13 lines); reflexivity.
  - change ((line :: pre) ++ lines)%list with (line :: (pre ++ lines))%list.
    cbn [adjust13]. rewrite Hl, IH.
    destruct (adjust13 lines); reflexivity.
Qed.

Lemma innerBlock_closed body closing post :
  Forall (fun line => endBraceRe line = false) body ->
  endBraceRe closing = true ->
  innerBlock (body ++ closing :: post)%list
  = Returned (map (fun line => TAB +:+ line) body, closing :: post).
Proof.
  intros Hb Hc. induction Hb as [|line body Hl _ IH].
  - cbn [app innerBlock]. rewrite Hc. reflexivity.
  - change ((line :: body) ++ closing :: post)%list
      with (line :: (body ++ closing :: post))%list.
    cbn [innerBlock]. rewrite Hl, IH. reflexivity.
Qed.

Lemma stack_skip block : forall prefix,
  Forall (fun line => singletonListFix line = false /\ endBraceRe line = false)
         block ->
  fold_left stack_step block prefix = prefix.
Proof.
  induction block as [|line rest IH]; intros prefix H; [reflexivity|].
  inversion H as [|? ? [Hf He] Hrest]; subst. cbn [fold_left].
  unfold stack_step at 2. rewrite Hf, He. cbn [andb]. apply IH, Hrest.
Qed.

(** X10: a text none of whose lines matches [^\s*\w+ = {] comes out of
    [terraform12Adjustments] as it went in, whatever the set of map paths,
    and a text none of whose lines matches [required_providers ".*" {]
    comes out of [terraform13Adjustments] as it went in. *)
Theorem adjustments_leave_other_texts
    (formatted : string) (mapsObjects : gset string) :
  (Forall (fun line => singletonListFix line = false) (Split formatted LF) ->
   terraform12Adjustments formatted mapsObjects = formatted) /\
  (Forall (fun line => requiredProvidersRe line = false) (Split formatted LF) ->
   terraform13Adjustments formatted = Returned formatted).
Proof.
  split; intros H.
  - unfold terraform12Adjustments. rewrite (adjust12_no_match _ _ _ H).
    apply Join_Split.
  - unfold terraform13Adjustments.
    rewrite <- (app_nil_r (Split formatted LF)), (adjust13_skip _ _ H).
    cbn. rewrite app_nil_r, Join_Split. reflexivity.
Qed.

Lemma adjustments_leave_other_texts_witness :
  terraform12Adjustments Examples.unclosed_providers ∅
  = Examples.unclosed_providers.
Proof.
  apply (adjustments_leave_other_texts Examples.unclosed_providers ∅).
  vm_compute. repeat constructor.
Defined.

(** X11: on a text whose first line that matches
    [required_providers ".*" {] is followed by lines without a closing brace
    and then by a line with one, [terraform13Adjustments] writes
    [required_providers {] for the matching line, puts the provider name
    (the second blank-separated part of the line, without its quotes), the
    lines of the block behind one more tab and a closing brace into one
    entry, and keeps the other lines.  When the block is empty the line of
    its closing brace is lost and the entry is there twice. *)
Theorem required_providers_restructured
    (pre : list string) (line part : string) (body : list string)
    (closing : string) (post : list string) :
  Forall (fun l => Contains l LF = false)
         (pre ++ line :: body ++ closing :: post)%list ->
  Forall (fun l => requiredProvidersRe l = false) pre ->
  requiredProvidersRe line = true ->
  Split (TrimSpace line) " " !! 1%nat = Some part ->
  Forall (fun l => endBraceRe l = false) body ->
  endBraceRe closing = true ->
  let merged :=
    TAB +:+ TAB +:+ ReplaceAll part DQ "" +:+ " = {" +:+ LF
    +:+ Join (map (fun l => TAB +:+ l) body) LF +:+ LF
    +:+ TAB +:+ TAB +:+ "}" in
  terraform13Adjustments
    (Join (pre ++ line :: body ++ closing :: post)%list LF)
  = Returned
      (Join (pre ++ (TAB +:+ "required_providers {") :: merged ::
             match body with
             | [] => merged :: post
             | _ => closing :: post
             end)%list LF).
Proof.
  intros Hlines Hpre Hline Hpart Hbody Hclosing merged.
  unfold terraform13Adjustments.
  rewrite Split_Join; [|destruct pre; discriminate|exact Hlines].
  rewrite (adjust13_skip _ _ Hpre). cbn [adjust13].
  rewrite Hline, Hpart, (innerBlock_closed _ _ _ Hbody Hclosing).
  cbn [mbind outcome_bind]. fold merged.
  destruct body; reflexivity.
Qed.

Lemma required_providers_restructured_witness :
  terraform13Adjustments (Join MoreExamples.providers_lines LF)
  = Returned
      (Join [ "terraform {";
              TAB +:+ "required_providers {";
              TAB +:+ TAB +:+ "google = {" +:+ LF +:+
              TAB +:+ "    version = " +:+ DQ +:+ "4.0" +:+ DQ +:+ LF +:+
              TAB +:+ TAB +:+ "}";
              "  }";
              "}" ] LF).
Proof.
  apply (required_providers_restructured
           ["terraform {"]
           ("  required_providers " +:+ DQ +:+ "google" +:+ DQ +:+ " {")
           (DQ +:+ "google" +:+ DQ)
           ["    version = " +:+ DQ +:+ "4.0" +:+ DQ]
           "  }" ["}"]).
  - vm_compute. repeat constructor.
  - vm_compute. repeat constructor.
  - vm_compute. reflexivity.
  - vm_compute. reflexivity.
  - vm_compute. repeat constructor.
  - vm_compute. reflexivity.
Defined.

(** The provider name is read after [strings.TrimSpace], which also trims
    the white space that is not ASCII: behind a no-break space and a blank
    the second part of the line is still the quoted name. *)
Example provider_name_behind_no_break_space :
  Split (TrimSpace (String (ascii_of_N 194) (String (ascii_of_N 160)
                      (" required_providers " +:+ DQ +:+ "x" +:+ DQ +:+ " {"))))
        " " !! 1%nat
  = Some (DQ +:+ "x" +:+ DQ).
Proof. vm_compute. reflexivity. Qed.

(** X12: the stack of keys of [terraform12Adjustments] is popped by every
    line with a closing brace, and pushed only by the lines that match
    [^\s*\w+ = {].  A block written in block form inside a map therefore
    takes the key of the map off the stack: a line [<key> = {] that comes
    after the closing brace of such a block is looked up in the set of map
    paths without the key of the map around it. *)
Theorem block_form_pops_enclosing_key
    (mapsObjects : gset string) (outer : list string) (key : string)
    (block : list string) (closing line : string) (rest : list string) :
  Forall (fun l => singletonListFix l = false /\ endBraceRe l = false) block ->
  endBraceRe closing = true ->
  singletonListFix line = true ->
  adjust12 mapsObjects (outer ++ [key])%list
           (block ++ closing :: line :: rest)%list
    !! S (length block)
  = Some (if decide (Join (outer ++ [line_key line])%list "." ∈ mapsObjects)
          then line
          else ReplaceAll line " = {" " {").
Proof.
  intros Hblock Hclosing Hline.
  assert (Hi : (block ++ closing :: line :: rest)%list !! S (length block)
               = Some line).
  { rewrite lookup_app_r by lia.
    replace (S (length block) - length block)%nat with 1%nat by lia.
    reflexivity. }
  rewrite (adjust12_lookup _ _ _ _ _ Hi), Hline.
  assert (Ht : take (S (length block)) (block ++ closing :: line :: rest)%list
               = (block ++ [closing])%list).
  { rewrite take_app_ge by lia.
    replace (S (length block) - length block)%nat with 1%nat by lia.
    reflexivity. }
  rewrite Ht, fold_left_app, (stack_skip _ _ Hblock). cbn [fold_left].
  unfold stack_step. rewrite Hclosing, length_app. cbn [length].
  replace (0 <? length outer + 1)%nat with true
    by (symmetry; apply Nat.ltb_lt; lia).
  cbn [andb]. rewrite removelast_last. reflexivity.
Qed.

Lemma block_form_pops_enclosing_key_witness :
  adjust12 {[ "a.tags" ]} ["a"] MoreExamples.block_in_map !! 3%nat
  = Some "    tags {".
Proof.
  refine (eq_trans
            (block_form_pops_enclosing_key {[ "a.tags" ]} [] "a"
               ["    b {"; "      c = 1"] "    }" "    tags = {"
               ["    }"; "  }"] _ _ _) _).
  - vm_compute. repeat constructor.
  - vm_compute. reflexivity.
  - vm_compute. reflexivity.
  - vm_compute. reflexivity.
Defined.

End RewriterMore.

Module CanonicalizerMore.
Import GoStrings Sanitize token ast Canonicalizer Checks.
Import SanitizeProofs CanonicalizerProofs LinesMore.

(** *** Strings *)

Lemma append_assoc a b c : (a +:+ b) +:+ c = a +:+ b +:+ c.
Proof.
  induction a as [|x a IH]; [reflexivity|].
  change (String x ((a +:+ b) +:+ c) = String x (a +:+ b +:+ c)).
  f_equal. exact IH.
Qed.

Lemma slice_to_app s t : slice_to (len s) (s +:+ t) = s.
Proof.
  induction s as [|c s IH]; [destruct t; reflexivity|].
  change (String c (slice_to (len s) (s +:+ t)) = String c s).
  f_equal. exact IH.
Qed.

Lemma get_app_last s c t : String.get (len s) (s +:+ String c t) = Some c.
Proof. induction s as [|x s IH]; [reflexivity|exact IH]. Qed.

Lemma all_bytes_ext p q s :
  (forall c, p c = q c) -> all_bytes p s = all_bytes q s.
Proof.
  intros H. induction s as [|c s IH]; [reflexivity|].
  cbn [all_bytes]. rewrite H, IH. reflexivity.
Qed.

Lemma safe_not_quote c : is_safe c = true -> Ascii.eqb (ascii_of_N 34) c = false.
Proof. destruct c as [[] [] [] [] [] [] [] []]; try discriminate; reflexivity. Qed.

Lemma Join_app_last lines x :
  lines <> [] -> Join (lines ++ [x])%list LF = Join lines LF +:+ LF +:+ x.
Proof.
  induction lines as [|a l IH]; [contradiction|]. intros _.
  destruct l as [|b l]; [reflexivity|].
  change ((a :: b :: l) ++ [x])%list with (a :: b :: (l ++ [x]))%list.
  rewrite !Join_cons.
  change (b :: (l ++ [x]))%list with ((b :: l) ++ [x])%list.
  rewrite IH by discriminate. rewrite !append_assoc. reflexivity.
Qed.

(** *** The keys of an item *)

Lemma normalize_key_eq text :
  normalize_key text
  = if quoted text then
      if (len text <? 2)%nat then Panicked SliceBoundsOutOfRange
      else
        let v_str := slice_to (len text - 2) (slice_from 1 text) in
        Returned (if all_bytes is_safe v_str
                  then if HasPrefix v_str "--" then DQ +:+ v_str +:+ DQ
                       else v_str
                  else text)
    else Returned text.
Proof.
  unfold normalize_key, quoted. cbv zeta.
  rewrite (all_bytes_ext _ _ _ is_safe_safeChars). reflexivity.
Qed.

Lemma normalize_key_quoted inner :
  normalize_key (DQ +:+ inner +:+ DQ)
  = Returned (if all_bytes is_safe inner && negb (HasPrefix inner "--")
              then inner
              else DQ +:+ inner +:+ DQ).
Proof.
  rewrite normalize_key_eq.
  assert (Hlen : len (DQ +:+ inner +:+ DQ) = S (S (len inner))).
  { change (S (len (inner +:+ DQ)) = S (S (len inner))).
    rewrite SanitizeMore.length_append. cbn. lia. }
  assert (Hq : quoted (DQ +:+ inner +:+ DQ) = true).
  { unfold quoted, last_byte. rewrite Hlen.
    change (bool_decide
              (String.get (len inner) (inner +:+ String (ascii_of_N 34) "")
               = Some (ascii_of_N 34)) = true).
    apply bool_decide_eq_true_2, get_app_last. }
  rewrite Hq, Hlen. cbn [Nat.ltb Nat.leb]. cbv zeta.
  change (slice_from 1 (DQ +:+ inner +:+ DQ)) with (inner +:+ DQ).
  change (S (S (len inner)) - 2)%nat with (len inner - 0)%nat.
  rewrite Nat.sub_0_r, slice_to_app.
  destruct (all_bytes is_safe inner); [|reflexivity].
  destruct (HasPrefix inner "--"); reflexivity.
Qed.

Lemma normalize_key_unquoted text :
  HasPrefix text DQ = false -> normalize_key text = Returned text.
Proof.
  intros H. rewrite normalize_key_eq. unfold quoted. rewrite H.
  rewrite andb_false_r. reflexivity.
Qed.

(** X13: the first key of an item.  A key in double quotes loses them when
    all the bytes between them are letters, digits, underscores or hyphens
    and they do not start with two hyphens; every other key stays as it is,
    among them the keys without an opening quote.  A key that is one
    double quote makes [visitObjectItem] slice [text[1:0]].  Rewriting a
    rewritten key changes nothing. *)
Theorem normalize_key_cases (inner text text' : string) :
  normalize_key (DQ +:+ inner +:+ DQ)
  = Returned (if all_bytes is_safe inner && negb (HasPrefix inner "--")
              then inner
              else DQ +:+ inner +:+ DQ) /\
  normalize_key DQ = Panicked SliceBoundsOutOfRange /\
  (HasPrefix text DQ = false -> normalize_key text = Returned text) /\
  (normalize_key text = Returned text' ->
   normalize_key text' = Returned text').
Proof.
  split; [apply normalize_key_quoted|]. split; [reflexivity|].
  split; [apply normalize_key_unquoted|].
  intros H. pose proof H as H0. rewrite normalize_key_eq in H.
  destruct (quoted text) eqn:Hq.
  - destruct (len text <? 2)%nat eqn:Hl; [discriminate|]. cbv zeta in H.
    remember (slice_to (len text - 2) (slice_from 1 text)) as v_str eqn:Hv.
    clear Hv. destruct (all_bytes is_safe v_str) eqn:Hs.
    + destruct (HasPrefix _ "--") eqn:Hp.
      * injection H as <-. rewrite normalize_key_quoted, Hs, Hp. reflexivity.
      * injection H as <-. apply normalize_key_unquoted.
        destruct v_str as [|c r]; [reflexivity|].
        cbn [all_bytes] in Hs. apply andb_true_iff in Hs as [Hc _].
        cbn [HasPrefix DQ]. rewrite (safe_not_quote c Hc). reflexivity.
    + injection H as <-. exact H0.
  - injection H as <-. exact H0.
Qed.

Lemma normalize_key_cases_witness :
  normalize_key "name" = Returned "name".
Proof.
  exact (proj1 (proj2 (proj2 (normalize_key_cases "" "name" "")))
           eq_refl).
Defined.

(** *** Heredocs *)

Section Heredoc.

Variable E : Externals.

Lemma handleHeredoc_lines (t : token.Token) :
  let text := heredoc_text (Text t) in
  let lines := Split text LF in
  let jsonTest :=
    ReplaceAll (Join (take (length lines - 2) (drop 1 lines)) LF)
               (BS +:+ DQ) DQ in
  HasPrefix (Text t) (DQ +:+ "<<") = true ->
  Contains text LF = true ->
  handleHeredoc E t
  = Returned
      {| TokenType := 10; TokenPos := TokenPos t;
         Text :=
           match json_Unmarshal E jsonTest ≫= json_MarshalIndent E with
           | Some pretty =>
               hd "" lines +:+ LF +:+ pretty +:+ LF +:+ List.last lines ""
           | None => text
           end;
         JSON := JSON t |}.
Proof.
  intros text lines jsonTest Hp Hc. unfold handleHeredoc. rewrite Hp. cbv zeta.
  fold (heredoc_text (Text t)). fold text. fold lines.
  pose proof (Split_line_feed _ Hc) as Hlen. fold lines in Hlen.
  destruct (Nat.ltb_spec (length lines) 2) as [|_]; [lia|].
  fold jsonTest.
  assert (Hu : match json_Unmarshal E jsonTest with
               | Some tmp => Some tmp
               | None => json_Unmarshal E jsonTest
               end = json_Unmarshal E jsonTest)
    by (destruct (json_Unmarshal E jsonTest); reflexivity).
  rewrite Hu. destruct (json_Unmarshal E jsonTest) as [tmp|];
    cbn [mbind option_bind]; [|reflexivity].
  destruct (json_MarshalIndent E tmp) as [pretty|]; [|reflexivity].
  unfold set_Text, set_TokenType. cbn [TokenType TokenPos Text JSON].
  f_equal. f_equal.
  pose proof (Split_nonempty pretty) as Hne.
  pose proof (Join_Split pretty) as Hj.
  destruct (Split pretty LF) as [|y l]; [contradiction|].
  change ((hd "" lines :: y :: l) ++ [List.last lines ""])%list
    with (hd "" lines :: ((y :: l) ++ [List.last lines ""]))%list.
  change ((y :: l) ++ [List.last lines ""])%list
    with (y :: (l ++ [List.last lines ""]))%list.
  rewrite Join_cons.
  change (y :: (l ++ [List.last lines ""]))%list
    with ((y :: l) ++ [List.last lines ""])%list.
  rewrite Join_app_last by discriminate. rewrite Hj. reflexivity.
Qed.

(** X14: [handleHeredoc] leaves a literal that does not start with a
    double quote and [<<] as it is.  On one that does, it panics when the
    unwrapped text has no line feed; otherwise the token becomes a heredoc
    token whose text is the unwrapped text or, when the lines between the
    first and the last one parse as JSON and the value can be written
    back, the first line, the indented JSON and the last line. *)
Theorem handleHeredoc_outcomes (t : token.Token) :
  let text := heredoc_text (Text t) in
  let lines := Split text LF in
  let jsonTest :=
    ReplaceAll (Join (take (length lines - 2) (drop 1 lines)) LF)
               (BS +:+ DQ) DQ in
  (HasPrefix (Text t) (DQ +:+ "<<") = false ->
   handleHeredoc E t = Returned t) /\
  (HasPrefix (Text t) (DQ +:+ "<<") = true ->
   (Contains text LF = false ->
    handleHeredoc E t = Panicked SliceBoundsOutOfRange) /\
   (Contains text LF = true ->
    handleHeredoc E t
    = Returned
        {| TokenType := 10; TokenPos := TokenPos t;
           Text :=
             match json_Unmarshal E jsonTest
                   ≫= json_MarshalIndent E with
             | Some pretty =>
                 hd "" lines +:+ LF +:+ pretty +:+ LF +:+ List.last lines ""
             | None => text
             end;
           JSON := JSON t |})).
Proof.
  intros text lines jsonTest. split.
  - intros H. unfold handleHeredoc. rewrite H. reflexivity.
  - intros Hp. split.
    + intros Hc. apply handleHeredoc_single_line; assumption.
    + intros Hc. apply handleHeredoc_lines; assumption.
Qed.

End Heredoc.

Lemma handleHeredoc_outcomes_witness :
  handleHeredoc Examples.toy (Examples.string_token "plain")
  = Returned (Examples.string_token "plain").
Proof.
  exact (proj1 (handleHeredoc_outcomes Examples.toy
                  (Examples.string_token "plain")) eq_refl).
Defined.

End CanonicalizerMore.

Module OrderingMore.
Import GoStrings Sanitize token ast Canonicalizer.
Import CanonicalizerProofs.

(** *** Decimal indices *)

Lemma decimal_value_string_of_uint d : forall acc,
  decimal_value (Z.of_nat acc) (NilEmpty.string_of_uint d)
  = Z.of_nat (Nat.of_uint_acc d acc).
Proof.
  induction d as [|d IH|d IH|d IH|d IH|d IH|d IH|d IH|d IH|d IH|d IH];
    intros acc; [reflexivity|..];
    cbn [NilEmpty.string_of_uint decimal_value Nat.of_uint_acc];
    rewrite <- IH; f_equal; rewrite Nat.tail_mul_spec;
    cbn [N_of_ascii N_of_digits]; lia.
Qed.

Lemma digits_string_of_uint d :
  all_bytes is_digit (NilEmpty.string_of_uint d) = true.
Proof.
  induction d; [reflexivity|..];
    cbn [NilEmpty.string_of_uint all_bytes]; rewrite IHd; reflexivity.
Qed.

Lemma Atoi_ok_digits s :
  s <> "" -> all_bytes is_digit s = true ->
  (decimal_value 0 s <=? 9223372036854775807)%Z = true ->
  Atoi_ok s = true.
Proof.
  intros Hne Hd Hv. destruct s as [|c t]; [contradiction|].
  assert (Hc : is_digit c = true)
    by (cbn [all_bytes] in Hd; apply andb_true_iff in Hd; tauto).
  unfold Atoi_ok.
  destruct c as [[] [] [] [] [] [] [] []]; try discriminate Hc;
    cbv beta iota zeta; rewrite Hd, Hv; reflexivity.
Qed.

Lemma Atoi_ok_Itoa i :
  (Z.of_nat i <= 9223372036854775807)%Z -> Atoi_ok (Itoa i) = true.
Proof.
  intros Hi. unfold Itoa. apply Atoi_ok_digits.
  - pose proof (DecimalFacts.unorm_nonnil (Nat.to_uint i)) as Hn.
    rewrite <- DecimalNat.Unsigned.to_of, DecimalNat.Unsigned.of_to in Hn.
    destruct (Nat.to_uint i); [contradiction|discriminate..].
  - apply digits_string_of_uint.
  - change 0%Z with (Z.of_nat 0). rewrite decimal_value_string_of_uint.
    change (Nat.of_uint_acc (Nat.to_uint i) 0) with (Nat.of_uint (Nat.to_uint i)).
    rewrite DecimalNat.Unsigned.of_to. apply Z.leb_le, Hi.
Qed.

(** X15: the logical path does not hold the index of a list element: with
    the index of an element pushed on the current path, as the [ListType]
    case of [visit] does for its elements, [buildLogicalPath] gives the
    path it gives for the list itself. *)
Theorem list_index_not_in_logical_path (v : astSanitizer) (i : nat) :
  (Z.of_nat i <= 9223372036854775807)%Z ->
  buildLogicalPath (set_currentPath v (currentPath v ++ [Itoa i])%list)
  = buildLogicalPath v.
Proof.
  intros Hi. unfold buildLogicalPath. cbn [currentPath set_currentPath].
  rewrite length_app. cbn [length].
  destruct (Nat.ltb_spec 2 (length (currentPath v))) as [Hl|Hl].
  - destruct (Nat.ltb_spec 2 (length (currentPath v) + 1)); [|lia].
    rewrite drop_app_le by lia. rewrite filter_app.
    rewrite (filter_cons _ (Itoa i)), decide_False
      by (rewrite (Atoi_ok_Itoa i Hi); discriminate).
    rewrite filter_nil, app_nil_r. reflexivity.
  - destruct (Nat.ltb_spec 2 (length (currentPath v) + 1)); [|reflexivity].
    rewrite drop_ge by (rewrite length_app; cbn; lia). reflexivity.
Qed.

Lemma list_index_not_in_logical_path_witness :
  buildLogicalPath
    (set_currentPath Examples.build_sanitizer
       (currentPath Examples.build_sanitizer ++ [Itoa 12])%list)
  = buildLogicalPath Examples.build_sanitizer.
Proof.
  apply (list_index_not_in_logical_path Examples.build_sanitizer 12). lia.
Defined.

Section WithExternals.

Variable E : Externals.

(** *** The elements of a list, one by one *)

Lemma visit_list_lookup elems : forall v i v' elems',
  visit_list E v i elems = Returned (v', elems') ->
  v' = v /\ length elems' = length elems /\
  forall k elem,
    elems !! k = Some elem ->
    exists elem',
      elems' !! k = Some elem' /\
      visit E (set_currentPath v (currentPath v ++ [Itoa (i + k)])%list) elem
      = Returned
          (set_currentPath v (currentPath v ++ [Itoa (i + k)])%list, elem').
Proof.
  induction elems as [|item rest IH]; intros v i v' elems' H; cbn in H.
  - injection H as <- <-. split; [reflexivity|]. split; [reflexivity|].
    intros k elem Hk. discriminate.
  - destruct (visit E _ item) as [[v1 item1]|] eqn:H1; cbn in H; [|discriminate].
    pose proof (visit_keeps_all E _ _ _ _ H1) as Hv1. subst v1.
    change 1%nat with (length [Itoa i]) in H. rewrite pop_push in H. cbn in H.
    destruct (visit_list E v (S i) rest) as [[v2 rest2]|] eqn:H2;
      cbn in H; [|discriminate].
    destruct (IH _ _ _ _ H2) as (-> & Hlen & Hk).
    injection H as <- <-. split; [reflexivity|].
    split; [cbn; f_equal; exact Hlen|].
    intros [|k] elem He.
    + injection He as <-. exists item1. split; [reflexivity|].
      rewrite Nat.add_0_r. exact H1.
    + destruct (Hk k elem He) as (elem' & He' & Hvisit).
      exists elem'. split; [exact He'|].
      rewrite Nat.add_succ_r. exact Hvisit.
Qed.

(** X16: every visit that returns leaves the sanitiser as it found it: the
    keys and indices pushed on the current path have been popped. *)
Theorem visit_restores_sanitizer (v v' : astSanitizer) (n n' : Node) :
  visit E v n = Returned (v', n') -> v' = v.
Proof. apply visit_keeps_all. Qed.

(** X17: without sorting, the sanitiser keeps the items of an object list
    and of an object, and the elements of a list, in their places; each is
    the result of visiting the one that was there, from the sanitiser as it
    was (with its index pushed, for the element of a list). *)
Theorem unsorted_containers_keep_order (v v' : astSanitizer) :
  sort v = false ->
  (forall items n',
     visit E v (ObjectList items) = Returned (v', n') ->
     exists items',
       n' = ObjectList items' /\
       Forall2 (fun item item' => visitObjectItem E v item = Returned (v, item'))
               items items') /\
  (forall lbrace rbrace items n',
     visit E v (ObjectType lbrace rbrace items) = Returned (v', n') ->
     exists items',
       n' = ObjectType lbrace rbrace items' /\
       Forall2 (fun item item' => visitObjectItem E v item = Returned (v, item'))
               items items') /\
  (forall lbrack rbrack elems n',
     visit E v (ListType lbrack rbrack elems) = Returned (v', n') ->
     exists elems',
       n' = ListType lbrack rbrack elems' /\
       length elems' = length elems /\
       forall k elem,
         elems !! k = Some elem ->
         exists elem',
           elems' !! k = Some elem' /\
           visit E (set_currentPath v (currentPath v ++ [Itoa k])%list) elem
           = Returned
               (set_currentPath v (currentPath v ++ [Itoa k])%list, elem')).
Proof.
  intros Hsort. split; [|split].
  - intros items n' H. rewrite visit_ObjectList in H.
    destruct (visit_items E v items) as [[v1 items1]|] eqn:H1;
      cbn in H; [|discriminate].
    assert (v1 = v).
    { apply (visit_items_keeps E items) in H1; [exact H1|].
      apply Forall_forall. intros o _. apply visitObjectItem_keeps_all. }
    subst v1. rewrite (order_items_unsorted E v items1 Hsort) in H.
    cbn in H. injection H as _ <-. exists items1. split; [reflexivity|].
    apply visit_items_Forall2, H1.
  - intros lbrace rbrace items n' H. rewrite visit_ObjectType in H.
    destruct (visit_items E v items) as [[v1 items1]|] eqn:H1;
      cbn in H; [|discriminate].
    assert (v1 = v).
    { apply (visit_items_keeps E items) in H1; [exact H1|].
      apply Forall_forall. intros o _. apply visitObjectItem_keeps_all. }
    subst v1. rewrite (order_items_unsorted E v items1 Hsort) in H.
    cbn in H. injection H as _ <-. exists items1. split; [reflexivity|].
    apply visit_items_Forall2, H1.
  - intros lbrack rbrack elems n' H. rewrite visit_ListType in H.
    destruct (visit_list E v 0 elems) as [[v1 elems1]|] eqn:H1;
      cbn in H; [|discriminate].
    destruct (visit_list_lookup _ _ _ _ _ H1) as (-> & Hlen & Hk).
    rewrite Hsort in H. cbn in H. injection H as _ <-.
    exists elems1. split; [reflexivity|]. split; [exact Hlen|]. exact Hk.
Qed.

Lemma isPathOrdered_iff v path :
  isPathOrdered v path = true <->
  exists resourceType resourceName rest byName hints,
    currentPath v = "resource" :: resourceType :: resourceName :: rest /\
    hintsByResource v !! resourceType = Some byName /\
    byName !! resourceName = Some hints /\
    In path hints.
Proof.
  unfold isPathOrdered, resourceHints. split.
  - destruct (currentPath v) as [|p0 [|ty [|name rest]]]; try discriminate.
    destruct (String.eqb_spec p0 "resource") as [->|]; [|discriminate].
    destruct (hintsByResource v !! ty) as [byName|] eqn:Hty; [|discriminate].
    cbn [mbind option_bind].
    destruct (byName !! name) as [hints|] eqn:Hname; [|discriminate].
    intros H. apply existsb_exists in H as (hint & Hin & He).
    apply String.eqb_eq in He. subst hint.
    exists ty, name, rest, byName, hints. auto.
  - intros (ty & name & rest & byName & hints & -> & Hty & Hname & Hin).
    change (String.eqb "resource" "resource") with true. cbv iota.
    rewrite Hty. cbn [mbind option_bind]. rewrite Hname.
    apply existsb_exists. exists path. split; [exact Hin|].
    apply String.eqb_refl.
Qed.

Section Sorting.

Hypothesis sort_Slice_permutation :
  forall (A : Type) (less : A -> A -> bool) (l : list A),
    sort_Slice E A less l ≡ₚ l.
Hypothesis sort_Slice_sorted :
  forall (A : Type) (key : A -> string) (l : list A),
    Sorted (fun a b => String.leb (key a) (key b) = true)
           (sort_Slice E A (fun a b => String.ltb (key a) (key b)) l).

Lemma order_items_root v items :
  sort v = true ->
  resourceHints v = None \/ (length (currentPath v) <= 3)%nat ->
  order_items E v items = Returned (sortHclTree_items E items).
Proof.
  intros Hsort Hroot. unfold order_items. rewrite Hsort. cbn [negb].
  assert (Hkey : match resourceHints v with
                 | Some hints => find_unorderedKey hints (buildLogicalPath v)
                 | None => ""
                 end = "").
  { destruct Hroot as [->|Hlen]; [reflexivity|].
    destruct (resourceHints v) as [hints|]; [|reflexivity].
    assert (Hp : buildLogicalPath v = "").
    { unfold buildLogicalPath.
      destruct (2 <? length (currentPath v))%nat; [|reflexivity].
      rewrite drop_ge by lia. reflexivity. }
    rewrite Hp. apply find_unorderedKey_root. }
  rewrite Hkey. reflexivity.
Qed.

(** X18: at the root of a resource (a current path of three parts or
    fewer), and wherever no hints are registered for the current path, a
    sorting sanitiser sorts all the items of an object list or an object by
    their rendered text: a hint of one part, which names a key at the
    root, protects no item. *)
Theorem root_items_are_all_sorted
    (v v' : astSanitizer) (items items' : list ObjectItem) :
  sort v = true ->
  resourceHints v = None \/ (length (currentPath v) <= 3)%nat ->
  visit_items E v items = Returned (v', items') ->
  let sorted := sortHclTree_items E items' in
  visit E v (ObjectList items) = Returned (v, ObjectList sorted) /\
  (forall lbrace rbrace,
     visit E v (ObjectType lbrace rbrace items)
     = Returned (v, ObjectType lbrace rbrace sorted)) /\
  sorted ≡ₚ items' /\
  Sorted (fun a b => String.leb (rendered E (ObjectItemNode a))
                                (rendered E (ObjectItemNode b)) = true) sorted.
Proof.
  intros Hsort Hroot Hvisit sorted.
  assert (Hv : v' = v).
  { apply (visit_items_keeps E items) in Hvisit; [exact Hvisit|].
    apply Forall_forall. intros o _. apply visitObjectItem_keeps_all. }
  subst v'.
  assert (Horder : order_items E v items' = Returned sorted)
    by (apply order_items_root; assumption).
  split; [|split; [|split]].
  - rewrite visit_ObjectList, Hvisit. cbn [mbind outcome_bind].
    rewrite Horder. reflexivity.
  - intros lbrace rbrace.
    rewrite visit_ObjectType, Hvisit. cbn [mbind outcome_bind].
    rewrite Horder. reflexivity.
  - apply sort_Slice_permutation.
  - apply (sort_Slice_sorted ObjectItem
             (fun i => rendered E (ObjectItemNode i))).
Qed.

(** X19: a sorting sanitiser keeps the elements of a list in their order
    exactly when the logical path of the list is one of the hints
    registered for the resource the current path is in; otherwise it sorts
    them by their rendered text.  The elements are those visited with
    their index pushed on the path. *)
Theorem list_order_follows_hints
    (v v' : astSanitizer) (lbrack rbrack : Pos) (elems elems' : list Node) :
  sort v = true ->
  visit_list E v 0 elems = Returned (v', elems') ->
  let ordered := isPathOrdered v (buildLogicalPath v) in
  visit E v (ListType lbrack rbrack elems)
  = Returned (v, ListType lbrack rbrack
                   (if ordered then elems' else sortHclTree_nodes E elems')) /\
  (ordered = true <->
   exists resourceType resourceName rest byName hints,
     currentPath v = "resource" :: resourceType :: resourceName :: rest /\
     hintsByResource v !! resourceType = Some byName /\
     byName !! resourceName = Some hints /\
     In (Join (filter (fun part => Atoi_ok part = false) rest) ".") hints) /\
  sortHclTree_nodes E elems' ≡ₚ elems' /\
  Sorted (fun a b => String.leb (rendered E a) (rendered E b) = true)
         (sortHclTree_nodes E elems') /\
  length elems' = length elems /\
  (forall k elem,
     elems !! k = Some elem ->
     exists elem',
       elems' !! k = Some elem' /\
       visit E (set_currentPath v (currentPath v ++ [Itoa k])%list) elem
       = Returned
           (set_currentPath v (currentPath v ++ [Itoa k])%list, elem')).
Proof.
  intros Hsort Hvisit ordered.
  destruct (visit_list_lookup _ _ _ _ _ Hvisit) as (-> & Hlen & Hk).
  split; [|split; [|split; [|split; [|split]]]].
  - rewrite visit_ListType, Hvisit. cbn [mbind outcome_bind].
    rewrite Hsort. fold ordered. destruct ordered; reflexivity.
  - unfold ordered. rewrite isPathOrdered_iff. split.
    + intros (ty & name & rest & byName & hints & Hp & Hty & Hname & Hin).
      exists ty, name, rest, byName, hints.
      rewrite <- (buildLogicalPath_resource v _ _ _ _ Hp). auto.
    + intros (ty & name & rest & byName & hints & Hp & Hty & Hname & Hin).
      exists ty, name, rest, byName, hints.
      rewrite (buildLogicalPath_resource v _ _ _ _ Hp). auto.
  - apply sort_Slice_permutation.
  - apply (sort_Slice_sorted Node (rendered E)).
  - exact Hlen.
  - exact Hk.
Qed.

End Sorting.

End WithExternals.

Lemma visit_restores_sanitizer_witness :
  match visit Examples.toy Examples.build_sanitizer
          (ObjectList Examples.build_items) with
  | Returned (v', _) => v' = Examples.build_sanitizer
  | Panicked _ => False
  end.
Proof.
  destruct (visit Examples.toy Examples.build_sanitizer
              (ObjectList Examples.build_items)) as [[v' n']|p] eqn:H.
  - exact (visit_restores_sanitizer Examples.toy _ _ _ _ H).
  - vm_compute in H. discriminate H.
Defined.

Lemma unsorted_containers_keep_order_witness :
  exists items',
    ObjectList Examples.visited_build_items = ObjectList items' /\
    Forall2 (fun item item' =>
               visitObjectItem Examples.toy MoreExamples.unsorted_sanitizer item
               = Returned (MoreExamples.unsorted_sanitizer, item'))
            Examples.build_items items'.
Proof.
  apply (proj1 (unsorted_containers_keep_order Examples.toy
                  MoreExamples.unsorted_sanitizer
                  MoreExamples.unsorted_sanitizer eq_refl)
           Examples.build_items).
  vm_compute. reflexivity.
Defined.

Lemma root_items_are_all_sorted_witness :
  visit Examples.toy MoreExamples.root_sanitizer
    (ObjectList MoreExamples.dispatch_items)
  = Returned
      (MoreExamples.root_sanitizer,
       ObjectList (sortHclTree_items Examples.toy
                     MoreExamples.visited_dispatch_items)).
Proof.
  apply (root_items_are_all_sorted Examples.toy
           CanonicalizerExamples.toy_sort_permutation
           CanonicalizerExamples.toy_sort_sorted
           MoreExamples.root_sanitizer MoreExamples.root_sanitizer
           MoreExamples.dispatch_items MoreExamples.visited_dispatch_items
           eq_refl).
  - right. cbn. lia.
  - vm_compute. reflexivity.
Defined.

Lemma list_order_follows_hints_witness :
  exists elems',
    visit Examples.toy MoreExamples.args_sanitizer
      (ListType Examples.no_pos Examples.no_pos MoreExamples.args_elems)
    = Returned
        (MoreExamples.args_sanitizer,
         ListType Examples.no_pos Examples.no_pos elems') /\
    length elems' = 2%nat.
Proof.
  destruct (visit_list Examples.toy MoreExamples.args_sanitizer 0
              MoreExamples.args_elems) as [[v' elems']|p] eqn:H;
    [|vm_compute in H; discriminate H].
  destruct (list_order_follows_hints Examples.toy
              CanonicalizerExamples.toy_sort_permutation
              CanonicalizerExamples.toy_sort_sorted
              MoreExamples.args_sanitizer v' Examples.no_pos Examples.no_pos
              MoreExamples.args_elems elems' eq_refl H)
    as (Hv & _ & _ & _ & Hlen & _).
  exists elems'. split; [|exact Hlen].
  rewrite Hv. reflexivity.
Defined.

End OrderingMore.

Module TotalityMore.
Import GoStrings Sanitize token ast Canonicalizer Checks.
Import CanonicalizerProofs CanonicalizerMore.

Section WithExternals.

Variable E : Externals.

Lemma normalize_key_returns text :
  text <> DQ -> exists text', normalize_key text = Returned text'.
Proof.
  intros Hne. rewrite normalize_key_eq.
  destruct (quoted text) eqn:Hq; [|eauto].
  destruct (len text <? 2)%nat eqn:Hl; [|cbv zeta; eauto].
  exfalso. apply Hne. unfold quoted in Hq.
  apply andb_true_iff in Hq as [Hq _]. apply andb_true_iff in Hq as [_ Hp].
  destruct text as [|c [|d t]]; [discriminate Hp| |discriminate Hl].
  cbn [HasPrefix DQ] in Hp. rewrite andb_true_r in Hp.
  apply Ascii.eqb_eq in Hp. subst c. reflexivity.
Qed.

Lemma order_items_returns v items :
  Forall (fun item => Keys item <> []) items ->
  exists out, order_items E v items = Returned out.
Proof.
  intros Hk. unfold order_items. destruct (negb (sort v)); [eauto|].
  cbv zeta. destruct (negb (String.eqb _ "")); [|eauto].
  rewrite (partition_items_filter E _ _ Hk). cbn. eauto.
Qed.

Lemma visit_items_returns items :
  Forall (visitObjectItem_returns_at E) items ->
  forallb sanitizable_item items = true ->
  forall v, exists items',
    visit_items E v items = Returned (v, items') /\
    Forall (fun item => Keys item <> []) items'.
Proof.
  induction 1 as [|item rest Hitem _ IH]; intros Hs v.
  - exists []. split; [reflexivity|constructor].
  - cbn [forallb] in Hs. apply andb_true_iff in Hs as [Hi Hr].
    destruct (Hitem Hi v) as (item' & H1 & Hk).
    destruct (IH Hr v) as (rest' & H2 & Hks).
    exists (item' :: rest'). split; [|constructor; assumption].
    cbn [visit_items]. rewrite H1. cbn [mbind outcome_bind].
    rewrite H2. reflexivity.
Qed.

Lemma visit_list_returns elems :
  Forall (visit_returns_at E) elems ->
  forallb sanitizable elems = true ->
  forall v i, exists elems', visit_list E v i elems = Returned (v, elems').
Proof.
  induction 1 as [|elem rest Helem _ IH]; intros Hs v i.
  - exists []. reflexivity.
  - cbn [forallb] in Hs. apply andb_true_iff in Hs as [He Hr].
    destruct (Helem He (set_currentPath v (currentPath v ++ [Itoa i])%list))
      as (elem' & H1).
    destruct (IH Hr v (S i)) as (rest' & H2).
    exists (elem' :: rest'). cbn [visit_list]. cbv zeta. rewrite H1.
    cbn [mbind outcome_bind].
    change 1%nat with (length [Itoa i]). rewrite pop_push.
    cbn [mbind outcome_bind]. rewrite H2. reflexivity.
Qed.

Lemma visit_returns_all : forall n, visit_returns_at E n.
Proof.
  apply (Node_induction (visit_returns_at E) (visitObjectItem_returns_at E));
    unfold visit_returns_at, visitObjectItem_returns_at.
  - intros node IH Hs v. cbn [sanitizable] in Hs.
    destruct (IH Hs v) as (n' & H). exists (File n').
    cbn [visit]. rewrite H. reflexivity.
  - intros items IH Hs v.
    destruct (visit_items_returns items IH Hs v) as (items' & H & Hk).
    destruct (order_items_returns v items' Hk) as (out & Ho).
    exists (ObjectList out). rewrite visit_ObjectList, H.
    cbn [mbind outcome_bind]. rewrite Ho. reflexivity.
  - intros key _ v. eexists. reflexivity.
  - intros item IH Hs v. destruct (IH Hs v) as (o' & H & _).
    exists (ObjectItemNode o'). cbn [visit]. rewrite H. reflexivity.
  - intros lbrace rbrace items IH Hs v.
    destruct (visit_items_returns items IH Hs v) as (items' & H & Hk).
    destruct (order_items_returns v items' Hk) as (out & Ho).
    exists (ObjectType lbrace rbrace out). rewrite visit_ObjectType, H.
    cbn [mbind outcome_bind]. rewrite Ho. reflexivity.
  - intros tok Hs v. cbn [sanitizable] in Hs. cbn [visit].
    destruct (HasPrefix (Text tok) (DQ +:+ "<<")) eqn:Hp.
    + cbn [negb orb] in Hs.
      rewrite (handleHeredoc_lines E tok Hp Hs). eexists. reflexivity.
    + unfold handleHeredoc. rewrite Hp. eexists. reflexivity.
  - intros lbrack rbrack elems IH Hs v.
    destruct (visit_list_returns elems IH Hs v 0) as (elems' & H).
    rewrite visit_ListType, H. cbn [mbind outcome_bind].
    destruct (sort v && negb (isPathOrdered v (buildLogicalPath v)));
      eexists; reflexivity.
  - intros _ v. eexists. reflexivity.
  - intros keys assign val IH Hs v. cbn [sanitizable_item] in Hs.
    apply andb_true_iff in Hs as [Hk Hval].
    destruct keys as [|k rest]; [discriminate|].
    apply negb_true_iff, String.eqb_neq in Hk.
    destruct (normalize_key_returns _ Hk) as (text' & Ht).
    rewrite visitObjectItem_eq. cbn [normalize_keys]. rewrite Ht.
    cbn [mbind outcome_bind]. cbv zeta.
    destruct (IH Hval
                (set_currentPath v
                   (currentPath v ++
                    map (fun k0 => unquote_or_raw E (Text (Token k0)))
                      ({| Token := set_Text (Token k) text' |} :: rest))%list))
      as (val' & Hv).
    rewrite Hv. cbn [mbind outcome_bind]. rewrite pop_push.
    cbn [mbind outcome_bind]. eexists. split; [reflexivity|]. discriminate.
Qed.

(** X20: on a tree in which no literal is a heredoc of one line, every
    item has a key and no first key is a lone double quote, [visit]
    returns, with the sanitiser as it found it: the slices and indices it
    takes elsewhere are all within bounds. *)
Theorem visit_returns (v : astSanitizer) (n : Node) :
  sanitizable n = true -> exists n', visit E v n = Returned (v, n').
Proof. intros H. apply visit_returns_all, H. Qed.

End WithExternals.

Lemma visit_returns_witness :
  exists n',
    visit Examples.toy Examples.build_sanitizer
      (ObjectList Examples.build_items)
    = Returned (Examples.build_sanitizer, n').
Proof.
  apply (visit_returns Examples.toy Examples.build_sanitizer
           (ObjectList Examples.build_items)).
  vm_compute. reflexivity.
Defined.

End TotalityMore.

Module AssemblerMore.
Import GoStrings Printer Assembler Checks AssemblerProofs.

Lemma lookup_hints_default a type name :
  default ∅ (hintsByResource a !! type) !! name = lookup_hints a type name.
Proof.
  unfold lookup_hints. destruct (hintsByResource a !! type); reflexivity.
Qed.

Lemma lookup_hints_new keys a res type name :
  lookup_resource a (type_of res) (ResourceName res) = None ->
  lookup_hints (assemble_one keys a res) type name
  = if decide (type = type_of res /\ name = ResourceName res)
    then match PreserveOrder res with
         | [] => lookup_hints a type name
         | hints => Some hints
         end
    else lookup_hints a type name.
Proof.
  intros H. rewrite (assemble_one_new keys a res H).
  unfold lookup_hints at 1. cbn [hintsByResource].
  destruct (PreserveOrder res) as [|hint hints] eqn:Hp; cbn [length Nat.ltb Nat.leb].
  - destruct (decide _); reflexivity.
  - destruct (decide (type = type_of res)) as [->|Hty].
    + rewrite lookup_insert_eq. cbn [mbind option_bind].
      destruct (decide (name = ResourceName res)) as [->|Hn].
      * rewrite lookup_insert_eq, decide_True by auto. reflexivity.
      * rewrite lookup_insert_ne by congruence.
        rewrite decide_False by tauto. apply lookup_hints_default.
    + rewrite lookup_insert_ne by congruence.
      rewrite decide_False by tauto. reflexivity.
Qed.

Lemma hints_within_empty : hints_within empty_assembly.
Proof. intros type name _. reflexivity. Qed.

Lemma hints_within_one keys a res :
  hints_within a -> hints_within (assemble_one keys a res).
Proof.
  intros Hinv type name.
  destruct (lookup_resource a (type_of res) (ResourceName res)) as [w|] eqn:Hr.
  - rewrite (assemble_one_duplicate keys a res w Hr). apply Hinv.
  - rewrite (lookup_resource_new keys a res _ _ Hr),
            (lookup_hints_new keys a res _ _ Hr).
    destruct (decide _); [discriminate|]. apply Hinv.
Qed.

Lemma hints_within_from order resources : forall i a,
  hints_within a -> hints_within (assemble_from order i a resources).
Proof.
  induction resources as [|res rest IH]; intros i a H; [exact H|].
  cbn [assemble_from]. apply IH, hints_within_one, H.
Qed.

Lemma lookup_hints_stable keys a res type name v :
  lookup_resource a type name = Some v ->
  lookup_hints (assemble_one keys a res) type name = lookup_hints a type name.
Proof.
  intros H.
  destruct (lookup_resource a (type_of res) (ResourceName res)) as [w|] eqn:Hr.
  - rewrite (assemble_one_duplicate keys a res w Hr). reflexivity.
  - rewrite (lookup_hints_new keys a res _ _ Hr).
    destruct (decide _) as [[-> ->]|_]; [congruence|reflexivity].
Qed.

Lemma lookup_hints_stable_from order resources : forall i a type name v,
  lookup_resource a type name = Some v ->
  lookup_hints (assemble_from order i a resources) type name
  = lookup_hints a type name.
Proof.
  induction resources as [|res rest IH]; intros i a type name v H;
    [reflexivity|].
  cbn [assemble_from].
  rewrite (IH _ _ _ _ v) by (apply lookup_resource_stable, H).
  apply (lookup_hints_stable _ _ _ _ _ v H).
Qed.

Lemma first_occurrence_hints order pre : forall i a seen res post,
  seen_registered a seen ->
  hints_within a ->
  ~ Exists (same_address res) (seen ++ pre) ->
  lookup_hints (assemble_from order i a (pre ++ res :: post))
               (type_of res) (ResourceName res)
  = match PreserveOrder res with
    | [] => None
    | hints => Some hints
    end.
Proof.
  induction pre as [|p pre IH]; intros i a seen res post Hinv Hw Hnew.
  - rewrite app_nil_r in Hnew. cbn [app assemble_from].
    destruct (seen_registered_new
                (order i (terraform.Attributes (InstanceState res)))
                a seen res Hinv Hnew) as (Hnone & _).
    rewrite (lookup_hints_stable_from _ _ _ _ _ _ (item_value (Item res))).
    + rewrite (lookup_hints_new _ a res _ _ Hnone), decide_True by auto.
      rewrite (Hw _ _ Hnone). reflexivity.
    + rewrite (lookup_resource_new _ a res _ _ Hnone), decide_True by auto.
      reflexivity.
  - cbn [app assemble_from].
    destruct (decide (Exists (same_address p) seen)) as [Hdup|Hp].
    + destruct (seen_registered_duplicate
                  (order i (terraform.Attributes (InstanceState p)))
                  a seen p Hinv Hdup) as (v & _ & Hinv').
      apply (IH _ _ seen); [exact Hinv'|apply hints_within_one, Hw|].
      intros H. apply Hnew. rewrite Exists_app in *. rewrite Exists_cons. tauto.
    + destruct (seen_registered_new
                  (order i (terraform.Attributes (InstanceState p)))
                  a seen p Hinv Hp) as (_ & Hinv').
      apply (IH _ _ (p :: seen)); [exact Hinv'|apply hints_within_one, Hw|].
      intros H. apply Hnew. rewrite Exists_app in *.
      rewrite !Exists_cons in *. tauto.
Qed.

(** X21: the ordering hints that [HclPrintResource] hands to the printer
    for a type and a name are the [PreserveOrder] of the first resource of
    that type and name, and none when that list is empty; the
    [PreserveOrder] of a later resource of the same type and name is not
    looked at.  No hints are registered for a type and a name that have
    no resource. *)
Theorem hints_of_first_occurrence
    order (resources pre : list Resource) (res : Resource)
    (post : list Resource) :
  resources = (pre ++ res :: post)%list ->
  ~ Exists (same_address res) pre ->
  let a := assemble order resources in
  lookup_hints a (type_of res) (ResourceName res)
  = match PreserveOrder res with
    | [] => None
    | hints => Some hints
    end /\
  (forall type name,
     lookup_resource a type name = None -> lookup_hints a type name = None).
Proof.
  intros -> Hnew a. split.
  - apply (first_occurrence_hints order pre 0 empty_assembly []);
      [exact seen_registered_empty|exact hints_within_empty|exact Hnew].
  - apply hints_within_from, hints_within_empty.
Qed.

Lemma hints_of_first_occurrence_witness :
  lookup_hints
    (assemble sorted_order [MoreExamples.ordered_resource ["rule"]; MoreExamples.ordered_resource ["tags"]])
    "google_x" "tfer--a"
  = Some ["rule"].
Proof.
  apply (hints_of_first_occurrence sorted_order
           [MoreExamples.ordered_resource ["rule"]; MoreExamples.ordered_resource ["tags"]]
           [] (MoreExamples.ordered_resource ["rule"]) [MoreExamples.ordered_resource ["tags"]]
           eq_refl).
  intros H. inversion H.
Defined.

(** X22: [HclPrintResource] returns the error of an unknown format for
    every output format other than [hcl] and [json], whatever the
    resources; for [json] it returns what [jsonPrint] gives for the
    document, without sanitising or rewriting anything, so that it neither
    panics nor depends on the sorting flag; and whenever it returns an
    error, the bytes it returns with it are empty. *)
Theorem HclPrintResource_errors
    (E : Externals) order (resources : list Resource)
    (providerData : gmap string Value) (output : string) (sort : bool) :
  let a := assemble order resources in
  (output <> "hcl" -> output <> "json" ->
   HclPrintResource E order resources providerData output sort
   = Returned ("", Some "error: unknown output format")) /\
  HclPrintResource E order resources providerData "json" sort
  = Returned (match jsonPrint E (document a providerData) with
              | (_, Some e) => ("", Some e)
              | (bytes, None) => (bytes, None)
              end) /\
  (forall bytes e,
     HclPrintResource E order resources providerData output sort
     = Returned (bytes, Some e) ->
     bytes = "").
Proof.
  intros a. split; [|split].
  - intros Hh Hj. unfold HclPrintResource, Print. fold a.
    apply String.eqb_neq in Hh, Hj. rewrite Hh, Hj. reflexivity.
  - unfold HclPrintResource, Print. fold a.
    change (String.eqb "json" "hcl") with false.
    change (String.eqb "json" "json") with true. cbv iota.
    cbn [mbind outcome_bind].
    destruct (jsonPrint E (document a providerData)) as [bytes [e|]];
      reflexivity.
  - intros bytes e. unfold HclPrintResource. fold a.
    destruct (Print E _ _ output sort _) as [[hclBytes [e'|]]|];
      cbn [mbind outcome_bind]; congruence.
Qed.

Lemma HclPrintResource_errors_witness :
  HclPrintResource Examples.toy sorted_order [Examples.tags_resource] ∅
    "yaml" true
  = Returned ("", Some "error: unknown output format").
Proof.
  apply (HclPrintResource_errors Examples.toy sorted_order
           [Examples.tags_resource] ∅ "yaml" true); discriminate.
Defined.

Lemma assemble_one_nonempty keys a res :
  resourcesByType (assemble_one keys a res) <> ∅.
Proof.
  unfold assemble_one. cbv zeta.
  destruct (_ !! ResourceName res); cbn [resourcesByType];
    apply insert_non_empty.
Qed.

Lemma assemble_from_nonempty order resources : forall i a,
  resources <> [] ->
  resourcesByType (assemble_from order i a resources) <> ∅.
Proof.
  induction resources as [|res rest IH]; intros i a H; [contradiction|].
  cbn [assemble_from]. destruct rest as [|r rest].
  - apply assemble_one_nonempty.
  - apply IH. discriminate.
Qed.

(** X23: the document that [HclPrintResource] prints has the key
    [resource] exactly when there is a resource, and the key [provider]
    exactly when the provider data are not empty; it has no other key, so
    that it is the empty document when there is neither. *)
Theorem document_keys
    order (resources : list Resource) (providerData : gmap string Value) :
  let a := assemble order resources in
  let data := document a providerData in
  data !! "resource"
  = match resources with
    | [] => None
    | _ => Some (VMap (VMap <$> resourcesByType a))
    end /\
  data !! "provider"
  = (if decide (providerData = ∅) then None else Some (VMap providerData)) /\
  (forall key, key <> "resource" -> key <> "provider" -> data !! key = None).
Proof.
  intros a data. subst data. unfold document. cbv zeta.
  assert (Hr : match resources with
               | [] => resourcesByType a = ∅
               | _ => resourcesByType a <> ∅
               end).
  { destruct resources; [reflexivity|].
    apply assemble_from_nonempty. discriminate. }
  destruct (decide (resourcesByType a = ∅)) as [He|Hne];
    destruct (decide (providerData = ∅)) as [Hp|Hp];
    (split; [|split]);
    try (intros key H1 H2);
    rewrite ?lookup_insert_eq, ?lookup_insert_ne, ?lookup_empty by congruence;
    try reflexivity;
    destruct resources; try reflexivity; try contradiction;
    rewrite ?lookup_insert_eq, ?lookup_insert_ne, ?lookup_empty by congruence;
    try reflexivity.
Qed.

End AssemblerMore.

Module GeneratorsMore.
Import GoStrings Sanitize token ast Canonicalizer Assembler Checks.
Import ResourceOps Generators.
Import CanonicalizerProofs AssemblerProofs LinesMore.

(** *** Splitting at a separator of one byte *)

Section ByteSeparator.

Variable c : ascii.

Lemma Split_byte_cons x t :
  Split (String x t) (String c "")
  = if Ascii.eqb c x then "" :: Split t (String c "")
    else match Split t (String c "") with
         | piece :: rest => String x piece :: rest
         | [] => [String x ""]
         end.
Proof.
  unfold Split. cbn [split_from HasPrefix].
  destruct (Ascii.eqb c x); reflexivity.
Qed.

Lemma Split_byte_nonempty s : Split s (String c "") <> [].
Proof.
  destruct s as [|x t]; [discriminate|]. rewrite Split_byte_cons.
  destruct (Ascii.eqb c x); [discriminate|].
  destruct (Split t (String c "")); discriminate.
Qed.

Lemma Split_byte_app s t :
  Split (s +:+ String c "" +:+ t) (String c "")
  = (Split s (String c "") ++ Split t (String c ""))%list.
Proof.
  induction s as [|x s IH].
  - change ("" +:+ String c "" +:+ t) with (String c t).
    rewrite Split_byte_cons, Ascii.eqb_refl. reflexivity.
  - change (String x s +:+ String c "" +:+ t)
      with (String x (s +:+ String c "" +:+ t)).
    rewrite !Split_byte_cons, IH.
    destruct (Ascii.eqb c x); [reflexivity|].
    pose proof (Split_byte_nonempty s) as Hne.
    destruct (Split s (String c "")); [contradiction|reflexivity].
Qed.

Lemma Split_byte_single s :
  all_bytes (fun x => negb (Ascii.eqb c x)) s = true ->
  Split s (String c "") = [s].
Proof.
  induction s as [|x s IH]; [reflexivity|].
  cbn [all_bytes]. intros [Hx Hs]%andb_true_iff.
  apply negb_true_iff in Hx. rewrite Split_byte_cons, Hx, (IH Hs).
  reflexivity.
Qed.

End ByteSeparator.

(** *** The hooks that register ordering hints *)

Lemma hook_keeps_address f resources :
  (forall r, type_of (f r) = type_of r /\ ResourceName (f r) = ResourceName r) ->
  forall res, res ∈ map f resources ->
  exists r, r ∈ resources /\ res = f r.
Proof.
  intros _ res H. apply list_elem_of_fmap_1 in H as (r & -> & Hr). eauto.
Qed.

Lemma CloudBuild_hook_sets res resources :
  res ∈ CloudBuild_PostConvertHook resources ->
  type_of res = "google_cloudbuild_trigger" ->
  PreserveOrder res = ["build.step"; "build.step.args"].
Proof.
  intros H Ht. apply list_elem_of_fmap_1 in H as (r & -> & _).
  destruct (String.eqb_spec (type_of r) "google_cloudbuild_trigger") as [He|Hne];
    [reflexivity|].
  exfalso. apply Hne. exact Ht.
Qed.

Lemma AppEngine_hook_sets res resources :
  res ∈ AppEngine_PostConvertHook resources ->
  type_of res = "google_app_engine_application_url_dispatch_rules" ->
  PreserveOrder res = ["dispatch_rules"].
Proof.
  intros H Ht. apply list_elem_of_fmap_1 in H as (r & -> & _).
  destruct (String.eqb_spec (type_of r)
              "google_app_engine_application_url_dispatch_rules") as [He|Hne];
    [reflexivity|].
  exfalso. apply Hne. exact Ht.
Qed.

Lemma lookup_hints_resourceHints a flag type name rest hints :
  lookup_hints a type name = Some hints ->
  resourceHints
    {| sort := flag; Canonicalizer.hintsByResource := Assembler.hintsByResource a;
       currentPath := "resource" :: type :: name :: rest |}
  = Some hints.
Proof.
  intros H. unfold resourceHints. cbn [currentPath Canonicalizer.hintsByResource].
  change (String.eqb "resource" "resource") with true. cbv iota. exact H.
Qed.

Section WithExternals.

Variable E : Externals.

Lemma ordered_list_kept v lbrack rbrack elems v' elems' :
  isPathOrdered v (buildLogicalPath v) = true ->
  visit_list E v 0 elems = Returned (v', elems') ->
  visit E v (ListType lbrack rbrack elems)
  = Returned (v, ListType lbrack rbrack elems').
Proof.
  intros Ho Hv.
  assert (v' = v).
  { apply (visit_list_keeps E elems) in Hv; [exact Hv|].
    apply Forall_forall. intros n _. apply visit_keeps_all. }
  subst v'. rewrite visit_ListType, Hv. cbn [mbind outcome_bind].
  rewrite Ho, andb_false_r. reflexivity.
Qed.

(** X24: after the hook of the Cloud Build generator, the hints that
    [HclPrintResource] registers for a build trigger are [build.step] and
    [build.step.args], so that the sanitiser, sorting or not, keeps the
    elements of a list of arguments of a step of that trigger in their
    order, whatever the indices on the path to it. *)
Theorem cloudbuild_args_keep_order
    order (resources pre : list Resource) (res : Resource)
    (post : list Resource) (rest : list string) (flag : bool) :
  CloudBuild_PostConvertHook resources = (pre ++ res :: post)%list ->
  ~ Exists (same_address res) pre ->
  type_of res = "google_cloudbuild_trigger" ->
  filter (fun part => Atoi_ok part = false) rest = ["build"; "step"; "args"] ->
  let a := assemble order (CloudBuild_PostConvertHook resources) in
  let v :=
    {| sort := flag;
       Canonicalizer.hintsByResource := Assembler.hintsByResource a;
       currentPath := "resource" :: type_of res :: ResourceName res :: rest |} in
  lookup_hints a (type_of res) (ResourceName res)
  = Some ["build.step"; "build.step.args"] /\
  isPathOrdered v (buildLogicalPath v) = true /\
  (forall lbrack rbrack elems v' elems',
     visit_list E v 0 elems = Returned (v', elems') ->
     visit E v (ListType lbrack rbrack elems)
     = Returned (v, ListType lbrack rbrack elems')).
Proof.
  intros Hhook Hnew Htype Hrest a v.
  assert (Hp : PreserveOrder res = ["build.step"; "build.step.args"]).
  { apply (CloudBuild_hook_sets res resources); [|exact Htype].
    rewrite Hhook. apply elem_of_app. right. apply elem_of_cons. left.
    reflexivity. }
  assert (Hh : lookup_hints a (type_of res) (ResourceName res)
               = Some ["build.step"; "build.step.args"]).
  { unfold a, assemble. rewrite Hhook.
    rewrite (AssemblerMore.first_occurrence_hints order pre 0 empty_assembly []);
      [rewrite Hp; reflexivity|exact seen_registered_empty
      |exact AssemblerMore.hints_within_empty|exact Hnew]. }
  assert (Ho : isPathOrdered v (buildLogicalPath v) = true).
  { unfold isPathOrdered, v.
    rewrite (lookup_hints_resourceHints a flag _ _ rest _ Hh).
    rewrite (buildLogicalPath_resource
               {| sort := flag;
                  Canonicalizer.hintsByResource := Assembler.hintsByResource a;
                  currentPath :=
                    "resource" :: type_of res :: ResourceName res :: rest |}
               "resource" (type_of res) (ResourceName res) rest eq_refl),
            Hrest.
    reflexivity. }
  split; [exact Hh|]. split; [exact Ho|].
  intros lbrack rbrack elems v' elems' Hv.
  apply (ordered_list_kept v _ _ _ v' _ Ho Hv).
Qed.

Section Sorting.

Hypothesis sort_Slice_permutation :
  forall (A : Type) (less : A -> A -> bool) (l : list A),
    sort_Slice E A less l ≡ₚ l.

(** X25: after the hook of the App Engine generator, the hint registered
    for the dispatch rules of an application is [dispatch_rules].  With
    it the sanitiser keeps the elements of a list at that path in their
    order; but in the object list at the root of the resource, where the
    logical path is empty, it sorts every item by its rendered text, the
    items with the key [dispatch_rules] among them. *)
Theorem appengine_hint_protects_lists_only
    order (resources pre : list Resource) (res : Resource)
    (post : list Resource) :
  AppEngine_PostConvertHook resources = (pre ++ res :: post)%list ->
  ~ Exists (same_address res) pre ->
  type_of res = "google_app_engine_application_url_dispatch_rules" ->
  let a := assemble order (AppEngine_PostConvertHook resources) in
  let at_path rest :=
    {| sort := true;
       Canonicalizer.hintsByResource := Assembler.hintsByResource a;
       currentPath := "resource" :: type_of res :: ResourceName res :: rest |} in
  lookup_hints a (type_of res) (ResourceName res) = Some ["dispatch_rules"] /\
  (forall lbrack rbrack elems v' elems',
     visit_list E (at_path ["dispatch_rules"]) 0 elems = Returned (v', elems') ->
     visit E (at_path ["dispatch_rules"]) (ListType lbrack rbrack elems)
     = Returned (at_path ["dispatch_rules"], ListType lbrack rbrack elems')) /\
  (forall items v' items',
     visit_items E (at_path []) items = Returned (v', items') ->
     visit E (at_path []) (ObjectList items)
     = Returned (at_path [], ObjectList (sortHclTree_items E items')) /\
     sortHclTree_items E items' ≡ₚ items').
Proof.
  intros Hhook Hnew Htype a at_path.
  assert (Hp : PreserveOrder res = ["dispatch_rules"]).
  { apply (AppEngine_hook_sets res resources); [|exact Htype].
    rewrite Hhook. apply elem_of_app. right. apply elem_of_cons. left.
    reflexivity. }
  assert (Hh : lookup_hints a (type_of res) (ResourceName res)
               = Some ["dispatch_rules"]).
  { unfold a, assemble. rewrite Hhook.
    rewrite (AssemblerMore.first_occurrence_hints order pre 0 empty_assembly []);
      [rewrite Hp; reflexivity|exact seen_registered_empty
      |exact AssemblerMore.hints_within_empty|exact Hnew]. }
  split; [exact Hh|]. split.
  - intros lbrack rbrack elems v' elems' Hv.
    apply (ordered_list_kept _ _ _ _ v' _); [|exact Hv].
    unfold isPathOrdered, at_path.
    rewrite (lookup_hints_resourceHints a true _ _ _ _ Hh). reflexivity.
  - intros items v' items' Hv.
    assert (v' = at_path []).
    { apply (visit_items_keeps E items) in Hv; [exact Hv|].
      apply Forall_forall. intros o _. apply visitObjectItem_keeps_all. }
    subst v'. split; [|apply sort_Slice_permutation].
    rewrite visit_ObjectList, Hv. cbn [mbind outcome_bind].
    rewrite (OrderingMore.order_items_root E (at_path []) items' eq_refl);
      [reflexivity|].
    right. cbn. lia.
Qed.

End Sorting.

(** *** The heredoc of a bucket policy *)

Lemma policy_heredoc_lines policy :
  Split (policy_heredoc policy) LF
  = ("<<POLICY" :: Split policy LF ++ ["POLICY"])%list.
Proof.
  unfold policy_heredoc, LF.
  rewrite (Split_byte_app (ascii_of_N 10) "<<POLICY").
  rewrite (Split_byte_app (ascii_of_N 10) policy). reflexivity.
Qed.

Lemma Gcs_hook_one_cases resource hooked :
  Gcs_hook_one resource = Asserted hooked ->
  hooked = resource \/
  (type_of resource = "google_storage_bucket_iam_policy" /\
   exists item policy,
     Item resource = Some item /\
     item !! "policy_data" = Some (VString policy) /\
     hooked = set_Item resource
                (Some (<["policy_data" := VString (policy_heredoc policy)]>
                         item))).
Proof.
  unfold Gcs_hook_one.
  destruct (String.eqb_spec (type_of resource)
              "google_storage_bucket_iam_policy") as [Ht|_]; cbn [negb];
    [|intros [= <-]; left; reflexivity].
  destruct (Item resource) as [item|] eqn:Hi; [|intros [= <-]; left; reflexivity].
  destruct (item !! "policy_data") as [[]|] eqn:Hk; try discriminate;
    intros [= <-]; [|left; reflexivity].
  right. split; [exact Ht|]. eauto.
Qed.

(** X26: the hook of the GCS generator changes nothing but the
    [policy_data] of the bucket policies, which it wraps between the lines
    [<<POLICY] and [POLICY].  When the literal of such a heredoc reaches
    [handleHeredoc], the lines between the first and the last one are the
    policy again: the literal becomes a heredoc token with the same two
    marker lines around the policy, re-indented when it is JSON. *)
Theorem bucket_policy_heredoc
    (resources hooked : list Resource) (t : token.Token) (policy : string) :
  (Gcs_PostConvertHook resources = Asserted hooked ->
   Forall2 (fun resource after =>
              after = resource \/
              (type_of resource = "google_storage_bucket_iam_policy" /\
               exists item policy,
                 Item resource = Some item /\
                 item !! "policy_data" = Some (VString policy) /\
                 after = set_Item resource
                           (Some (<["policy_data" :=
                                      VString (policy_heredoc policy)]> item))))
           resources hooked) /\
  (HasPrefix (Text t) (DQ +:+ "<<") = true ->
   heredoc_text (Text t) = policy_heredoc policy ->
   handleHeredoc E t
   = Returned
       {| TokenType := 10; TokenPos := TokenPos t;
          Text :=
            match json_Unmarshal E (ReplaceAll policy (BS +:+ DQ) DQ)
                  ≫= json_MarshalIndent E with
            | Some pretty => policy_heredoc pretty
            | None => policy_heredoc policy
            end;
          JSON := JSON t |}).
Proof.
  split.
  - revert hooked. induction resources as [|resource rest IH]; intros hooked H.
    + injection H as <-. constructor.
    + cbn [Gcs_PostConvertHook] in H.
      destruct (Gcs_hook_one resource) as [after|] eqn:H1; [|discriminate].
      destruct (Gcs_PostConvertHook rest) as [rest'|]; [|discriminate].
      injection H as <-. constructor; [|apply IH; reflexivity].
      apply Gcs_hook_one_cases, H1.
  - intros Hp Ht.
    assert (Hc : Contains (heredoc_text (Text t)) LF = true)
      by (rewrite Ht; reflexivity).
    rewrite (CanonicalizerMore.handleHeredoc_lines E t Hp Hc).
    rewrite Ht, policy_heredoc_lines.
    pose proof (Split_nonempty policy) as Hne.
    assert (Hbody : take (length ("<<POLICY" :: Split policy LF ++ ["POLICY"])%list - 2)
                      (drop 1 ("<<POLICY" :: Split policy LF ++ ["POLICY"])%list)
                    = Split policy LF).
    { cbn [length drop]. rewrite length_app. cbn [length].
      replace (S (length (Split policy LF) + 1) - 2)%nat
        with (length (Split policy LF)) by lia.
      rewrite drop_0, take_app_length. reflexivity. }
    rewrite Hbody, Join_Split. cbn [hd].
    change ("<<POLICY" :: Split policy LF ++ ["POLICY"])%list
      with (("<<POLICY" :: Split policy LF) ++ ["POLICY"])%list.
    rewrite last_last.
    destruct (json_Unmarshal E _ ≫= json_MarshalIndent E); reflexivity.
Qed.

End WithExternals.

(** *** The Secret Manager generator *)

Section SecretManager.

Variable ProviderName : string.
Variable project : string.

(** X27: the name that [createSecretIamMemberResources] gives to the
    resource of a member does not depend on the condition of the binding.
    Two bindings of the same role to the same member, with different
    conditions or one without, give two resources of the same type and
    name, and [HclPrintResource] keeps the first and logs the second as a
    duplicate. *)
Theorem secret_member_names_ignore_conditions
    order (resourceID resourceName : string) (isRegional : bool)
    (binding1 binding2 : Binding) (member : string) :
  Role binding1 = Role binding2 ->
  Members binding1 = [member] ->
  Members binding2 = [member] ->
  let first := secretMemberResource ProviderName project resourceID
                 resourceName isRegional binding1 member in
  let second := secretMemberResource ProviderName project resourceID
                  resourceName isRegional binding2 member in
  let resources := createSecretIamMemberResources ProviderName project
                     resourceID resourceName isRegional [binding1; binding2] in
  resources = [first; second] /\
  same_address first second /\
  lookup_resource (assemble order resources)
    (type_of first) (ResourceName first)
  = Some (item_value (Item first)) /\
  logged (assemble order resources) = [duplicate_message second].
Proof.
  intros Hrole Hm1 Hm2 first second resources.
  assert (Hres : resources = [first; second]).
  { unfold resources, createSecretIamMemberResources. cbn [flat_map].
    rewrite Hm1, Hm2. reflexivity. }
  assert (Hsame : same_address first second).
  { unfold same_address, first, second, secretMemberResource.
    cbn [NewResource InstanceInfo terraform.ResourceType ResourceName].
    rewrite Hrole. split; reflexivity. }
  assert (Hnone : lookup_resource empty_assembly
                    (type_of first) (ResourceName first) = None)
    by reflexivity.
  assert (Hfirst : lookup_resource
                     (assemble_one
                        (order 0%nat (terraform.Attributes (InstanceState first)))
                        empty_assembly first)
                     (type_of second) (ResourceName second)
                   = Some (item_value (Item first))).
  { rewrite (lookup_resource_new _ _ _ _ _ Hnone).
    destruct Hsame as [Ht Hn]. rewrite decide_True by (split; congruence).
    reflexivity. }
  split; [exact Hres|]. split; [exact Hsame|].
  rewrite Hres. unfold assemble. cbn [assemble_from].
  rewrite (assemble_one_duplicate _ _ second _ Hfirst).
  set (a1 := assemble_one
               (order 0%nat (terraform.Attributes (InstanceState first)))
               empty_assembly first).
  split.
  - change (lookup_resource a1 (type_of first) (ResourceName first)
            = Some (item_value (Item first))).
    unfold a1. rewrite (lookup_resource_new _ _ _ _ _ Hnone).
    rewrite decide_True by (split; reflexivity). reflexivity.
  - cbn [logged]. unfold a1. rewrite (assemble_one_new _ _ _ Hnone).
    reflexivity.
Qed.

End SecretManager.

(** X28: [getSecretID] never panics; it returns what follows the last
    slash of the name, and the name itself when there is no slash in
    it. *)
Theorem getSecretID_last_part (name parent secretID : string) :
  (exists part, getSecretID name = Returned part) /\
  (all_bytes (fun x => negb (Ascii.eqb "/" x)) secretID = true ->
   getSecretID (parent +:+ "/" +:+ secretID) = Returned secretID /\
   getSecretID secretID = Returned secretID).
Proof.
  split.
  - unfold getSecretID. cbv zeta.
    pose proof (Split_byte_nonempty "/" name) as Hne.
    destruct (Split name "/") as [|part parts] eqn:Hs; [contradiction|].
    destruct (lookup_lt_is_Some_2 (part :: parts) (length (part :: parts) - 1))
      as [x Hx]; [cbn; lia|].
    rewrite Hx. eauto.
  - intros Hid. unfold getSecretID. cbv zeta.
    rewrite (Split_byte_app "/" parent secretID).
    rewrite (Split_byte_single "/" secretID Hid). split; [|reflexivity].
    rewrite length_app. cbn [length].
    replace (length (Split parent "/") + 1 - 1)%nat
      with (length (Split parent "/") + 0)%nat by lia.
    rewrite lookup_app_r by lia.
    replace (length (Split parent "/") + 0 - length (Split parent "/"))%nat
      with 0%nat by lia.
    reflexivity.
Qed.

Lemma getSecretID_last_part_witness :
  getSecretID "projects/p/secrets/db-password" = Returned "db-password".
Proof.
  apply (proj2 (getSecretID_last_part "" "projects/p/secrets" "db-password")).
  reflexivity.
Defined.

Lemma cloudbuild_args_keep_order_witness :
  lookup_hints
    (assemble sorted_order
       (CloudBuild_PostConvertHook [GeneratorExamples.trigger]))
    "google_cloudbuild_trigger" "tfer--t"
  = Some ["build.step"; "build.step.args"].
Proof.
  exact (proj1 (cloudbuild_args_keep_order Examples.toy sorted_order
                  [GeneratorExamples.trigger] []
                  (set_PreserveOrder GeneratorExamples.trigger
                     ["build.step"; "build.step.args"])
                  [] ["build"; "0"; "step"; "1"; "args"] true
                  eq_refl ltac:(intros H; inversion H) eq_refl eq_refl)).
Defined.

Lemma appengine_hint_protects_lists_only_witness :
  lookup_hints
    (assemble sorted_order
       (AppEngine_PostConvertHook [GeneratorExamples.dispatch]))
    "google_app_engine_application_url_dispatch_rules" "tfer--p"
  = Some ["dispatch_rules"].
Proof.
  exact (proj1 (appengine_hint_protects_lists_only Examples.toy
                  CanonicalizerExamples.toy_sort_permutation sorted_order
                  [GeneratorExamples.dispatch] []
                  (set_PreserveOrder GeneratorExamples.dispatch
                     ["dispatch_rules"])
                  [] eq_refl ltac:(intros H; inversion H) eq_refl)).
Defined.

Lemma bucket_policy_heredoc_witness :
  handleHeredoc Examples.toy
    (Examples.string_token GeneratorExamples.policy_literal)
  = Returned
      {| TokenType := 10; TokenPos := Examples.no_pos;
         Text :=
           match json_Unmarshal Examples.toy (ReplaceAll "{}" (BS +:+ DQ) DQ)
                 ≫= json_MarshalIndent Examples.toy with
           | Some pretty => policy_heredoc pretty
           | None => policy_heredoc "{}"
           end;
         JSON := true |}.
Proof.
  exact (proj2 (bucket_policy_heredoc Examples.toy [] []
                  (Examples.string_token GeneratorExamples.policy_literal)
                  "{}") eq_refl eq_refl).
Defined.

Lemma secret_member_names_ignore_conditions_witness :
  logged
    (assemble sorted_order
       (createSecretIamMemberResources "google" "p"
          "projects/p/secrets/s" "s" false
          [GeneratorExamples.plain_binding;
           GeneratorExamples.conditional_binding]))
  = [duplicate_message
       (secretMemberResource "google" "p" "projects/p/secrets/s" "s" false
          GeneratorExamples.conditional_binding "user:a@example.com")].
Proof.
  apply (secret_member_names_ignore_conditions "google" "p" sorted_order
           "projects/p/secrets/s" "s" false
           GeneratorExamples.plain_binding
           GeneratorExamples.conditional_binding "user:a@example.com");
    reflexivity.
Defined.

End GeneratorsMore.

Module KmsMore.
Import GoStrings ResourceOps Generators Assembler.

Lemma reference_not_an_id ring keyRing :
  HasPrefix (terraform.ID (InstanceState keyRing)) "${" = false ->
  String.eqb (key_ring_reference ring) (terraform.ID (InstanceState keyRing))
  = false.
Proof.
  intros H. apply String.eqb_neq. intros He. rewrite <- He in H.
  discriminate H.
Qed.

Lemma fold_link_done rings : forall item ring,
  item !! "key_ring" = Some (VString (key_ring_reference ring)) ->
  Forall (fun r => HasPrefix (terraform.ID (InstanceState r)) "${" = false)
         rings ->
  fold_left link_key_ring rings item = item.
Proof.
  induction rings as [|r rest IH]; intros item ring Hk Hids; [reflexivity|].
  inversion Hids as [|? ? Hr Hrest]; subst. cbn [fold_left].
  assert (Hl : link_key_ring item r = item).
  { unfold link_key_ring. destruct (negb _); [reflexivity|].
    rewrite Hk, (reference_not_an_id ring r Hr). reflexivity. }
  rewrite Hl. apply (IH item ring Hk Hrest).
Qed.

Lemma fold_link_first rings : forall item id,
  item !! "key_ring" = Some (VString id) ->
  Forall (fun r => HasPrefix (terraform.ID (InstanceState r)) "${" = false)
         rings ->
  fold_left link_key_ring rings item
  = match filter (fun r => type_of r = "google_kms_key_ring" /\
                           terraform.ID (InstanceState r) = id) rings with
    | [] => item
    | ring :: _ => <["key_ring" := VString (key_ring_reference ring)]> item
    end.
Proof.
  induction rings as [|r rest IH]; intros item id Hk Hids; [reflexivity|].
  inversion Hids as [|? ? Hr Hrest]; subst. cbn [fold_left].
  rewrite filter_cons. unfold link_key_ring at 2. rewrite Hk.
  destruct (String.eqb_spec (type_of r) "google_kms_key_ring") as [Ht|Ht];
    cbn [negb].
  - destruct (String.eqb_spec id (terraform.ID (InstanceState r))) as [Hi|Hi].
    + rewrite decide_True by (split; [exact Ht|congruence]).
      apply (fold_link_done rest _ r); [apply lookup_insert_eq|exact Hrest].
    + rewrite decide_False by (intros [_ H]; congruence).
      apply IH; assumption.
  - rewrite decide_False by tauto. apply IH; assumption.
Qed.

(** X29: the hook of the KMS generator keeps the resources in their places
    with their types and names, and changes only the items of the crypto
    keys.  When no identifier of a resource starts with a dollar sign and
    a brace, the [key_ring] of a crypto key that is the identifier of a
    key ring becomes the reference to the first key ring with that
    identifier, and stays as it is when there is none. *)
Theorem kms_keys_linked_to_first_ring
    (resources : list Resource) (i : nat) (key : Resource) :
  Forall (fun r => HasPrefix (terraform.ID (InstanceState r)) "${" = false)
         resources ->
  resources !! i = Some key ->
  exists after,
    Kms_PostConvertHook resources !! i = Some after /\
    type_of after = type_of key /\
    ResourceName after = ResourceName key /\
    (type_of key <> "google_kms_crypto_key" -> after = key) /\
    (type_of key = "google_kms_crypto_key" ->
     forall item id,
       Item key = Some item ->
       item !! "key_ring" = Some (VString id) ->
       Item after
       = Some match filter (fun r => type_of r = "google_kms_key_ring" /\
                                     terraform.ID (InstanceState r) = id)
                           resources with
              | [] => item
              | ring :: _ =>
                  <["key_ring" := VString (key_ring_reference ring)]> item
              end).
Proof.
  intros Hids Hi. eexists. split.
  { unfold Kms_PostConvertHook. rewrite list_lookup_fmap_Some.
    exists key. split; [reflexivity|exact Hi]. }
  destruct (String.eqb_spec (type_of key) "google_kms_crypto_key") as [Ht|Ht];
    cbn [negb].
  - destruct (Item key) as [item|] eqn:Hitem.
    + split; [reflexivity|]. split; [reflexivity|].
      split; [intros Hne; contradiction|].
      intros _ item' id [= <-] Hk. cbn [Item set_Item].
      rewrite (fold_link_first resources item id Hk Hids). reflexivity.
    + split; [reflexivity|]. split; [reflexivity|].
      split; [reflexivity|]. intros _ item id Hn. congruence.
  - split; [reflexivity|]. split; [reflexivity|].
    split; [reflexivity|]. intros Hc. contradiction.
Qed.

Lemma kms_keys_linked_to_first_ring_witness :
  exists after,
    Kms_PostConvertHook
      [GeneratorExamples.key_ring; GeneratorExamples.crypto_key] !! 1%nat
    = Some after /\
    Item after
    = Some {[ "key_ring" := VString "${google_kms_key_ring.tfer--p_global_r.self_link}";
              "name" := VString "k" ]}.
Proof.
  destruct (kms_keys_linked_to_first_ring
              [GeneratorExamples.key_ring; GeneratorExamples.crypto_key] 1
              GeneratorExamples.crypto_key
              ltac:(repeat constructor) eq_refl)
    as (after & Hl & _ & _ & _ & Hitem).
  exists after. split; [exact Hl|].
  rewrite (Hitem eq_refl _ "projects/p/locations/global/keyRings/r"
             eq_refl eq_refl).
  vm_compute. reflexivity.
Defined.

End KmsMore.

Module HooksMore.
Import GoStrings Printer Assembler Generators HookChecks.

Lemma set_PreserveOrder_content r hints :
  InstanceInfo (set_PreserveOrder r hints) = InstanceInfo r /\
  InstanceState (set_PreserveOrder r hints) = InstanceState r /\
  ResourceName (set_PreserveOrder r hints) = ResourceName r /\
  Item (set_PreserveOrder r hints) = Item r.
Proof. repeat split. Qed.

Lemma assemble_one_content keys a a' r r' :
  resourcesByType a' = resourcesByType a ->
  mapsObjects a' = mapsObjects a ->
  logged a' = logged a ->
  InstanceInfo r' = InstanceInfo r ->
  ResourceName r' = ResourceName r ->
  Item r' = Item r ->
  resourcesByType (assemble_one keys a' r') = resourcesByType (assemble_one keys a r) /\
  mapsObjects (assemble_one keys a' r') = mapsObjects (assemble_one keys a r) /\
  logged (assemble_one keys a' r') = logged (assemble_one keys a r).
Proof.
  intros Hr Hm Hl Hi Hn Hitem. unfold assemble_one. cbv zeta.
  rewrite Hr, Hm, Hl, Hi, Hn, Hitem.
  destruct (_ !! ResourceName r); repeat split.
Qed.

Lemma assemble_from_content order f resources : forall i a a',
  (forall r,
     InstanceInfo (f r) = InstanceInfo r /\
     InstanceState (f r) = InstanceState r /\
     ResourceName (f r) = ResourceName r /\
     Item (f r) = Item r) ->
  resourcesByType a' = resourcesByType a ->
  mapsObjects a' = mapsObjects a ->
  logged a' = logged a ->
  let b := assemble_from order i a resources in
  let b' := assemble_from order i a' (map f resources) in
  resourcesByType b' = resourcesByType b /\
  mapsObjects b' = mapsObjects b /\
  logged b' = logged b.
Proof.
  induction resources as [|r rest IH]; intros i a a' Hf Hr Hm Hl.
  - cbn. auto.
  - cbn [map assemble_from].
    destruct (Hf r) as (Hi & Hs & Hn & Hitem). rewrite Hs.
    destruct (assemble_one_content
                (order i (terraform.Attributes (InstanceState r)))
                a a' r (f r) Hr Hm Hl Hi Hn Hitem) as (Hr' & Hm' & Hl').
    apply IH; assumption.
Qed.

Lemma map_content_kept f :
  (forall r,
     InstanceInfo (f r) = InstanceInfo r /\
     InstanceState (f r) = InstanceState r /\
     ResourceName (f r) = ResourceName r /\
     Item (f r) = Item r) ->
  content_kept (map f).
Proof.
  intros Hf E order resources providerData sort a a'.
  destruct (assemble_from_content order f resources 0 empty_assembly
              empty_assembly Hf eq_refl eq_refl eq_refl) as (Hr & Hm & Hl).
  fold (assemble order resources) in Hr, Hm, Hl.
  fold (assemble order (map f resources)) in Hr, Hm, Hl.
  split; [apply length_map|]. split; [exact Hr|]. split; [exact Hm|].
  split; [exact Hl|].
  unfold HclPrintResource, Print, document. cbv zeta.
  change (String.eqb "json" "hcl") with false.
  change (String.eqb "json" "json") with true. cbv iota.
  rewrite Hr. reflexivity.
Qed.

(** X30: the hooks of the Cloud Build, App Engine, Cloud Run and Firestore
    generators touch the ordering hints only: after each of them
    [HclPrintResource] builds the same resources by type and name, the
    same set of map paths and the same log as before it, and with the
    [json] format it returns the same result. *)
Theorem hooks_change_hints_only :
  content_kept CloudBuild_PostConvertHook /\
  content_kept AppEngine_PostConvertHook /\
  content_kept CloudRun_PostConvertHook /\
  content_kept Firestore_PostConvertHook.
Proof.
  split; [|split; [|split]]; apply map_content_kept; intros r; cbv zeta.
  - destruct (String.eqb _ _); [apply set_PreserveOrder_content|auto].
  - destruct (String.eqb _ _); [apply set_PreserveOrder_content|auto].
  - destruct (_ || _); [apply set_PreserveOrder_content|].
    destruct (String.eqb _ _); [apply set_PreserveOrder_content|auto].
  - destruct (String.eqb _ _); [apply set_PreserveOrder_content|auto].
Qed.

End HooksMore.
